(** * Power Pages local server: template resolution, rendering and mock dispatch

    A shallow embedding of the include/snippet preprocessing of
    [LiquidEngine], of the content lookups of [SnippetHandler],
    [TemplateHandler] and [PageHandler], and of the rule store and matcher
    of [MockManager] / [MockMiddleware], with the properties the
    specification states about them.

    Modelling conventions.
    - A JavaScript string is a [string]: a sequence of code units below 256
      (the Latin-1 range).  On that range [\s], [trim] and [toLowerCase] are
      exactly the functions of [Module JsString].
    - [async]/[await] is sequential here (every call is awaited at once), so
      asynchronous functions are ordinary functions; a rejected promise is a
      thrown exception ([Throw]).
    - Storage is a map from the directory slug to what [path.join(base, slug)]
      designates; [fs.pathExists] is the presence of the key.  Slugs holding
      path separators are outside the model.
    - [console.log] output is not modelled. *)

From Stdlib Require Import ZArith Ascii NArith Lia Bool.
From stdpp Require Import base strings gmap list sorting.

(** ** JavaScript strings *)

Module JsString.

Definition code (c : ascii) : N := N_of_ascii c.

(** The class [\s] (and the characters [trim] strips) below 256:
    TAB, LF, VT, FF, CR, SPACE and NBSP. *)
Definition isSpace (c : ascii) : bool :=
  let n := code c in
  ((9 <=? n) && (n <=? 13) || (n =? 32) || (n =? 160))%N.

(** [toLowerCase] on one code unit: A-Z and the Latin-1 capitals
    U+00C0..U+00DE (without the multiplication sign U+00D7) move up by 32. *)
Definition lowerChar (c : ascii) : ascii :=
  let n := code c in
  if ((65 <=? n) && (n <=? 90) ||
      (192 <=? n) && (n <=? 222) && negb (n =? 215))%N
  then ascii_of_N (n + 32) else c.

Fixpoint toLowerCase (s : string) : string :=
  match s with
  | EmptyString => EmptyString
  | String c s' => String (lowerChar c) (toLowerCase s')
  end.

(** [s.replace(/\s+/g, '-')]: every maximal run of white space becomes one
    hyphen.  [inRun] tells that the previous character was white space. *)
Fixpoint replaceSpaceRuns_from (inRun : bool) (s : string) : string :=
  match s with
  | EmptyString => EmptyString
  | String c s' =>
      if isSpace c
      then (if inRun then replaceSpaceRuns_from true s'
            else String "-" (replaceSpaceRuns_from true s'))
      else String c (replaceSpaceRuns_from false s')
  end.

Definition replaceSpaceRuns (s : string) : string :=
  replaceSpaceRuns_from false s.

Fixpoint allChars (p : ascii -> bool) (s : string) : bool :=
  match s with
  | EmptyString => true
  | String c s' => p c && allChars p s'
  end.

(** [s.startsWith(p)], giving the rest of [s] after [p]. *)
Fixpoint stripPrefix (p s : string) : option string :=
  match p, s with
  | EmptyString, _ => Some s
  | String a p', String b s' =>
      if Ascii.eqb a b then stripPrefix p' s' else None
  | String _ _, EmptyString => None
  end.

Definition startsWith (s p : string) : bool :=
  match stripPrefix p s with Some _ => true | None => false end.

(** [s.endsWith(suffix)] *)
Definition endsWith (s suffix : string) : bool :=
  startsWith (String.rev s) (String.rev suffix).

(** [s.indexOf(pat)] as a split of [s] around the first occurrence. *)
Fixpoint splitFirst (pat s : string) : option (string * string) :=
  match stripPrefix pat s with
  | Some rest => Some (EmptyString, rest)
  | None =>
      match s with
      | EmptyString => None
      | String c s' =>
          match splitFirst pat s' with
          | Some (before, after) => Some (String c before, after)
          | None => None
          end
      end
  end.

(** [s.includes(pat)] *)
Definition includes (s pat : string) : bool :=
  match splitFirst pat s with Some _ => true | None => false end.

Fixpoint dropSpaces (s : string) : string :=
  match s with
  | String c s' => if isSpace c then dropSpaces s' else s
  | EmptyString => EmptyString
  end.

(** [s.trim()] *)
Definition trim (s : string) : string :=
  String.rev (dropSpaces (String.rev (dropSpaces s))).

(** The longest prefix whose characters satisfy [p], and the rest. *)
Fixpoint span (p : ascii -> bool) (s : string) : string * string :=
  match s with
  | String c s' =>
      if p c then let '(taken, rest) := span p s' in (String c taken, rest)
      else (EmptyString, s)
  | EmptyString => (EmptyString, EmptyString)
  end.

(** [GetSubstitution] for a string pattern (no capture groups): in the
    replacement text [$$] is a dollar, [$&] the matched text, [$`] the text
    before the match and [$'] the text after it; any other [$] is literal. *)
Fixpoint getSubstitution (matched before after repl : string) : string :=
  match repl with
  | EmptyString => EmptyString
  | String "$" (String "$" r) =>
      String "$" (getSubstitution matched before after r)
  | String "$" (String "&" r) =>
      matched +:+ getSubstitution matched before after r
  | String "$" (String "`" r) =>
      before +:+ getSubstitution matched before after r
  | String "$" (String "'" r) =>
      after +:+ getSubstitution matched before after r
  | String c r => String c (getSubstitution matched before after r)
  end.

(** [s.replace(pat, repl)] with a string pattern: the first occurrence
    only; [s] itself when [pat] does not occur. *)
Definition replace (s pat repl : string) : string :=
  match splitFirst pat s with
  | None => s
  | Some (before, after) =>
      before +:+ getSubstitution pat before after repl +:+ after
  end.

(** [s.split(',')] *)
Fixpoint splitComma_from (cur : string) (s : string) : list string :=
  match s with
  | EmptyString => [String.rev cur]
  | String c s' =>
      if Ascii.eqb c "," then String.rev cur :: splitComma_from EmptyString s'
      else splitComma_from (String c cur) s'
  end.

Definition splitComma (s : string) : list string :=
  splitComma_from EmptyString s.

End JsString.

Import JsString.

(** The slug of a logical name: the expression
    [name.toLowerCase().replace(/\s+/g, '-')] that [processInclude],
    [loadSnippetContent] and [getSnippet] all apply to the name before
    looking it up. *)
Definition normalize (name : string) : string :=
  replaceSpaceRuns (toLowerCase name).

(** A character that normalisation leaves alone. *)
Definition settled (c : ascii) : bool :=
  negb (isSpace c) && Ascii.eqb (lowerChar c) c.

(** ** Exceptions *)

Inductive Exn : Type :=
| ENOTDIR                       (* [readdir] on something that is no directory *)
| EISDIR                        (* [readFile] on a directory *)
| EngineError (message : string) (* raised by the template-expression engine *)
| TypeError (message : string).  (* a method called on a value that lacks it *)

Inductive Outcome (A : Type) : Type :=
| Ret (a : A)
| Throw (e : Exn).
Arguments Ret {A} a.
Arguments Throw {A} e.

#[global] Instance Outcome_ret : MRet Outcome := fun _ a => Ret a.
#[global] Instance Outcome_bind : MBind Outcome := fun _ _ k m =>
  match m with
  | Ret a => k a
  | Throw e => Throw e
  end.

(** [try { body } catch (error) { handler }] *)
Definition tryCatch {A} (body : Outcome A) (handler : Exn -> Outcome A)
  : Outcome A :=
  match body with
  | Ret a => Ret a
  | Throw e => handler e
  end.

(** ** Storage *)

(** What a name listed in a directory designates. *)
Inductive Entry : Type :=
| File (content : string)
| Folder.

(** What [path.join(base, slug)] designates when it exists. *)
Inductive Node : Type :=
| NotADirectory
| Directory (files : list (string * Entry)).

Record Site : Type := {
  snippetsPath : gmap string Node;   (* powerPagesPath/snippetsPath/slug *)
  templatesPath : gmap string Node;  (* powerPagesPath/templatesPath/slug *)
  pagesPath : gmap string Node       (* powerPagesPath/pagesPath/dir/content-pages *)
}.

Record Config : Type := {
  liquidExcludes : option (list string)
}.

(** [fs.readdir]: the names in listing order, here with what they designate. *)
Definition readdir (n : Node) : Outcome (list (string * Entry)) :=
  match n with
  | Directory files => Ret files
  | NotADirectory => Throw ENOTDIR
  end.

(** [fs.readFile(path.join(dir, name), 'utf8')] for a listed name. *)
Definition readFile (e : Entry) : Outcome string :=
  match e with
  | File content => Ret content
  | Folder => Throw EISDIR
  end.

(** [files.find(f => p(f))] *)
Definition findFile (p : string -> bool) (files : list (string * Entry))
  : option (string * Entry) :=
  List.find (fun fe => p fe.1) files.

(** A JavaScript string used as a condition: the empty string is falsy. *)
Definition truthy (s : string) : bool :=
  match s with EmptyString => false | String _ _ => true end.

(** ** LiquidEngine: the include preprocessor *)

Module LiquidEngine.

Definition isQuote (c : ascii) : bool :=
  ((code c =? 39) || (code c =? 34))%N.

Definition notBrace (c : ascii) : bool := negb (Ascii.eqb c "}").
Definition notQuote (c : ascii) : bool := negb (isQuote c).

(** The text of [s] consumed when [rest] is what remains of it. *)
Definition consumed (s rest : string) : string :=
  String.substring 0 (String.length s - String.length rest) s.

(** [/\{\{\s*Snippets\.([^}]+)\s*\}\}/] tried at the start of [s]: the
    matched text and group 1.  The class [[^}]] accepts white space too, so
    group 1 runs up to the first closing brace and the [\s*] after it
    matches nothing; giving characters back cannot produce a match, since
    the two braces must follow the run. *)
Definition snippetRefAt (s : string) : option (string * string) :=
  r1 ← stripPrefix "{{" s;
  r2 ← stripPrefix "Snippets." (dropSpaces r1);
  let '(name, r3) := span notBrace r2 in
  if truthy name then
    r4 ← stripPrefix "}}" r3;
    Some (consumed s r4, name)
  else None.

(** [/{%\s*include\s+[Q]([^Q]+)[Q]\s*%}/] tried at the start of [s], where
    [Q] stands for the class of the two quote characters (single and
    double; the opening and the closing one need not be the same). *)
Definition includeTagAt (s : string) : option (string * string) :=
  r1 ← stripPrefix "{%" s;
  r2 ← stripPrefix "include" (dropSpaces r1);
  match r2 with
  | String c _ =>
      if isSpace c then
        match dropSpaces r2 with
        | String q r3 =>
            if isQuote q then
              let '(name, r4) := span notQuote r3 in
              match r4 with
              | String q' r5 =>
                  if isQuote q' && truthy name then
                    r6 ← stripPrefix "%}" (dropSpaces r5);
                    Some (consumed s r6, name)
                  else None
              | EmptyString => None
              end
            else None
        | EmptyString => None
        end
      else None
  | EmptyString => None
  end.

(** [[...s.matchAll(re)]] for a pattern that never matches the empty
    string: the matches from left to right, the search resuming after each
    match.  [skip] counts the characters of the last match still to pass. *)
Fixpoint matchAll_from (tokenAt : string -> option (string * string))
    (skip : nat) (s : string) : list (string * string) :=
  match s with
  | EmptyString => []
  | String _ s' =>
      match skip with
      | S k => matchAll_from tokenAt k s'
      | O =>
          match tokenAt s with
          | Some (m, g) =>
              (m, g) :: matchAll_from tokenAt (String.length m - 1) s'
          | None => matchAll_from tokenAt 0 s'
          end
      end
  end.

Definition matchAll (tokenAt : string -> option (string * string))
    (s : string) : list (string * string) :=
  matchAll_from tokenAt 0 s.

(** [/x/i.test(fileName)] for a pattern of ASCII letters. *)
Definition includesIgnoreCase (s pat : string) : bool :=
  includes (toLowerCase s) pat.

Definition isJavaScriptFile (fileName : string) : bool :=
  endsWith (toLowerCase fileName) ".js"      (* /\.js$/i *)
  || includesIgnoreCase fileName "react"
  || includesIgnoreCase fileName "redux"
  || includesIgnoreCase fileName "bootstrap"
  || includesIgnoreCase fileName "jquery"
  || includesIgnoreCase fileName "babel"
  || includesIgnoreCase fileName "webpack"
  || includesIgnoreCase fileName "polyfill".

Definition isLineTerminator (c : ascii) : bool :=
  ((code c =? 10) || (code c =? 13))%N.

(** [close] occurs in [s] before any line terminator. *)
Fixpoint closesOnLine (close s : string) : bool :=
  match stripPrefix close s with
  | Some _ => true
  | None =>
      match s with
      | EmptyString => false
      | String c s' =>
          if isLineTerminator c then false else closesOnLine close s'
      end
  end.

(** [/open.*?close/.test(s)]: the dot does not cross a line terminator. *)
Fixpoint delimited (open close s : string) : bool :=
  match stripPrefix open s with
  | Some rest => closesOnLine close rest
  | None => false
  end ||
  match s with
  | EmptyString => false
  | String _ s' => delimited open close s'
  end.

Definition containsLiquidSyntax (content : string) : bool :=
  delimited "{{" "}}" content
  || delimited "{%" "%}" content
  || delimited "{{-" "-}}" content
  || delimited "{%-" "-%}" content.

Definition shouldSkipLiquidProcessing (config : Config)
    (fileName content : string) : bool :=
  if match liquidExcludes config with
     | Some excludes => bool_decide (fileName ∈ excludes)
     | None => false
     end
  then true
  else if negb (isJavaScriptFile fileName) then false
  else if truthy content && containsLiquidSyntax content then false
  else true.

Definition includeNotFound (includeName : string) : string :=
  "<!-- Include not found: " +:+ includeName +:+ " -->".
Definition includeError (includeName : string) : string :=
  "<!-- Include error: " +:+ includeName +:+ " -->".
Definition snippetNotFound (snippetName : string) : string :=
  "<!-- Snippet not found: " +:+ snippetName +:+ " -->".
Definition snippetError (snippetName : string) : string :=
  "<!-- Snippet error: " +:+ snippetName +:+ " -->".

(** The first part of [processInclude]: the assignments to [content].
    The snippet directory is looked at first; the template directory only
    when no snippet directory exists ([else if]).  [content] stays empty
    when the directory found holds no file with the suffix looked for. *)
Definition findIncludeContent (site : Site) (includeName : string)
  : Outcome string :=
  match snippetsPath site !! normalize includeName with
  | Some node =>
      files ← readdir node;
      match findFile (fun f => endsWith f ".html") files with
      | Some (_, htmlFile) => readFile htmlFile
      | None => Ret EmptyString
      end
  | None =>
      match templatesPath site !! normalize includeName with
      | Some node =>
          files ← readdir node;
          match findFile (fun f => endsWith f ".webtemplate.source.html") files with
          | Some (_, webtemplateFile) => readFile webtemplateFile
          | None => Ret EmptyString
          end
      | None => Ret EmptyString
      end
  end.

(** The first part of [loadSnippetContent]: [Ret None] when the directory
    or the file is missing. *)
Definition findSnippetContent (site : Site) (snippetName : string)
  : Outcome (option string) :=
  match snippetsPath site !! normalize snippetName with
  | Some node =>
      files ← readdir node;
      match
        match findFile (fun f => endsWith f ".contentsnippet.value.html") files with
        | Some f => Some f
        | None => findFile (fun f => endsWith f ".contentsnippet.html") files
        end
      with
      | Some (_, htmlFile) => content ← readFile htmlFile; Ret (Some content)
      | None => Ret None
      end
  | None => Ret None
  end.

(** One level of the recursion; [self] is [preprocessIncludes] for the
    nested call.  [None] is reserved for an exhausted recursion budget. *)
Section Level.
Variable config : Config.
Variable site : Site.
Variable self : string -> nat -> option string.

Definition loadSnippetContent_with (snippetName : string) (depth : nat)
  : option string :=
  match findSnippetContent site snippetName with
  | Ret (Some content) => self content depth
  | Ret None => Some (snippetNotFound snippetName)
  | Throw _ => Some (snippetError snippetName)
  end.

Definition processInclude_with (includeName : string) (depth : nat)
  : option string :=
  match findIncludeContent site includeName with
  | Ret content =>
      if truthy content then
        if shouldSkipLiquidProcessing config includeName content
        then Some content
        else self content depth
      else Some (includeNotFound includeName)
  | Throw _ => Some (includeError includeName)
  end.

(** [for (const m of matches) { processed = processed.replace(m[0], expand(m[1])) }] *)
Fixpoint substituteAll (expand : string -> option string)
    (processedContent : string) (matches : list (string * string))
  : option string :=
  match matches with
  | [] => Some processedContent
  | (token, name) :: matches' =>
      expansion ← expand name;
      substituteAll expand (replace processedContent token expansion) matches'
  end.

Definition preprocessIncludes_body (templateContent : string) (depth : nat)
  : option string :=
  if 10 <? depth then Some templateContent
  else
    processedContent ←
      substituteAll
        (fun snippetName => loadSnippetContent_with (trim snippetName) (depth + 1))
        templateContent (matchAll snippetRefAt templateContent);
    substituteAll
      (fun includeName => processInclude_with includeName (depth + 1))
      processedContent (matchAll includeTagAt processedContent).
End Level.

(** [preprocessIncludes(templateContent, additionalData, depth)] with a
    budget of nested calls.  [additionalData] is only handed down the
    recursion and never read, so it is left out.  Nothing in the [try]
    block throws (both callees catch everything), so its [catch] is dead. *)
Fixpoint preprocessIncludes (fuel : nat) (config : Config) (site : Site)
    (templateContent : string) (depth : nat) : option string :=
  match fuel with
  | O => None
  | S fuel' =>
      preprocessIncludes_body config site
        (preprocessIncludes fuel' config site) templateContent depth
  end.

Definition loadSnippetContent (fuel : nat) (config : Config) (site : Site)
    (snippetName : string) (depth : nat) : option string :=
  loadSnippetContent_with site (preprocessIncludes fuel config site)
    snippetName depth.

Definition processInclude (fuel : nat) (config : Config) (site : Site)
    (includeName : string) (depth : nat) : option string :=
  processInclude_with config site (preprocessIncludes fuel config site)
    includeName depth.

(** Nested calls needed from [depth] on: levels [depth .. 11]. *)
Definition enoughFuel (depth : nat) : nat := S (11 - depth).

(** The preprocessor as [render] calls it.  The budget [enoughFuel] never
    runs out ([preprocessIncludes_terminates]), so the default is unused. *)
Definition preprocess (config : Config) (site : Site)
    (templateContent : string) (depth : nat) : string :=
  default templateContent
    (preprocessIncludes (enoughFuel depth) config site templateContent depth).

(** *** The content classifier and [render] *)

Definition dq : string := String "034" EmptyString.

Section Render.
(** The regular-expression engine of the JavaScript runtime, on the
    source text of a pattern: [new RegExp(src).test(s)] and
    [(s.match(new RegExp(src, 'g')) || []).length]. *)
Variable regexTest : string -> string -> bool.
Variable regexCount : string -> string -> nat.

Definition jsPatterns : list string := [
  "^\s*\/\*[\s\S]*?\*\/";
  "^\s*\/\/";
  "^\s*\(function\s*\(";
  "^\s*function\s+\w+";
  "^\s*var\s+\w+";
  "^\s*const\s+\w+";
  "^\s*let\s+\w+";
  "typeof\s+exports";
  "typeof\s+define";
  "global\s*=\s*typeof\s*globalThis";
  "!function\s*\(";
  "window\s*\[\s*[" +:+ dq +:+ "']ReactDOM[" +:+ dq +:+ "']\s*\]";
  "e\s*=\s*e\s*\|\|\s*self";
  "<script[^>]*type=[" +:+ dq +:+ "']text\/babel[" +:+ dq +:+ "'][^>]*>";
  "React\.createElement";
  "ReactDOM\.";
  "React\.__SECRET_INTERNALS_DO_NOT_USE_OR_YOU_WILL_BE_FIRED";
  "ReactCurrentDispatcher";
  "ReactCurrentBatchConfig";
  "prepareStackTrace";
  "Error\.prepareStackTrace";
  "ReactDebugCurrentFrame";
  "getStackAddendum";
  dq +:+ "object" +:+ dq +:+ "==typeof exports&&" +:+ dq +:+ "undefined"
     +:+ dq +:+ "!=typeof module";
  "define\.amd\?define";
  "this,\(function\(e,t\)\{" +:+ dq +:+ "use strict" +:+ dq
].

(** The indicator patterns carrying the [g] flag: each contributes the
    number of its matches. *)
Definition jsIndicators : list string := [
  "typeof\s+\w+";
  "function\s*\(";
  "\bvar\s+\w+";
  "\bconst\s+\w+";
  "\blet\s+\w+";
  "console\.[a-zA-Z]+\s*\(";
  "\b\w+\s*=\s*function\s*\(";
  "\bif\s*\([^)]+\)\s*\{";
  "\bfor\s*\([^)]+\)\s*\{";
  "\btry\s*\{";
  "\bcatch\s*\(";
  "===|!==|&&|\|\|";
  "\b\w+\.prototype\.";
  "\bnew\s+\w+\s*\(";
  "\bthis\.";
  "\breturn\s+[^;]+;";
  "\bcase\s+[^:]+:";
  "ReactCurrentBatchConfig";
  "ReactCurrentDispatcher";
  "ReactDebugCurrentFrame";
  "ReactDOM\.";
  "React\.";
  "__SECRET_INTERNALS_DO_NOT_USE_OR_YOU_WILL_BE_FIRED";
  "prepareStackTrace";
  "getStackAddendum";
  dq +:+ "object" +:+ dq +:+ "==typeof";
  dq +:+ "function" +:+ dq +:+ "==typeof";
  dq +:+ "undefined" +:+ dq +:+ "!=typeof"
].

(** The first indicator has no [g] flag: [content.match] then gives one
    match array of length 1, or [null]. *)
Definition indicatorCount (content : string) : nat :=
  (if regexTest "\bReactDOM\s*=\s*{}" content then 1 else 0)
  + sum_list ((fun pattern => regexCount pattern content) <$> jsIndicators).

Definition containsExcludedSignatures (config : Config) (content : string)
  : bool :=
  match liquidExcludes config with
  | Some excludes =>
      existsb (fun excludedFile =>
        includes content excludedFile
        || includes content "react-dom.development.js"
        || includes content "react.development.js"
        || includes content "__SECRET_INTERNALS_DO_NOT_USE_OR_YOU_WILL_BE_FIRED")
        excludes
  | None => false
  end.

(** [jsRatio = indicatorCount / (contentLength / 1000)] is compared with
    1 and 2 only; the comparisons are written on the integers. *)
Definition isJavaScriptContent (config : Config) (content : string) : bool :=
  let count := N.of_nat (indicatorCount content) in
  let contentLength := N.of_nat (String.length content) in
  let hasReactDOMSignature :=
    regexTest "ReactDOM|React\.__SECRET_INTERNALS|ReactCurrentDispatcher|ReactDebugCurrentFrame" content in
  let hasUMDPattern :=
    regexTest (dq +:+ "object" +:+ dq +:+ "==typeof exports&&" +:+ dq
               +:+ "undefined" +:+ dq +:+ "!=typeof module") content in
  let hasMinifiedJSPattern :=
    regexTest ("!function\(e,t\)\{" +:+ dq +:+ "use strict" +:+ dq) content
    || regexTest "this,\(function\(e,t\)" content in
  let isVeryLargeWithJSPatterns :=
    (100000 <? contentLength)%N
    && (100 <? regexCount "function\s*\(" content) in
  existsb (fun pattern => regexTest pattern content) jsPatterns
  || hasReactDOMSignature
  || hasUMDPattern
  || hasMinifiedJSPattern
  || isVeryLargeWithJSPatterns
  || containsExcludedSignatures config content
  || (20 <? count)%N
  || ((2 * contentLength <? 1000 * count)%N && (1000 <? contentLength)%N)
  || ((50000 <? contentLength)%N && (contentLength <? 1000 * count)%N).

(** The template-expression engine (liquidjs) and the variable
    environment.  [mockData] is [this.mockData] once initialised
    ([createMockData] catches every failure of the identity lookup and
    falls back to the configured user); [spread base overrides] is
    [{...base, ...overrides, liquidEngine: this}]. *)
Variable Data : Type.
Variable mockData : Data.
Variable spread : Data -> Data -> Data.
Variable parseAndRender : string -> Data -> Outcome string.

Variable config : Config.
Variable site : Site.

(** [render(templateContent, additionalData)], with the list of the
    texts it handed to the expression engine.  Its [catch] logs and
    throws the error again. *)
Definition renderTraced (templateContent : string) (additionalData : Data)
  : Outcome string * list string :=
  if isJavaScriptContent config templateContent
  then (Ret templateContent, [])
  else
    let processedContent := preprocess config site templateContent 0 in
    if isJavaScriptContent config processedContent
    then (Ret processedContent, [])
    else
      let data := spread mockData additionalData in
      (tryCatch (parseAndRender processedContent data) (fun error => Throw error),
       [processedContent]).

Definition render (templateContent : string) (additionalData : Data)
  : Outcome string :=
  (renderTraced templateContent additionalData).1.
End Render.

End LiquidEngine.

(** ** SnippetHandler, TemplateHandler and PageHandler *)

Module Handlers.
Import LiquidEngine.

Definition isLetter (c : ascii) : bool :=
  let n := code c in
  ((65 <=? n) && (n <=? 90) || (97 <=? n) && (n <=? 122))%N.

(** [f.match(/\.[a-zA-Z]{2}-[a-zA-Z]{2}SUFFIX$/)] for a literal [suffix]
    (given with its leading dot). *)
Definition endsWithLanguage (f suffix : string) : bool :=
  match stripPrefix (String.rev suffix) (String.rev f) with
  | Some (String l4 (String l3 (String "-" (String l2 (String l1 (String "." _)))))) =>
      isLetter l1 && isLetter l2 && isLetter l3 && isLetter l4
  | _ => false
  end.

(** [a || b]: the first lookup that finds something. *)
Definition orElse {A} (a b : option A) : option A :=
  match a with Some _ => a | None => b end.

Section WithEngine.
Variable regexTest : string -> string -> bool.
Variable regexCount : string -> string -> nat.
Variable Data : Type.
Variable mockData : Data.
Variable spread : Data -> Data -> Data.
Variable parseAndRender : string -> Data -> Outcome string.
Variable emptyData : Data.                   (* the default [data = {}] *)
(** [yaml.parse] of the yaml library. *)
Variable Yaml : Type.
Variable yamlParse : string -> Outcome Yaml.
Variable emptyYaml : Yaml.
Variable config : Config.
Variable site : Site.

Let render := render regexTest regexCount Data mockData spread
                parseAndRender config site.

(** *** SnippetHandler *)

Record Snippet : Type := {
  snippet_name : string;
  snippet_content : string;
  snippet_config : Yaml;
  snippet_path : string
}.

Definition readConfig (configFile : option (string * Entry)) : Outcome Yaml :=
  match configFile with
  | Some (_, entry) => configContent ← readFile entry; yamlParse configContent
  | None => Ret emptyYaml
  end.

(** The [try] block of [getSnippet] after the cache miss. *)
Definition loadSnippet (snippetName : string) : Outcome (option Snippet) :=
  match snippetsPath site !! normalize snippetName with
  | None => Ret None
  | Some node =>
      files ← readdir node;
      let htmlFile :=
        orElse (findFile (fun f => endsWithLanguage f ".contentsnippet.value.html") files)
        (orElse (findFile (fun f => endsWith f ".contentsnippet.value.html") files)
        (orElse (findFile (fun f => endsWithLanguage f ".contentsnippet.html") files)
                (findFile (fun f => endsWith f ".contentsnippet.html") files))) in
      let configFile :=
        orElse (findFile (fun f => endsWithLanguage f ".contentsnippet.yml") files)
               (findFile (fun f => endsWith f ".contentsnippet.yml") files) in
      match htmlFile with
      | None => Ret None
      | Some (fileName, entry) =>
          content ← readFile entry;
          snippetConfig ← readConfig configFile;
          Ret (Some {| snippet_name := snippetName;
                       snippet_content := content;
                       snippet_config := snippetConfig;
                       snippet_path := normalize snippetName +:+ "/" +:+ fileName |})
      end
  end.

(** [getSnippet(snippetName)]: the result ([None] for [null]) and the
    cache afterwards.  Every exception becomes [null]. *)
Definition getSnippet (snippetsCache : gmap string Snippet)
    (snippetName : string) : option Snippet * gmap string Snippet :=
  match snippetsCache !! snippetName with
  | Some snippet => (Some snippet, snippetsCache)
  | None =>
      match loadSnippet snippetName with
      | Ret (Some snippet) =>
          (Some snippet, <[snippetName := snippet]> snippetsCache)
      | Ret None => (None, snippetsCache)
      | Throw _ => (None, snippetsCache)
      end
  end.

Definition snippetRenderError (snippetName : string) : string :=
  "<!-- Snippet render error: " +:+ snippetName +:+ " -->".

(** [renderSnippet(snippetName, data)] *)
Definition renderSnippet (snippetsCache : gmap string Snippet)
    (snippetName : string) (data : Data)
  : Outcome string * gmap string Snippet :=
  let '(snippet, snippetsCache') := getSnippet snippetsCache snippetName in
  (tryCatch
     match snippet with
     | None => Ret (snippetNotFound snippetName)
     | Some snippet => render (snippet_content snippet) data
     end
     (fun _ => Ret (snippetRenderError snippetName)),
   snippetsCache').

(** *** TemplateHandler *)

Record Template : Type := {
  template_name : string;
  template_content : string;
  template_config : Yaml;
  template_path : string
}.

Definition loadTemplate (templateName : string) : Outcome (option Template) :=
  match templatesPath site !! toLowerCase templateName with
  | None => Ret None
  | Some node =>
      files ← readdir node;
      let sourceFile := findFile (fun f => endsWith f ".webtemplate.source.html") files in
      let configFile := findFile (fun f => endsWith f ".webtemplate.yml") files in
      match sourceFile with
      | None => Ret None
      | Some (fileName, entry) =>
          content ← readFile entry;
          templateConfig ← readConfig configFile;
          Ret (Some {| template_name := templateName;
                       template_content := content;
                       template_config := templateConfig;
                       template_path := toLowerCase templateName +:+ "/" +:+ fileName |})
      end
  end.

Definition getTemplate (templatesCache : gmap string Template)
    (templateName : string) : option Template * gmap string Template :=
  match templatesCache !! templateName with
  | Some template => (Some template, templatesCache)
  | None =>
      match loadTemplate templateName with
      | Ret (Some template) =>
          (Some template, <[templateName := template]> templatesCache)
      | Ret None => (None, templatesCache)
      | Throw _ => (None, templatesCache)
      end
  end.

Definition templateNotFound (templateName : string) : string :=
  "<!-- Template not found: " +:+ templateName +:+ " -->".
Definition templateRenderError (templateName : string) : string :=
  "<!-- Template render error: " +:+ templateName +:+ " -->".

(** [renderTemplate(templateName, data)] *)
Definition renderTemplate (templatesCache : gmap string Template)
    (templateName : string) (data : Data)
  : Outcome string * gmap string Template :=
  let '(template, templatesCache') := getTemplate templatesCache templateName in
  (tryCatch
     match template with
     | None => Ret (templateNotFound templateName)
     | Some template => render (template_content template) data
     end
     (fun _ => Ret (templateRenderError templateName)),
   templatesCache').

(** *** PageHandler *)

Record PageConfig : Type := {
  directory : string;
  adx_title : string
}.

Record PageContent : Type := {
  content : string;
  customCss : string;
  customJs : string;
  hasLanguageFile : bool
}.

(** The text of the first listed file with the given suffix, or the empty
    string when there is none: how [customCss] and [customJs] are read. *)
Definition readOptional (suffix : string) (contentFiles : list (string * Entry))
  : Outcome string :=
  match findFile (fun f => endsWith f suffix) contentFiles with
  | Some (_, entry) => readFile entry
  | None => Ret EmptyString
  end.

(** The [try] block of [getPageContent]; [None] is [null].
    [language.replace('-', '-')] leaves the tag as it is. *)
Definition getPageContent_try (pageConfig : PageConfig) (language : string)
  : Outcome (option PageContent) :=
  match pagesPath site !! directory pageConfig with
  | None => Ret None
  | Some node =>
      contentFiles ← readdir node;
      let langCode := replace language "-" "-" in
      match findFile (fun f => includes f langCode && endsWith f ".webpage.copy.html")
                     contentFiles with
      | None =>
          match findFile (fun f => endsWith f ".webpage.copy.html") contentFiles with
          | None => Ret None
          | Some (_, fallbackFile) =>
              pageText ← readFile fallbackFile;
              css ← readOptional ".webpage.custom_css.css" contentFiles;
              js ← readOptional ".webpage.custom_javascript.js" contentFiles;
              Ret (Some {| content := pageText; customCss := css;
                           customJs := js; hasLanguageFile := false |})
          end
      | Some (_, contentFile) =>
          pageText ← readFile contentFile;
          css ← readOptional ".webpage.custom_css.css" contentFiles;
          js ← readOptional ".webpage.custom_javascript.js" contentFiles;
          Ret (Some {| content := pageText; customCss := css;
                       customJs := js; hasLanguageFile := true |})
      end
  end.

(** [getPageContent(pageConfig, language)]: the [catch] logs the error
    and returns [null]. *)
Definition getPageContent (pageConfig : PageConfig) (language : string)
  : Outcome (option PageContent) :=
  tryCatch (getPageContent_try pageConfig language) (fun _ => Ret None).

(** The page shell of [processPage] (a template literal around the
    rendered parts), the error page and the variable environment of a
    page: fixed texts without control flow. *)
Variable pageDocument :
  forall (language title processedCss trackingCode processedHtmlContent
          processedJs : string), string.
Variable getErrorPage : Exn -> string.
Variable liquidContext : PageConfig -> Data.

(** [renderTrackingCode()] *)
Definition renderTrackingCode (snippetsCache : gmap string Snippet)
  : Outcome string * gmap string Snippet :=
  let '(result, snippetsCache') :=
    renderSnippet snippetsCache "Tracking Code" emptyData in
  (tryCatch result (fun _ => Ret "<!-- Tracking code snippet not found -->"),
   snippetsCache').

(** [cond ? render(text) : ''] *)
Definition renderIfPresent (text : string) (data : Data) : Outcome string :=
  if truthy text then render text data else Ret EmptyString.

(** [processPage(pageContent, pageConfig, language)] *)
Definition processPage (snippetsCache : gmap string Snippet)
    (pageContent : PageContent) (pageConfig : PageConfig) (language : string)
  : Outcome string * gmap string Snippet :=
  let context := liquidContext pageConfig in
  match
    processedHtmlContent ← render (content pageContent) context;
    processedCss ← renderIfPresent (customCss pageContent) context;
    processedJs ← renderIfPresent (customJs pageContent) context;
    Ret (processedHtmlContent, processedCss, processedJs)
  with
  | Throw error => (Ret (getErrorPage error), snippetsCache)
  | Ret (processedHtmlContent, processedCss, processedJs) =>
      let '(tracking, snippetsCache') := renderTrackingCode snippetsCache in
      (tryCatch
         (trackingCode ← tracking;
          Ret (pageDocument language (adx_title pageConfig) processedCss
                 trackingCode processedHtmlContent processedJs))
         (fun error => Ret (getErrorPage error)),
       snippetsCache')
  end.
End WithEngine.

End Handlers.

(** ** The mock rule store and the mock middleware *)

Module Mocks.

Record MockRequest : Type := {
  method : string;
  endpoint : string;
  queryParams : option (list (string * string))  (* [Object.entries], if present *)
}.

(** A persisted rule.  [createdAt] is the time value of [new Date(createdAt)]
    in milliseconds; the response part plays no role in matching. *)
Record Mock : Type := {
  id : string;
  name : string;
  enabled : bool;
  priority : Z;
  request : MockRequest;
  createdAt : Z
}.

Record Request : Type := {
  req_method : string;
  req_path : string;
  req_query : gmap string string
}.

(** *** MockManager.saveMock *)

(** The comparison function handed to [sort]. *)
Definition compareMocks (a b : Mock) : Z :=
  if bool_decide (priority b ≠ priority a)
  then priority b - priority a
  else createdAt b - createdAt a.

(** [Array.prototype.sort(comparefn)] is stable: of two elements that
    compare equal, the one that came first stays first. *)
Fixpoint insertSorted {A} (comparefn : A -> A -> Z) (x : A) (l : list A)
  : list A :=
  match l with
  | [] => [x]
  | y :: l' =>
      if (comparefn x y <=? 0)%Z then x :: l
      else y :: insertSorted comparefn x l'
  end.

Definition sort {A} (comparefn : A -> A -> Z) (l : list A) : list A :=
  foldr (insertSorted comparefn) [] l.

(** [saveMock(mock)]: the rule list written back to the configuration. *)
Definition saveMock (mocks : list Mock) (mock : Mock) : list Mock :=
  sort compareMocks (mocks ++ [mock]).

(** [editMock] with the field [priority]: the rule chosen by its index gets
    the new priority and the list is written back as it stands. *)
Definition withPriority (newPriority : Z) (mock : Mock) : Mock :=
  {| id := id mock; name := name mock; enabled := enabled mock;
     priority := newPriority; request := request mock;
     createdAt := createdAt mock |}.

Definition editMockPriority (mocks : list Mock) (mockIndex : nat)
    (newPriority : Z) : list Mock :=
  alter (withPriority newPriority) mockIndex mocks.

(** The order [saveMock] establishes: priority descending, then creation
    date descending. *)
Definition before (a b : Mock) : Prop :=
  (priority b < priority a
   ∨ priority a = priority b ∧ createdAt b ≤ createdAt a)%Z.

(** *** MockMiddleware *)

(** [loadMocks]: the enabled rules of the configuration, in its order. *)
Definition loadMocks (mocks : list Mock) : list Mock :=
  filter (fun mock => enabled mock = true) mocks.

Definition upperChar (c : ascii) : ascii :=
  let n := code c in
  if ((97 <=? n) && (n <=? 122))%N then ascii_of_N (n - 32) else c.

(** [toUpperCase] on a method name (ASCII). *)
Fixpoint toUpperCase (s : string) : string :=
  match s with
  | EmptyString => EmptyString
  | String c s' => String (upperChar c) (toUpperCase s')
  end.

(** [s.replace(/c/g, repl)] for one character [c]. *)
Fixpoint replaceChar (c : ascii) (repl : string) (s : string) : string :=
  match s with
  | EmptyString => EmptyString
  | String d s' =>
      if Ascii.eqb c d then repl +:+ replaceChar c repl s'
      else String d (replaceChar c repl s')
  end.

(** [s.replace(/:[^\/]+/g, '[^/]+')]: a colon with the segment characters
    after it; [inParam] tells that such a run is being skipped. *)
Fixpoint replaceParams_from (inParam : bool) (s : string) : string :=
  match s with
  | EmptyString => EmptyString
  | String c s' =>
      if Ascii.eqb c "/" then String c (replaceParams_from false s')
      else if inParam then replaceParams_from true s'
      else
        match Ascii.eqb c ":", s' with
        | true, String d _ =>
            if Ascii.eqb d "/" then String c (replaceParams_from false s')
            else "[^/]+" +:+ replaceParams_from true s'
        | _, _ => String c (replaceParams_from false s')
        end
  end.

(** [mockPath.split('?')[0]] *)
Definition beforeQuestionMark (s : string) : string :=
  match splitFirst "?" s with
  | Some (path, _) => path
  | None => s
  end.

Definition keyFields : list string :=
  ["incidentid"; "ticketnumber"; "statuscode"].

(** [value.split(',').map(f => f.trim())] *)
Definition fieldsOf (value : string) : list string :=
  trim <$> splitComma value.

(** [keyFields.some(field => fields.includes(field))] *)
Definition hasKeyFields (fields : list string) : bool :=
  existsb (fun field => bool_decide (field ∈ fields)) keyFields.

(** The loop of [matchesQueryParams] over [Object.entries(mockQueryParams)]. *)
Fixpoint matchesEntries (entries : list (string * string))
    (reqQueryParams : gmap string string) : bool :=
  match entries with
  | [] => true
  | (key, mockValue) :: entries' =>
      match reqQueryParams !! key with
      | None => false
      | Some reqValue =>
          if negb (truthy reqValue) then false
          else if bool_decide (key = "$select")
                  && hasKeyFields (fieldsOf mockValue)
                  && hasKeyFields (fieldsOf reqValue)
          then matchesEntries entries' reqQueryParams
          else if bool_decide (mockValue ≠ reqValue) then false
          else matchesEntries entries' reqQueryParams
      end
  end.

Definition matchesQueryParams (mockQueryParams : option (list (string * string)))
    (reqQueryParams : gmap string string) : bool :=
  match mockQueryParams with
  | None | Some [] => true
  | Some entries => matchesEntries entries reqQueryParams
  end.

Section WithRegExp.
(** [new RegExp(source).test(s)] for a pattern built at run time: the
    constructor throws on a malformed pattern. *)
Variable RegExp_test : string -> string -> Outcome bool.

(** What follows a successful path comparison in [matchesRequest]. *)
Definition checkQuery (mock : Mock) (req : Request) : bool :=
  match queryParams (request mock) with
  | Some (_ :: _) =>
      matchesQueryParams (queryParams (request mock)) (req_query req)
  | _ => true
  end.

Definition matchesRequest (mock : Mock) (req : Request) : Outcome bool :=
  if bool_decide (method (request mock) ≠ toUpperCase (req_method req))
  then Ret false
  else
    let mockPath :=
      if includes (endpoint (request mock)) "?"
      then beforeQuestionMark (endpoint (request mock))
      else endpoint (request mock) in
    let reqPath := req_path req in
    if bool_decide (mockPath = reqPath) then Ret (checkQuery mock req)
    else
      wildcard ←
        (if includes mockPath "*" then
           RegExp_test
             ("^" +:+ replaceChar "/" "\/" (replaceChar "*" ".*" mockPath) +:+ "$")
             reqPath
         else Ret false);
      if wildcard : bool then Ret (checkQuery mock req)
      else
        parameter ←
          (if includes mockPath ":" then
             RegExp_test
               ("^" +:+ replaceChar "/" "\/" (replaceParams_from false mockPath) +:+ "$")
               reqPath
           else Ret false);
        if parameter : bool then Ret (checkQuery mock req)
        else Ret false.

(** [findMatchingMock(req)] over [this.mocks]: the first rule that
    matches, [None] for [null]. *)
Fixpoint findMatchingMock (mocks : list Mock) (req : Request)
  : Outcome (option Mock) :=
  match mocks with
  | [] => Ret None
  | mock :: mocks' =>
      matched ← matchesRequest mock req;
      if matched : bool then Ret (Some mock)
      else findMatchingMock mocks' req
  end.
End WithRegExp.

End Mocks.

(** ** Plain text and plain names *)

Definition notOpenBrace (c : ascii) : bool := negb (Ascii.eqb c "{").
Definition notDollar (c : ascii) : bool := negb (Ascii.eqb c "$").

(** A character of an include name that carries no meaning for the
    preprocessor: no opening brace, no quote and no dollar sign. *)
Definition plainNameChar (c : ascii) : bool :=
  notOpenBrace c && LiquidEngine.notQuote c && notDollar c.

Definition opens (s : string) : bool :=
  match s with String c _ => Ascii.eqb c "{" | EmptyString => false end.

(** No two opening braces in a row. *)
Fixpoint noDoubleOpen (s : string) : bool :=
  match s with
  | String c s' => negb (Ascii.eqb c "{" && opens s') && noDoubleOpen s'
  | EmptyString => true
  end.

(** The directive [{% include 'NAME' %}]. *)
Definition includeDirective (includeName : string) : string :=
  "{% include '" +:+ includeName +:+ "' %}".

(** ** What it means for a name not to resolve *)

(** No usable file under [slug] in [storage]: the directory is missing, or it
    lists no name that [wanted] accepts. *)
Definition holdsNoFile (storage : gmap string Node) (slug : string)
    (wanted : string -> bool) : Prop :=
  match storage !! slug with
  | None => True
  | Some (Directory files) => findFile wanted files = None
  | Some NotADirectory => False
  end.

(** Nothing of the wanted kind can be taken from [storage] under [slug]:
    nothing stands there, or a plain file stands there, or the directory
    there lists no name that [wanted] accepts. *)
Definition nothingListed (storage : gmap string Node) (slug : string)
    (wanted : string -> bool) : Prop :=
  match storage !! slug with
  | Some (Directory files) => findFile wanted files = None
  | Some NotADirectory | None => True
  end.

(** The include name resolves to no snippet and to no template: neither
    storage holds a file for it. *)
Definition includeUnresolved (site : Site) (includeName : string) : Prop :=
  nothingListed (snippetsPath site) (normalize includeName)
    (fun f => endsWith f ".html")
  ∧ nothingListed (templatesPath site) (normalize includeName)
      (fun f => endsWith f ".webtemplate.source.html").

(** The slug that [processInclude] lists names a plain file: the snippet
    slug, or the template slug when nothing stands under the snippet slug. *)
Definition listsPlainFile (site : Site) (includeName : string) : bool :=
  match snippetsPath site !! normalize includeName with
  | Some NotADirectory => true
  | Some (Directory _) => false
  | None =>
      match templatesPath site !! normalize includeName with
      | Some NotADirectory => true
      | _ => false
      end
  end.

(** The snippet name resolves to no snippet file.  Every file name
    [loadSnippetContent] or [getSnippet] would take ends in
    [.contentsnippet.html] or in [.contentsnippet.value.html]. *)
Definition snippetUnresolved (site : Site) (snippetName : string) : Prop :=
  holdsNoFile (snippetsPath site) (normalize snippetName)
    (fun f => endsWith f ".contentsnippet.value.html"
              || endsWith f ".contentsnippet.html").

(** The resolution order for an include token in the words of the
    specification: snippet storage first, a language-qualified file name
    before a bare one; template storage when no snippet file is found; the
    first hit wins.  [None] is NotFound. *)
Definition resolveInclude_spec (site : Site) (includeName : string)
  : option Entry :=
  let listing (storage : gmap string Node) :=
    match storage !! normalize includeName with
    | Some (Directory files) => files
    | _ => []
    end in
  snd <$>
    Handlers.orElse
      (Handlers.orElse
         (findFile (fun f => Handlers.endsWithLanguage f ".contentsnippet.value.html")
                   (listing (snippetsPath site)))
         (findFile (fun f => endsWith f ".html") (listing (snippetsPath site))))
      (findFile (fun f => endsWith f ".webtemplate.source.html")
                (listing (templatesPath site))).

(** ** Sample sites and rules *)

Module Samples.
Import LiquidEngine.

Definition plainConfig : Config := {| liquidExcludes := None |}.

(** Template A includes B and template B includes A. *)
Definition cyclicSite : Site := {|
  snippetsPath := ∅;
  templatesPath :=
    {[ "a" := Directory [("A.webtemplate.source.html", File "<a>{% include 'B' %}</a>")];
       "b" := Directory [("B.webtemplate.source.html", File "<b>{% include 'A' %}</b>")] ]};
  pagesPath := ∅
|}.

Definition emptySite : Site :=
  {| snippetsPath := ∅; templatesPath := ∅; pagesPath := ∅ |}.

(** A snippet directory listing the bare file before the language-qualified
    one. *)
Definition bilingualSite : Site := {|
  snippetsPath :=
    {[ "welcome" := Directory
         [("Welcome.contentsnippet.value.html", File "bare");
          ("Welcome.en-US.contentsnippet.value.html", File "qualified")] ]};
  templatesPath := ∅;
  pagesPath := ∅
|}.

(** A page with an English content file only. *)
Definition homeSite : Site := {|
  snippetsPath := ∅;
  templatesPath :=
    {[ "card" := Directory [("Card.webtemplate.source.html", File "<b>{{ user.fullname }</b>")];
       "lib" := Directory [("Lib.webtemplate.source.html",
                            File "/* react.development.js */ var x;")] ]};
  pagesPath :=
    {[ "home" := Directory
         [("Home.en-US.webpage.copy.html", File "<h1>Home</h1>");
          ("Home.en-US.webpage.custom_css.css", File "h1 { color: red }")] ]}
|}.

Definition homePage : Handlers.PageConfig :=
  {| Handlers.directory := "home"; Handlers.adx_title := "Home" |}.

Definition libraryConfig : Config := {| liquidExcludes := Some ["vendor.js"] |}.

(** A source that carries a library signature and an include directive. *)
Definition signedSource : string :=
  "<script src='/lib/react.development.js'></script>{% include 'Ghost Widget' %}".

(** A regular-expression engine that never matches, and an expression
    engine that rejects every template. *)
Definition neverMatches (pattern s : string) : bool := false.
Definition noMatches (pattern s : string) : nat := 0.
Definition failingEngine (text : string) (data : unit) : Outcome string :=
  Throw (EngineError "unexpected token").
Definition echoEngine (text : string) (data : unit) : Outcome string :=
  Ret text.
Definition keepRight (base overrides : unit) : unit := overrides.

(** Two rules for the same request with priorities 10 and 5. *)
Definition incidentsRequest : Mocks.MockRequest :=
  {| Mocks.method := "GET"; Mocks.endpoint := "/_api/incidents";
     Mocks.queryParams := Some [("$select", "incidentid,title"); ("$top", "5")] |}.
Definition urgentRule : Mocks.Mock :=
  {| Mocks.id := "a1"; Mocks.name := "urgent"; Mocks.enabled := true;
     Mocks.priority := 10; Mocks.request := incidentsRequest;
     Mocks.createdAt := 1000 |}.
Definition routineRule : Mocks.Mock :=
  {| Mocks.id := "b2"; Mocks.name := "routine"; Mocks.enabled := true;
     Mocks.priority := 5; Mocks.request := incidentsRequest;
     Mocks.createdAt := 2000 |}.
Definition incidentsQuery : gmap string string :=
  {[ "$select" := "incidentid, ticketnumber, statuscode"; "$top" := "5";
     "$filter" := "statecode eq 0" ]}.
Definition getIncidents : Mocks.Request :=
  {| Mocks.req_method := "get"; Mocks.req_path := "/_api/incidents";
     Mocks.req_query := incidentsQuery |}.
(** A pattern engine that accepts nothing. *)
Definition rejectAll (pattern s : string) : Outcome bool := Ret false.

(** A snippet directory without any [.html] file beside a template of the
    same name. *)
Definition shadowedSite : Site := {|
  snippetsPath :=
    {[ "footer" := Directory [("Footer.contentsnippet.yml", File "adx_name: Footer")] ]};
  templatesPath :=
    {[ "footer" := Directory [("Footer.webtemplate.source.html", File "<footer/>")] ]};
  pagesPath := ∅
|}.

(** Templates t1 .. t11, each including the next; the last one includes a
    name that resolves to nothing. *)
Definition chainSite : Site := {|
  snippetsPath := ∅;
  templatesPath :=
    {[ "t1" := Directory [("T1.webtemplate.source.html", File "{% include 'T2' %}")];
       "t2" := Directory [("T2.webtemplate.source.html", File "{% include 'T3' %}")];
       "t3" := Directory [("T3.webtemplate.source.html", File "{% include 'T4' %}")];
       "t4" := Directory [("T4.webtemplate.source.html", File "{% include 'T5' %}")];
       "t5" := Directory [("T5.webtemplate.source.html", File "{% include 'T6' %}")];
       "t6" := Directory [("T6.webtemplate.source.html", File "{% include 'T7' %}")];
       "t7" := Directory [("T7.webtemplate.source.html", File "{% include 'T8' %}")];
       "t8" := Directory [("T8.webtemplate.source.html", File "{% include 'T9' %}")];
       "t9" := Directory [("T9.webtemplate.source.html", File "{% include 'T10' %}")];
       "t10" := Directory [("T10.webtemplate.source.html", File "{% include 'T11' %}")];
       "t11" := Directory [("T11.webtemplate.source.html",
                            File "{% include 'Ghost Widget' %}")] ]};
  pagesPath := ∅
|}.
End Samples.

(** * The rest of the rule store *)

(** The writers of the rule list besides [saveMock] and [editMock]
    (MockManager) and the routes and statistics of MockMiddleware.  The rule
    list is the array [config.mocks] of the configuration file; every writer
    reads it, changes it and writes it back. *)

Module RuleStore.
Import Mocks.

Definition withEnabled (newEnabled : bool) (mock : Mock) : Mock :=
  {| id := id mock; name := name mock; enabled := newEnabled;
     priority := priority mock; request := request mock;
     createdAt := createdAt mock |}.

Definition withId (newId : string) (mock : Mock) : Mock :=
  {| id := newId; name := name mock; enabled := enabled mock;
     priority := priority mock; request := request mock;
     createdAt := createdAt mock |}.

(** [mock.enabled = !mock.enabled] *)
Definition flipEnabled (mock : Mock) : Mock :=
  withEnabled (negb (enabled mock)) mock.

(** *** MockManager.toggleMock *)

(** One step of [mockIndexes.forEach(index => { mocks[index].enabled =
    !mocks[index].enabled })]; reading [enabled] of [undefined] is a
    TypeError, here [None]. *)
Definition toggleAt (mocks : list Mock) (index : nat) : option (list Mock) :=
  mock ← mocks !! index;
  Some (<[index := flipEnabled mock]> mocks).

Fixpoint toggleEach (mocks : list Mock) (mockIndexes : list nat)
  : option (list Mock) :=
  match mockIndexes with
  | [] => Some mocks
  | index :: rest => mocks' ← toggleAt mocks index; toggleEach mocks' rest
  end.

(** [toggleMock] with the indexes chosen at the prompt: the rule list written
    back, [None] when the function throws.  With no rule or no index chosen
    it returns before writing. *)
Definition toggleMock (mocks : list Mock) (mockIndexes : list nat)
  : option (list Mock) :=
  match mocks, mockIndexes with
  | [], _ | _, [] => Some mocks
  | _, _ => toggleEach mocks mockIndexes
  end.

(** The list in which exactly the rules at the listed positions have
    [enabled] flipped. *)
Definition toggledAt (mockIndexes : list nat) (mocks : list Mock) : list Mock :=
  imap (fun k mock =>
          if bool_decide (k ∈ mockIndexes) then flipEnabled mock else mock)
       mocks.

(** *** MockManager.deleteMock *)

(** [(a, b) => b - a] *)
Definition descending (a b : nat) : Z := Z.of_nat b - Z.of_nat a.

(** [mockIndexes.forEach(index => { mocks.splice(index, 1) })]; [splice]
    removes nothing at an index past the end. *)
Definition spliceEach (mocks : list Mock) (mockIndexes : list nat) : list Mock :=
  foldl (fun acc index => delete index acc) mocks mockIndexes.

(** [deleteMock] with the indexes chosen and the answer to the confirmation
    prompt. *)
Definition deleteMock (mocks : list Mock) (mockIndexes : list nat)
    (confirmDelete : bool) : list Mock :=
  match mocks, mockIndexes with
  | [], _ | _, [] => mocks
  | _, _ =>
      if confirmDelete then spliceEach mocks (sort descending mockIndexes)
      else mocks
  end.

(** The rules of [mocks], standing at the positions from [k] on, whose
    position is not listed in [mockIndexes], in order. *)
Definition keptFrom (k : nat) (mockIndexes : list nat) (mocks : list Mock)
  : list Mock :=
  snd <$> filter (fun entry => entry.1 ∉ mockIndexes)
                 (zip (seq k (length mocks)) mocks).

Definition withoutPositions (mockIndexes : list nat) (mocks : list Mock)
  : list Mock :=
  keptFrom 0 mockIndexes mocks.

(** *** MockManager.importMocks *)

Inductive ImportMode : Type := merge | replace | cancel.

(** [importMocks]: [generateMockId k] is the identifier drawn for the k-th
    imported rule.  An empty import and [cancel] leave the list alone.  The
    fields [imported] and [importedAt], which a merge sets as well, are not
    among the fields of [Mock]. *)
Definition importMocks (generateMockId : nat -> string)
    (existingMocks importedMocks : list Mock) (importMode : ImportMode)
  : list Mock :=
  match importedMocks, importMode with
  | [], _ | _, cancel => existingMocks
  | _, replace => sort compareMocks importedMocks
  | _, merge =>
      sort compareMocks
        (existingMocks ++ imap (fun k mock => withId (generateMockId k) mock)
                               importedMocks)
  end.

(** *** The routes of MockMiddleware.apiRouter *)

(** The status an answer is sent with and the rule list left in the file.
    The file is taken to hold the array [mocks]; without it the routes
    answer 500. *)
Definition Answer : Type := nat * list Mock.

(** [config.mocks.find(m => m.id === mockId)] with its position. *)
Definition findById (mockId : string) (mocks : list Mock) : option (nat * Mock) :=
  list_find (fun mock => id mock = mockId) mocks.

(** [POST /mocks/:id/toggle] *)
Definition toggleRoute (mocks : list Mock) (mockId : string) : Answer :=
  match findById mockId mocks with
  | None => (404, mocks)
  | Some (index, mock) => (200, <[index := flipEnabled mock]> mocks)
  end.

(** [DELETE /mocks/:id] *)
Definition deleteRoute (mocks : list Mock) (mockId : string) : Answer :=
  match findById mockId mocks with
  | None => (404, mocks)
  | Some (index, _) => (200, delete index mocks)
  end.

(** *** Statistics *)

(** A rule as the file holds it, with the two fields the middleware adds:
    [hitCount] and [lastUsed], absent until the first hit. *)
Record StoredMock : Type := {
  rule : Mock;
  hitCount : option nat;
  lastUsed : option string
}.

(** [mock.hitCount || 0] *)
Definition hits (mock : StoredMock) : nat := default 0 (hitCount mock).

(** [updateMockStats(mockId)] at the time [now]. *)
Definition updateMockStats (now : string) (mockId : string)
    (mocks : list StoredMock) : list StoredMock :=
  match list_find (fun mock => id (rule mock) = mockId) mocks with
  | Some (index, mock) =>
      <[index := {| rule := rule mock; hitCount := Some (hits mock + 1);
                    lastUsed := Some now |}]> mocks
  | None => mocks
  end.

Record Stats : Type := {
  total : nat;
  enabledCount : nat;
  disabledCount : nat;
  totalHits : nat
}.

(** [getStats()], without the per-rule listing. *)
Definition getStats (mocks : list StoredMock) : Stats :=
  {| total := length mocks;
     enabledCount := length (filter (fun m => enabled (rule m) = true) mocks);
     disabledCount := length (filter (fun m => negb (enabled (rule m)) = true) mocks);
     totalHits := foldl (fun sum m => sum + hits m) 0 mocks |}.

(** [POST /mocks/clear-stats] *)
Definition clearStats (mocks : list StoredMock) : list StoredMock :=
  (fun mock => {| rule := rule mock; hitCount := Some 0; lastUsed := None |})
    <$> mocks.

(** The configuration file as [fs.readJson] meets it: it cannot be read
    (it is missing or holds no JSON), or it holds a document, whose array
    [mocks] may be missing. *)
Inductive ConfigFile : Type :=
| Unreadable
| Document (mocks : option (list StoredMock)).

Section Middleware.
Variable RegExp_test : string -> string -> Outcome bool.
(** What the file holds after [fs.writeJson] was called with a rule list:
    the document of that list when the write succeeds. *)
Variable writeJson : list StoredMock -> ConfigFile.

(** [updateMockStats(mockId)] on the file.  Reading the file, looking for
    the rule and writing the file all stand in one [try] whose [catch] is
    empty: a failure leaves the file as the failed step left it, and nothing
    is written when no rule carries the identifier. *)
Definition updateMockStatsFile (now : string) (mockId : string)
    (file : ConfigFile) : ConfigFile :=
  match file with
  | Document (Some mocks) =>
      match list_find (fun mock => id (rule mock) = mockId) mocks with
      | Some _ => writeJson (updateMockStats now mockId mocks)
      | None => file
      end
  | Document None | Unreadable => file
  end.

(** The middleware up to the answer, for one request handled on its own:
    the rule found in [this.mocks], here [cache], and the file after
    [updateMockStats]; [None] when the request goes on to the next
    middleware.  [this.mocks] is what the last [loadMocks] made of the file
    as it stood then; nothing ties it to the file as it stands now. *)
Definition middleware (now : string) (cache : list Mock) (file : ConfigFile)
    (req : Request) : Outcome (option Mock * ConfigFile) :=
  found ← findMatchingMock RegExp_test cache req;
  match found with
  | None => Ret (None, file)
  | Some mock => Ret (Some mock, updateMockStatsFile now (id mock) file)
  end.
End Middleware.

(** *** Rules with an exact path *)

(** The path [matchesRequest] compares: the stored endpoint up to its first
    question mark. *)
Definition mockPathOf (mock : Mock) : string :=
  beforeQuestionMark (endpoint (request mock)).

(** The path holds no wildcard and no parameter. *)
Definition exactPath (mock : Mock) : bool :=
  negb (includes (mockPathOf mock) "*") && negb (includes (mockPathOf mock) ":").

End RuleStore.

(** * The request as Express hands it over *)

(** [req.query] comes from the query parser of Express: the value of a key
    is a string, or an array or an object when the key is repeated or is
    written with brackets.  The matcher below is [matchesRequest] and
    [findMatchingMock] on such a request. *)
Module Parsed.
Import Mocks.

Inductive QueryValue : Type :=
| QString (s : string)
| QNested.                       (* an array or an object *)

Record Request : Type := {
  req_method : string;
  req_path : string;
  req_query : gmap string QueryValue
}.

(** The loop of [matchesQueryParams].  An array or an object is truthy and
    is no string: for [$select] the call [reqValue.split(',')] throws a
    TypeError, for any other key [mockValue !== reqValue] holds. *)
Fixpoint matchesEntries (entries : list (string * string))
    (reqQueryParams : gmap string QueryValue) : Outcome bool :=
  match entries with
  | [] => Ret true
  | (key, mockValue) :: entries' =>
      match reqQueryParams !! key with
      | None => Ret false
      | Some (QString reqValue) =>
          if negb (truthy reqValue) then Ret false
          else if bool_decide (key = "$select")
                  && hasKeyFields (fieldsOf mockValue)
                  && hasKeyFields (fieldsOf reqValue)
          then matchesEntries entries' reqQueryParams
          else if bool_decide (mockValue ≠ reqValue) then Ret false
          else matchesEntries entries' reqQueryParams
      | Some QNested =>
          if bool_decide (key = "$select")
          then Throw (TypeError "reqValue.split is not a function")
          else Ret false
      end
  end.

Definition matchesQueryParams (mockQueryParams : option (list (string * string)))
    (reqQueryParams : gmap string QueryValue) : Outcome bool :=
  match mockQueryParams with
  | None | Some [] => Ret true
  | Some entries => matchesEntries entries reqQueryParams
  end.

Section WithRegExp.
Variable RegExp_test : string -> string -> Outcome bool.

(** What follows a successful path comparison in [matchesRequest]. *)
Definition checkQuery (mock : Mock) (req : Request) : Outcome bool :=
  match queryParams (request mock) with
  | Some (_ :: _) =>
      matchesQueryParams (queryParams (request mock)) (req_query req)
  | _ => Ret true
  end.

Definition matchesRequest (mock : Mock) (req : Request) : Outcome bool :=
  if bool_decide (method (request mock) ≠ toUpperCase (req_method req))
  then Ret false
  else
    let mockPath :=
      if includes (endpoint (request mock)) "?"
      then beforeQuestionMark (endpoint (request mock))
      else endpoint (request mock) in
    let reqPath := req_path req in
    if bool_decide (mockPath = reqPath) then checkQuery mock req
    else
      wildcard ←
        (if includes mockPath "*" then
           RegExp_test
             ("^" +:+ replaceChar "/" "\/" (replaceChar "*" ".*" mockPath) +:+ "$")
             reqPath
         else Ret false);
      if wildcard : bool then checkQuery mock req
      else
        parameter ←
          (if includes mockPath ":" then
             RegExp_test
               ("^" +:+ replaceChar "/" "\/" (replaceParams_from false mockPath) +:+ "$")
               reqPath
           else Ret false);
        if parameter : bool then checkQuery mock req
        else Ret false.

Fixpoint findMatchingMock (mocks : list Mock) (req : Request)
  : Outcome (option Mock) :=
  match mocks with
  | [] => Ret None
  | mock :: mocks' =>
      matched ← matchesRequest mock req;
      if matched : bool then Ret (Some mock)
      else findMatchingMock mocks' req
  end.
End WithRegExp.

(** A request whose query values are all strings. *)
Definition ofStrings (req : Mocks.Request) : Request :=
  {| req_method := Mocks.req_method req;
     req_path := Mocks.req_path req;
     req_query := QString <$> Mocks.req_query req |}.

End Parsed.

(** * More of the template pipeline *)

(** The reference [{{ Snippets.NAME }}]. *)
Definition snippetReference (snippetName : string) : string :=
  "{{ Snippets." +:+ snippetName +:+ " }}".

(** A character of a snippet name that carries no meaning for the
    preprocessor: no brace and no dollar sign. *)
Definition plainSnippetChar (c : ascii) : bool :=
  notOpenBrace c && LiquidEngine.notBrace c && notDollar c.

(** * PageHandler: from the request to the answer *)

Module Pages.

(** A value read from a parsed YAML document, as far as the page lookup
    tells values apart: a string, no value at all, or any other value with
    its truthiness. *)
Inductive Value : Type :=
| VString (s : string)
| VAbsent
| VOther (isTruthy : bool).

Definition truthyValue (v : Value) : bool :=
  match v with
  | VString s => truthy s
  | VAbsent => false
  | VOther isTruthy => isTruthy
  end.

(** [v || ''] *)
Definition orEmpty (v : Value) : Value :=
  if truthyValue v then v else VString "".

(** [v === s] for a string [s] *)
Definition isString (v : Value) (s : string) : bool :=
  match v with
  | VString t => bool_decide (t = s)
  | _ => false
  end.

(** The fields of a [.webpage.yml] document that the handler reads;
    [adx_title] is the empty string when the document has none. *)
Record WebPage : Type := {
  adx_partialurl : Value;
  adx_isroot : Value;
  adx_title : string
}.

(** [{...config, directory: dir, configPath}]; the path of the document is
    not read again. *)
Record PageMatch : Type := {
  page_config : WebPage;
  page_directory : string
}.

(** [s.replace(/\/$/, '')] *)
Fixpoint dropTrailingSlash (s : string) : string :=
  match s with
  | EmptyString => EmptyString
  | String c EmptyString => if Ascii.eqb c "/" then EmptyString else s
  | String c s' => String c (dropTrailingSlash s')
  end.

(** [urlPath.replace(/\/$/, '') || '/'] *)
Definition normalizeUrlPath (urlPath : string) : string :=
  if truthy (dropTrailingSlash urlPath) then dropTrailingSlash urlPath
  else "/".

(** [n.startsWith('/') ? n.substring(1) : n] *)
Definition urlPathForComparison (normalizedUrlPath : string) : string :=
  match stripPrefix "/" normalizedUrlPath with
  | Some rest => rest
  | None => normalizedUrlPath
  end.

(** The two tests that set [isMatch]. *)
Definition isMatch (config : WebPage) (urlPath : string) : bool :=
  let normalizedUrlPath := normalizeUrlPath urlPath in
  let normalizedPartialUrl := orEmpty (adx_partialurl config) in
  isString normalizedPartialUrl (urlPathForComparison normalizedUrlPath)
  && bool_decide (normalizedUrlPath ≠ "/")
  || bool_decide (normalizedUrlPath = "/")
     && (isString normalizedPartialUrl "/" || isString normalizedPartialUrl "")
     && truthyValue (adx_isroot config).

Section Lookup.
(** [yaml.parse] followed by the reads of the fields: it throws when the
    text is not YAML and when the document is null. *)
Variable parseWebPage : string -> Outcome WebPage.

(** What one directory of the listing adds to [matchedConfigs]. *)
Definition matchedIn (dir : string) (node : Node) (urlPath : string)
  : Outcome (list PageMatch) :=
  match node with
  | NotADirectory => Ret []
  | Directory configFiles =>
      match findFile (fun f => endsWith f ".webpage.yml") configFiles with
      | None => Ret []
      | Some (_, ymlFile) =>
          configContent ← readFile ymlFile;
          config ← parseWebPage configContent;
          Ret (if isMatch config urlPath
               then [ {| page_config := config; page_directory := dir |} ]
               else [])
      end
  end.

(** The loop over the directories of the pages folder, in listing order. *)
Fixpoint matchingConfigs (directories : list (string * Node))
    (urlPath : string) : Outcome (list PageMatch) :=
  match directories with
  | [] => Ret []
  | (dir, node) :: directories' =>
      here ← matchedIn dir node urlPath;
      others ← matchingConfigs directories' urlPath;
      Ret (here ++ others)
  end.

(** The choice among the matches. *)
Definition choosePage (matchedConfigs : list PageMatch) (urlPath : string)
  : option PageMatch :=
  if 1 <? length matchedConfigs then
    match
      if bool_decide (urlPath = "/")
      then List.find (fun m => bool_decide (page_directory m = "home"))
                     matchedConfigs
      else None
    with
    | Some homeConfig => Some homeConfig
    | None =>
        match
          List.find (fun m => isString (adx_partialurl (page_config m))
                                       (normalizeUrlPath urlPath))
                    matchedConfigs
        with
        | Some exactMatch => Some exactMatch
        | None => head matchedConfigs
        end
    end
  else head matchedConfigs.

(** [findPageConfig(urlPath)]; [pagesDir] is the result of reading the pages
    folder: each name with what it designates, a directory with its listing.
    Every exception becomes [null]. *)
Definition findPageConfig (pagesDir : Outcome (list (string * Node)))
    (urlPath : string) : option PageMatch :=
  match
    directories ← pagesDir;
    matchingConfigs directories urlPath
  with
  | Ret matchedConfigs => choosePage matchedConfigs urlPath
  | Throw _ => None
  end.
End Lookup.

(** *** handleRequest *)

Record PageRequest : Type := {
  path : string;
  query_lang : option string;        (* [req.query.lang] *)
  accept_language : option string    (* [req.headers['accept-language']] *)
}.

Definition detectLanguage (defaultLanguage : string) (req : PageRequest)
  : string :=
  match query_lang req with
  | Some (String c lang) => String c lang
  | _ =>
      match accept_language req with
      | Some acceptLanguage =>
          if truthy acceptLanguage && includes acceptLanguage "he"
          then "he-IL" else defaultLanguage
      | None => defaultLanguage
      end
  end.

Record Response : Type := {
  status : nat;
  body : string
}.

(** The page configuration as [getPageContent] and [processPage] read it. *)
Definition toPageConfig (m : PageMatch) : Handlers.PageConfig :=
  {| Handlers.directory := page_directory m;
     Handlers.adx_title := adx_title (page_config m) |}.

Section Requests.
Variable regexTest : string -> string -> bool.
Variable regexCount : string -> string -> nat.
Variable Data : Type.
Variable mockData : Data.
Variable spread : Data -> Data -> Data.
Variable parseAndRender : string -> Data -> Outcome string.
Variable emptyData : Data.
Variable Yaml : Type.
Variable yamlParse : string -> Outcome Yaml.
Variable emptyYaml : Yaml.
Variable config : Config.
Variable site : Site.
Variable pageDocument :
  forall (language title processedCss trackingCode processedHtmlContent
          processedJs : string), string.
Variable getErrorPage : Exn -> string.
Variable liquidContext : Handlers.PageConfig -> Data.
Variable parseWebPage : string -> Outcome WebPage.
Variable pagesDir : Outcome (list (string * Node)).
Variable defaultLanguage : string.
(** The built-in page of [handleNotFound], a fixed text. *)
Variable notFoundDocument : string.

Let processPage :=
  Handlers.processPage regexTest regexCount Data mockData spread
    parseAndRender emptyData Yaml yamlParse emptyYaml config site
    pageDocument getErrorPage liquidContext.

Definition Cache : Type := gmap string (Handlers.Snippet Yaml).

(** [handleNotFound(req, res)] *)
Definition handleNotFound (snippetsCache : Cache) : Response * Cache :=
  let fallback := {| status := 404; body := notFoundDocument |} in
  match findPageConfig parseWebPage pagesDir "/page-not-found" with
  | None => (fallback, snippetsCache)
  | Some notFoundPage =>
      match Handlers.getPageContent site (toPageConfig notFoundPage) "en-US" with
      | Throw _ => ({| status := 404; body := "Page Not Found" |}, snippetsCache)
      | Ret None => (fallback, snippetsCache)
      | Ret (Some content) =>
          let '(html, snippetsCache') :=
            processPage snippetsCache content (toPageConfig notFoundPage) "en-US" in
          match html with
          | Ret html => ({| status := 404; body := html |}, snippetsCache')
          | Throw _ =>
              ({| status := 404; body := "Page Not Found" |}, snippetsCache')
          end
      end
  end.

(** [handleRequest(req, res)]: the answer sent and the snippet cache
    afterwards. *)
Definition handleRequest (snippetsCache : Cache) (req : PageRequest)
  : Response * Cache :=
  let serverError := {| status := 500; body := "Internal Server Error" |} in
  let urlPath := path req in
  let language := detectLanguage defaultLanguage req in
  match findPageConfig parseWebPage pagesDir urlPath with
  | None => handleNotFound snippetsCache
  | Some pageConfig =>
      match Handlers.getPageContent site (toPageConfig pageConfig) language with
      | Throw _ => (serverError, snippetsCache)
      | Ret None => handleNotFound snippetsCache
      | Ret (Some pageContent) =>
          let '(finalHtml, snippetsCache') :=
            processPage snippetsCache pageContent (toPageConfig pageConfig)
              language in
          match finalHtml with
          | Ret finalHtml =>
              ({| status := 200; body := finalHtml |}, snippetsCache')
          | Throw _ => (serverError, snippetsCache')
          end
      end
  end.
End Requests.

End Pages.

(** * The reference processors of the handlers *)

Module Processors.
Import LiquidEngine.

Definition notPercent (c : ascii) : bool := negb (Ascii.eqb c "%").

(** [/{%\s*editable\s+snippets\s+[Q]([^Q]+)[Q]\s*[^%]*%}/] tried at the
    start of [s], [Q] being the class of the two quote characters.  After
    the closing quote the run [[^%]*] takes every character up to the first
    percent sign, white space included, and the closing [%}] must follow;
    giving characters back cannot produce a match. *)
Definition editableTagAt (s : string) : option (string * string) :=
  r1 ← stripPrefix "{%" s;
  r2 ← stripPrefix "editable" (dropSpaces r1);
  match r2 with
  | String c _ =>
      if isSpace c then
        r3 ← stripPrefix "snippets" (dropSpaces r2);
        match r3 with
        | String c' _ =>
            if isSpace c' then
              match dropSpaces r3 with
              | String q r4 =>
                  if isQuote q then
                    let '(name, r5) := span notQuote r4 in
                    match r5 with
                    | String q' r6 =>
                        if isQuote q' && truthy name then
                          let '(_, r7) := span notPercent r6 in
                          r8 ← stripPrefix "%}" r7;
                          Some (consumed s r8, name)
                        else None
                    | EmptyString => None
                    end
                  else None
              | EmptyString => None
              end
            else None
        | EmptyString => None
        end
      else None
  | EmptyString => None
  end.

(** [/\{\{\s*snippets\[[Q]([^Q]+)[Q]\]\s*\}\}/] tried at the start of [s]. *)
Definition snippetsRefAt (s : string) : option (string * string) :=
  r1 ← stripPrefix "{{" s;
  r2 ← stripPrefix "snippets[" (dropSpaces r1);
  match r2 with
  | String q r3 =>
      if isQuote q then
        let '(name, r4) := span notQuote r3 in
        match r4 with
        | String q' r5 =>
            if isQuote q' && truthy name then
              r6 ← stripPrefix "]" r5;
              r7 ← stripPrefix "}}" (dropSpaces r6);
              Some (consumed s r7, name)
            else None
        | EmptyString => None
        end
      else None
  | EmptyString => None
  end.

Section WithEngine.
Variable regexTest : string -> string -> bool.
Variable regexCount : string -> string -> nat.
Variable Data : Type.
Variable mockData : Data.
Variable spread : Data -> Data -> Data.
Variable parseAndRender : string -> Data -> Outcome string.
Variable Yaml : Type.
Variable yamlParse : string -> Outcome Yaml.
Variable emptyYaml : Yaml.
Variable config : Config.
Variable site : Site.

(** The loop [while ((match = re.exec(content)) !== null)] of the
    processors: every match of [content], in order, is replaced in
    [processedContent] by what [renderOne] returns for its name.  [Cache] is
    the cache [renderOne] works on; a throw ends the loop. *)
Fixpoint replaceEach {Cache : Type}
    (renderOne : Cache -> string -> Data -> Outcome string * Cache)
    (cache : Cache) (processedContent : string)
    (matches : list (string * string)) (data : Data)
  : Outcome string * Cache :=
  match matches with
  | [] => (Ret processedContent, cache)
  | (token, name) :: matches' =>
      let '(rendered, cache') := renderOne cache name data in
      match rendered with
      | Ret text =>
          replaceEach renderOne cache' (replace processedContent token text)
            matches' data
      | Throw error => (Throw error, cache')
      end
  end.

(** [TemplateHandler.processTemplateIncludes(content, data)]: the text
    returned and the template cache afterwards; the [catch] returns
    [content]. *)
Definition processTemplateIncludes
    (templatesCache : gmap string (Handlers.Template Yaml))
    (content : string) (data : Data)
  : string * gmap string (Handlers.Template Yaml) :=
  let '(result, templatesCache') :=
    replaceEach
      (Handlers.renderTemplate regexTest regexCount Data mockData spread
         parseAndRender Yaml yamlParse emptyYaml config site)
      templatesCache content (matchAll includeTagAt content) data in
  (match result with Ret processedContent => processedContent | Throw _ => content end,
   templatesCache').

(** [SnippetHandler.processSnippetReferences(content, data)]: both loops run
    over the matches of [content] and replace in [processedContent]. *)
Definition processSnippetReferences
    (snippetsCache : gmap string (Handlers.Snippet Yaml))
    (content : string) (data : Data)
  : string * gmap string (Handlers.Snippet Yaml) :=
  let renderSnippet :=
    Handlers.renderSnippet regexTest regexCount Data mockData spread
      parseAndRender Yaml yamlParse emptyYaml config site in
  let '(editable, snippetsCache') :=
    replaceEach renderSnippet snippetsCache content
      (matchAll editableTagAt content) data in
  match editable with
  | Throw _ => (content, snippetsCache')
  | Ret processedContent =>
      let '(result, snippetsCache'') :=
        replaceEach renderSnippet snippetsCache' processedContent
          (matchAll snippetsRefAt content) data in
      (match result with Ret processedContent' => processedContent' | Throw _ => content end,
       snippetsCache'')
  end.
End WithEngine.

(** The tag [{% editable snippets 'NAME' %}] and the reference
    [{{ snippets['NAME'] }}]. *)
Definition editableTag (snippetName : string) : string :=
  "{% editable snippets '" +:+ snippetName +:+ "' %}".
Definition snippetsReference (snippetName : string) : string :=
  "{{ snippets['" +:+ snippetName +:+ "'] }}".

End Processors.

(** * The custom filters of the engine *)

Module Filters.

(** The replacement table of the [escape] filter. *)
Definition escapeChar (c : ascii) : string :=
  if Ascii.eqb c "&" then "&amp;"
  else if Ascii.eqb c "<" then "&lt;"
  else if Ascii.eqb c ">" then "&gt;"
  else if Ascii.eqb c "034" then "&quot;"
  else if Ascii.eqb c "'" then "&#39;"
  else String c EmptyString.

(** The [escape] filter (and [h], which calls it) on a string: every
    character of the class is replaced through the table; the replacement
    is computed by a function, so a dollar sign has no special meaning.  The
    empty string is falsy and gives the empty string. *)
Fixpoint escape (input : string) : string :=
  match input with
  | EmptyString => EmptyString
  | String c input' => escapeChar c +:+ escape input'
  end.

(** A character of the class [[&<>Q']], [Q] being the double quote. *)
Definition special (c : ascii) : bool :=
  Ascii.eqb c "&" || Ascii.eqb c "<" || Ascii.eqb c ">"
  || Ascii.eqb c "034" || Ascii.eqb c "'".

(** A character that may open or close markup or an attribute value. *)
Definition markup (c : ascii) : bool :=
  Ascii.eqb c "<" || Ascii.eqb c ">" || Ascii.eqb c "034" || Ascii.eqb c "'".

End Filters.

(** * FileHandler: the YAML mappings of the web files *)

Module WebFiles.
Import Pages.

(** The fields of a [.webfile.yml] document that the handler reads. *)
Record WebFile : Type := {
  wf_partialurl : Value;
  wf_name : Value
}.

Section Mapping.
(** [yaml.parse] followed by the reads of the fields. *)
Variable parseWebFile : string -> Outcome WebFile.
(** [fs.pathExists(path.join(webFilesDir, name))] *)
Variable targetExists : string -> bool.

(** The body of the inner [try] for one mapping document: the file it maps
    the request to, when it does and that file exists.  [path.join] throws
    on a name that is no string; every exception is caught and the loop goes
    on. *)
Definition mappedTarget (yamlFile : Entry) (requestedFileName : string)
  : option string :=
  match
    yamlContent ← readFile yamlFile;
    parseWebFile yamlContent
  with
  | Ret config =>
      if isString (wf_partialurl config) requestedFileName then
        match wf_name config with
        | VString actualFileName =>
            if targetExists actualFileName then Some actualFileName else None
        | _ => None
        end
      else None
  | Throw _ => None
  end.

(** The loop over the mapping documents. *)
Fixpoint firstMapping (yamlFiles : list (string * Entry))
    (requestedFileName : string) : option string :=
  match yamlFiles with
  | [] => None
  | (_, yamlFile) :: yamlFiles' =>
      match mappedTarget yamlFile requestedFileName with
      | Some actualFileName => Some actualFileName
      | None => firstMapping yamlFiles' requestedFileName
      end
  end.

(** [findFileByYamlMapping(requestedFileName)]; [webFilesDir] is the result
    of reading the web-files folder, and the file returned is given by its
    name in that folder. *)
Definition findFileByYamlMapping (webFilesDir : Outcome (list (string * Entry)))
    (requestedFileName : string) : option string :=
  match webFilesDir with
  | Ret files =>
      firstMapping (filter (fun file => endsWith file.1 ".webfile.yml" = true)
                           files)
                   requestedFileName
  | Throw _ => None
  end.
End Mapping.

End WebFiles.

Definition notSpace (c : ascii) : bool := negb (isSpace c).

Definition notLineTerminator (c : ascii) : bool :=
  negb (LiquidEngine.isLineTerminator c).

(** ** More sample rules *)

Module MoreSamples.
Import Mocks RuleStore Pages.

(** The request of [Samples.getIncidents] without its [$filter]. *)
Definition getIncidentsUnfiltered : Request :=
  {| req_method := "get"; req_path := "/_api/incidents";
     req_query := {[ "$select" := "incidentid, ticketnumber, statuscode";
                     "$top" := "5" ]} |}.

Definition getIncidentsFiltered : Request :=
  {| req_method := "get"; req_path := "/_api/incidents";
     req_query := <["$filter" := "statecode eq 0"]> (req_query getIncidentsUnfiltered) |}.

(** The request of [getIncidentsUnfiltered] with its query as Express
    parses it, the same with a [$filter] added, and the request
    [?$select=incidentid&$select=title&$top=5], whose repeated key is an
    array. *)
Definition parsedUnfiltered : Parsed.Request :=
  Parsed.ofStrings getIncidentsUnfiltered.

Definition parsedFiltered : Parsed.Request :=
  {| Parsed.req_method := "get"; Parsed.req_path := "/_api/incidents";
     Parsed.req_query :=
       <["$filter" := Parsed.QString "statecode eq 0"]>
         (Parsed.req_query parsedUnfiltered) |}.

Definition repeatedSelect : Parsed.Request :=
  {| Parsed.req_method := "get"; Parsed.req_path := "/_api/incidents";
     Parsed.req_query :=
       {[ "$select" := Parsed.QNested; "$top" := Parsed.QString "5" ]} |}.

(** A rule that asks for nothing of the query. *)
Definition anyQueryRule : Mock :=
  {| id := "e5"; name := "any"; enabled := true; priority := 1;
     request := {| method := "GET"; endpoint := "/_api/incidents";
                   queryParams := None |};
     createdAt := 6000 |}.

(** A rule saved with its method in lower case. *)
Definition lowerCaseRule : Mock :=
  {| id := "c3"; name := "lower"; enabled := true; priority := 7;
     request := {| method := "get"; endpoint := "/_api/incidents";
                   queryParams := None |};
     createdAt := 3000 |}.

(** A rule whose endpoint carries a query string, as a pasted curl command
    leaves it, and the same rule with the bare path. *)
Definition pastedRule : Mock :=
  {| id := "d4"; name := "pasted"; enabled := true; priority := 5;
     request := {| method := "GET";
                   endpoint := "/_api/incidents?$top=5";
                   queryParams := Some [("$top", "5")] |};
     createdAt := 4000 |}.
Definition bareRule : Mock :=
  {| id := "d4"; name := "bare"; enabled := false; priority := 1;
     request := {| method := "GET"; endpoint := "/_api/incidents";
                   queryParams := Some [("$top", "5")] |};
     createdAt := 5000 |}.

(** A pattern engine that rejects every pattern as malformed. *)
Definition brokenEngine (pattern s : string) : Outcome bool :=
  Throw (EngineError "Invalid regular expression").

Definition disabledRule : Mock := withEnabled false Samples.urgentRule.

Definition storedRules : list StoredMock :=
  [ {| rule := disabledRule; hitCount := Some 4; lastUsed := Some "2024-01-01T00:00:00.000Z" |};
    {| rule := Samples.routineRule; hitCount := None; lastUsed := None |} ].

(** A site with a snippet, a template of plain text, a template listed in
    [liquidExcludes] that holds a directive, a template whose name holds a
    space, and a snippet slug that names a file instead of a directory. *)
Definition noticeSite : Site := {|
  snippetsPath :=
    {[ "footer" := Directory
         [("Footer.en-US.contentsnippet.value.html", File "All rights reserved")];
       "broken" := NotADirectory ]};
  templatesPath :=
    {[ "notice" := Directory
         [("Notice.webtemplate.source.html", File "Closed on Friday")];
       "vendor.js" := Directory
         [("Vendor.webtemplate.source.html",
           File "var t = [{% include 'Notice' %}];")];
       "site-header" := Directory
         [("Site Header.webtemplate.source.html", File "<header/>")] ]};
  pagesPath := ∅
|}.

(** A stand-in for the YAML parser on the documents of the sample pages. *)
Definition parsePage (text : string) : Outcome Pages.WebPage :=
  if bool_decide (text = "home") then
    Ret {| Pages.adx_partialurl := VString "/"; Pages.adx_isroot := VOther true;
           Pages.adx_title := "Home" |}
  else if bool_decide (text = "landing") then
    Ret {| Pages.adx_partialurl := VAbsent; Pages.adx_isroot := VOther true;
           Pages.adx_title := "Landing" |}
  else if bool_decide (text = "about") then
    Ret {| Pages.adx_partialurl := VString "about"; Pages.adx_isroot := VAbsent;
           Pages.adx_title := "About" |}
  else Throw (EngineError "YAMLParseError").

(** The pages folder: two root pages, one of them in [home], a page under
    [about] and a plain file. *)
Definition pagesListing : list (string * Node) :=
  [ ("about", Directory [("About.webpage.yml", File "about")]);
    ("landing", Directory [("Landing.webpage.yml", File "landing")]);
    ("home", Directory [("Home.webpage.yml", File "home")]);
    ("readme.txt", NotADirectory) ].

(** The same folder with one more page whose document does not parse. *)
Definition brokenListing : list (string * Node) :=
  pagesListing ++ [ ("draft", Directory [("Draft.webpage.yml", File "a: b: c")]) ].

(** A stand-in for the YAML parser on the mapping documents of the sample
    web files, and the web-files folder: a style sheet, its mapping document
    and a mapping document that does not parse. *)
Definition parseMapping (text : string) : Outcome WebFiles.WebFile :=
  if bool_decide (text = "theme") then
    Ret {| WebFiles.wf_partialurl := VString "theme.css";
           WebFiles.wf_name := VString "Theme.css" |}
  else Throw (EngineError "YAMLParseError").

Definition webFilesListing : list (string * Entry) :=
  [ ("Broken.webfile.yml", File "a: b: c");
    ("Theme.css", File "body { margin: 0 }");
    ("Theme.css.webfile.yml", File "theme") ].

Definition listed (name : string) : bool :=
  bool_decide (name ∈ webFilesListing.*1).

Definition aboutRequest : Pages.PageRequest :=
  {| Pages.path := "/about/"; Pages.query_lang := None;
     Pages.accept_language := Some "en-US,en;q=0.9" |}.

(** A layout that includes a banner, which includes the notice of
    [noticeSite]. *)
Definition nestedSite : Site := {|
  snippetsPath := ∅;
  templatesPath :=
    {[ "layout" := Directory
         [("Layout.webtemplate.source.html",
           File "<body>{% include 'Banner' %}</body>")];
       "banner" := Directory
         [("Banner.webtemplate.source.html",
           File "<b>{% include 'Notice' %}</b>")];
       "notice" := Directory
         [("Notice.webtemplate.source.html", File "Closed on Friday")] ]};
  pagesPath := ∅
|}.

(** The snippet [getSnippet] builds for [Footer] on [noticeSite]. *)
Definition footerSnippet : Handlers.Snippet unit := {|
  Handlers.snippet_name := "Footer";
  Handlers.snippet_content := "All rights reserved";
  Handlers.snippet_config := tt;
  Handlers.snippet_path := "footer/Footer.en-US.contentsnippet.value.html"
|}.

End MoreSamples.

(** * Replacement in place *)

(** The preprocessor and the reference processors replace a token by
    [processedContent.replace(token, text)]: the first occurrence of the
    token's text in the text produced so far, with the replacement patterns
    of [text] interpreted.  The definitions below say what it means for the
    tokens of a text to be replaced where they stand. *)

(** [r] begins with a character that makes a pattern of a dollar sign
    before it. *)
Definition startsPattern (r : string) : bool :=
  match r with
  | String d _ =>
      Ascii.eqb d "$" || Ascii.eqb d "&" || Ascii.eqb d "`" || Ascii.eqb d "'"
  | EmptyString => false
  end.

(** A replacement text that [replace] inserts as it is: it holds none of
    the patterns [$$], [$&], [$`] and [$']. *)
Fixpoint patternFree (repl : string) : bool :=
  match repl with
  | EmptyString => true
  | String c r => negb (Ascii.eqb c "$" && startsPattern r) && patternFree r
  end.

(** [s] without its first [n] characters. *)
Fixpoint dropChars (n : nat) (s : string) : string :=
  match n, s with
  | S k, String _ s' => dropChars k s'
  | _, _ => s
  end.

(** The text [s] with every token replaced where it stands by the text
    [inserted name] given for its name.  The tokens are those that
    [matchAll] finds: the scan goes from left to right and resumes after
    each token; [skip] counts the characters of the last token still to
    pass. *)
Fixpoint expandedInPlace_from (tokenAt : string -> option (string * string))
    (inserted : string -> string) (skip : nat) (s : string) : string :=
  match s with
  | EmptyString => EmptyString
  | String c s' =>
      match skip with
      | S k => expandedInPlace_from tokenAt inserted k s'
      | O =>
          match tokenAt s with
          | Some (token, name) =>
              inserted name
              +:+ expandedInPlace_from tokenAt inserted (String.length token - 1) s'
          | None => String c (expandedInPlace_from tokenAt inserted 0 s')
          end
      end
  end.

Definition expandedInPlace (tokenAt : string -> option (string * string))
    (inserted : string -> string) (s : string) : string :=
  expandedInPlace_from tokenAt inserted 0 s.

(** The tokens of [s] stand apart: when the scan reaches a token, the text
    of the token does not occur earlier in the text produced so far ([done])
    followed by the rest of [s], so that [replace] finds it where it stands;
    and the text inserted for it holds no replacement pattern. *)
Fixpoint tokensApart_from (tokenAt : string -> option (string * string))
    (inserted : string -> string) (done : string) (skip : nat) (s : string)
  : bool :=
  match s with
  | EmptyString => true
  | String c s' =>
      match skip with
      | S k => tokensApart_from tokenAt inserted done k s'
      | O =>
          match tokenAt s with
          | Some (token, name) =>
              bool_decide (fst <$> splitFirst token (done +:+ s) = Some done)
              && patternFree (inserted name)
              && tokensApart_from tokenAt inserted (done +:+ inserted name)
                   (String.length token - 1) s'
          | None =>
              tokensApart_from tokenAt inserted
                (done +:+ String c EmptyString) 0 s'
          end
      end
  end.

Definition tokensApart (tokenAt : string -> option (string * string))
    (inserted : string -> string) (s : string) : bool :=
  tokensApart_from tokenAt inserted EmptyString 0 s.

(** No token starts at a position of [before] when [rest] follows it. *)
Fixpoint startsNoToken (tokenAt : string -> option (string * string))
    (before rest : string) : bool :=
  match before with
  | EmptyString => true
  | String _ before' =>
      match tokenAt (before +:+ rest) with
      | Some _ => false
      | None => startsNoToken tokenAt before' rest
      end
  end.

(** What [processInclude] and [loadSnippetContent] return, with a budget of
    nested calls that never runs out. *)
Definition includeText (config : Config) (site : Site) (includeName : string)
    (depth : nat) : string :=
  default EmptyString
    (LiquidEngine.processInclude (LiquidEngine.enoughFuel depth) config site
       includeName depth).

Definition snippetText (config : Config) (site : Site) (snippetName : string)
    (depth : nat) : string :=
  default EmptyString
    (LiquidEngine.loadSnippetContent (LiquidEngine.enoughFuel depth) config
       site snippetName depth).

(** The two loops of [preprocessIncludes] at [depth], each replacing in
    place: the snippet references by what [loadSnippetContent] returns for
    the trimmed name, the include directives by what [processInclude]
    returns. *)
Definition snippetsInPlace (config : Config) (site : Site) (depth : nat)
    (templateContent : string) : string :=
  expandedInPlace LiquidEngine.snippetRefAt
    (fun snippetName => snippetText config site (trim snippetName) (depth + 1))
    templateContent.

Definition includesInPlace (config : Config) (site : Site) (depth : nat)
    (processedContent : string) : string :=
  expandedInPlace LiquidEngine.includeTagAt
    (fun includeName => includeText config site includeName (depth + 1))
    processedContent.

Definition snippetsApart (config : Config) (site : Site) (depth : nat)
    (templateContent : string) : bool :=
  tokensApart LiquidEngine.snippetRefAt
    (fun snippetName => snippetText config site (trim snippetName) (depth + 1))
    templateContent.

Definition includesApart (config : Config) (site : Site) (depth : nat)
    (processedContent : string) : bool :=
  tokensApart LiquidEngine.includeTagAt
    (fun includeName => includeText config site includeName (depth + 1))
    processedContent.

(** The text the first loop of [preprocessIncludes] leaves at [depth]: the
    snippet references replaced, by [replace], with what
    [loadSnippetContent] returns for them. *)
Definition afterSnippets (config : Config) (site : Site) (depth : nat)
    (templateContent : string) : string :=
  default templateContent
    (LiquidEngine.substituteAll
       (fun snippetName =>
          LiquidEngine.loadSnippetContent (LiquidEngine.enoughFuel (depth + 1))
            config site (trim snippetName) (depth + 1))
       templateContent
       (LiquidEngine.matchAll LiquidEngine.snippetRefAt templateContent)).

(** The snippet name resolves to no snippet file, or its slug names a plain
    file. *)
Definition snippetMissing (site : Site) (snippetName : string) : Prop :=
  nothingListed (snippetsPath site) (normalize snippetName)
    (fun f => endsWith f ".contentsnippet.value.html"
              || endsWith f ".contentsnippet.html").

(** The snippet slug names a plain file. *)
Definition snippetSlugIsFile (site : Site) (snippetName : string) : bool :=
  match snippetsPath site !! normalize snippetName with
  | Some NotADirectory => true
  | _ => false
  end.

Definition notLessThan (c : ascii) : bool := negb (Ascii.eqb c "<").

(** ** The snippet handler and its cache *)

Section RenderedSnippets.
Variable regexTest : string -> string -> bool.
Variable regexCount : string -> string -> nat.
Variable Data : Type.
Variable mockData : Data.
Variable spread : Data -> Data -> Data.
Variable parseAndRender : string -> Data -> Outcome string.
Variable Yaml : Type.
Variable yamlParse : string -> Outcome Yaml.
Variable emptyYaml : Yaml.
Variable config : Config.
Variable site : Site.

(** The text [renderSnippet] returns for a name when it starts from the
    cache [snippetsCache]. *)
Definition renderedSnippet (snippetsCache : gmap string (Handlers.Snippet Yaml))
    (data : Data) (snippetName : string) : string :=
  match
    (Handlers.renderSnippet regexTest regexCount Data mockData spread
       parseAndRender Yaml yamlParse emptyYaml config site snippetsCache
       snippetName data).1
  with
  | Ret text => text
  | Throw _ => EmptyString
  end.

(** The cache [later] holds what [earlier] holds and, under the other
    names, only snippets as storage gives them: what a cache becomes while
    snippets are looked up. *)
Definition cacheGrown (earlier later : gmap string (Handlers.Snippet Yaml))
  : Prop :=
  ∀ snippetName,
    later !! snippetName = earlier !! snippetName
    ∨ (earlier !! snippetName = None
       ∧ ∃ snippet,
           Handlers.loadSnippet Yaml yamlParse emptyYaml site snippetName
           = Ret (Some snippet)
           ∧ later !! snippetName = Some snippet).
End RenderedSnippets.

(** * Page content: the optional files *)

(** How the first listed name with the given suffix reads: the empty text
    when no name has the suffix, its text when it is a file, and [None] when
    it cannot be read. *)
Definition firstText (suffix : string) (files : list (string * Entry))
  : option string :=
  match findFile (fun f => endsWith f suffix) files with
  | None => Some EmptyString
  | Some (_, File text) => Some text
  | Some (_, Folder) => None
  end.

(** ** Sample texts and sites for the markers *)

Module MarkerSamples.
Import LiquidEngine.

(** A page with a style sheet, Liquid tags of its own and two directives
    for names that resolve to nothing, the second one in double quotes. *)
Definition ghostPage : string :=
  "<style>h1 { color: red }</style>{% if user %}{% include 'Ghost Widget' %}"
  +:+ "{% endif %}<p>{{ page.title }}{% include " +:+ dq +:+ "Missing"
  +:+ dq +:+ " %}</p>".

Definition ghostPageExpanded : string :=
  "<style>h1 { color: red }</style>{% if user %}"
  +:+ "<!-- Include not found: Ghost Widget -->"
  +:+ "{% endif %}<p>{{ page.title }}<!-- Include not found: Missing --></p>".

(** A page with Liquid of its own and two references to snippets that
    resolve to nothing. *)
Definition orphanPage : string :=
  "<nav>{{ user.name }}{{ Snippets.Top Menu }}</nav>{% if x %}{{Snippets.Legal}}{% endif %}".

Definition orphanPageExpanded : string :=
  "<nav>{{ user.name }}<!-- Snippet not found: Top Menu --></nav>"
  +:+ "{% if x %}<!-- Snippet not found: Legal -->{% endif %}".

(** The same with the references of the snippet handler. *)
Definition orphanHandlerPage : string :=
  "<nav>{{ user.name }}{{ snippets['Top Menu'] }}</nav>"
  +:+ "{% editable snippets 'Legal' type: 'html' %}".

Definition orphanHandlerPageExpanded : string :=
  "<nav>{{ user.name }}<!-- Snippet not found: Top Menu --></nav>"
  +:+ "<!-- Snippet not found: Legal -->".

(** A template on the exclusion list whose text holds a directive: it is
    included as it is. *)
Definition copyConfig : Config := {| liquidExcludes := Some ["Widgets"] |}.

Definition copySite : Site := {|
  snippetsPath := ∅;
  templatesPath :=
    {[ "widgets" := Directory
         [("Widgets.webtemplate.source.html",
           File "render({% include 'Ghost Widget' %});")] ]};
  pagesPath := ∅
|}.

Definition copyPage : string :=
  "{% include 'Widgets' %}<hr>{% include 'Ghost Widget' %}".

(** A snippet slug and a template slug that name plain files. *)
Definition plainFileSite : Site := {|
  snippetsPath := {[ "ghost-widget" := NotADirectory ]};
  templatesPath := {[ "ghost-banner" := NotADirectory ]};
  pagesPath := ∅
|}.

(** A snippet whose text, once its own reference is replaced, holds the
    text of a reference to a snippet that does not exist; and one that holds
    the text of a reference of the snippet handler. *)
Definition nestedSite : Site := {|
  snippetsPath :=
    {[ "a" := Directory [("A.contentsnippet.value.html",
                          File "[{{ Snippets.E }} Snippets.Ghost }}]")];
       "e" := Directory [("E.contentsnippet.value.html", File "{{")];
       "quote" := Directory [("Quote.contentsnippet.value.html",
                              File "[{{ snippets['Ghost'] }}]")] ]};
  templatesPath := ∅;
  pagesPath := ∅
|}.

Definition nestedPage : string := "{{ Snippets.A }}<hr>{{ Snippets.Ghost }}".

Definition nestedHandlerPage : string :=
  "{% editable snippets 'Quote' %}<hr>{{ snippets['Ghost'] }}".

(** A content directory with an English content file and a directory whose
    name ends like a style sheet. *)
Definition cssFolderSite : Site := {|
  snippetsPath := ∅;
  templatesPath := ∅;
  pagesPath :=
    {[ "home" := Directory
         [("Home.en-US.webpage.copy.html", File "<h1>Home</h1>");
          ("Old.webpage.custom_css.css", Folder)] ]}
|}.

End MarkerSamples.


(** * Properties *)

(** ** Normalisation of logical names *)

Section Normalize.

Lemma lowerChar_settled c : isSpace c = false -> settled (lowerChar c) = true.
Proof. destruct c as [[] [] [] [] [] [] [] []]; vm_compute; congruence. Qed.

Lemma isSpace_lowerChar c : isSpace (lowerChar c) = isSpace c.
Proof. by destruct c as [[] [] [] [] [] [] [] []]. Qed.

Lemma settled_spec c :
  settled c = true -> isSpace c = false ∧ lowerChar c = c.
Proof.
  unfold settled. intros [Hs Hl]%andb_true_iff. split.
  - by apply negb_true_iff.
  - by apply Ascii.eqb_eq.
Qed.

Lemma replaceSpaceRuns_settled inRun s :
  allChars settled (replaceSpaceRuns_from inRun (toLowerCase s)) = true.
Proof.
  revert inRun. induction s as [|c s IH]; intros inRun; simpl; [done|].
  rewrite isSpace_lowerChar. destruct (isSpace c) eqn:Hc.
  - destruct inRun; simpl; auto.
  - simpl. by rewrite lowerChar_settled, IH.
Qed.

Lemma toLowerCase_settled s : allChars settled s = true -> toLowerCase s = s.
Proof.
  induction s as [|c s IH]; simpl; [done|].
  intros [[_ Hc]%settled_spec Hs]%andb_true_iff. by rewrite Hc, IH.
Qed.

Lemma replaceSpaceRuns_from_settled inRun s :
  allChars settled s = true -> replaceSpaceRuns_from inRun s = s.
Proof.
  revert inRun. induction s as [|c s IH]; intros inRun; simpl; [done|].
  intros [[Hc _]%settled_spec Hs]%andb_true_iff. by rewrite Hc, IH.
Qed.

End Normalize.

(** C6. The slug normalisation (lower case, each run of white space to one
    hyphen) is idempotent, and it maps "Global React Components" to
    "global-react-components". *)
Theorem normalize_idempotent :
  (∀ x : string, normalize (normalize x) = normalize x)
  ∧ normalize "Global React Components" = "global-react-components".
Proof.
  split; [|reflexivity].
  intros x. unfold normalize, replaceSpaceRuns.
  pose proof (replaceSpaceRuns_settled false x) as Hx.
  by rewrite (toLowerCase_settled _ Hx), (replaceSpaceRuns_from_settled _ _ Hx).
Qed.

(** ** Termination of the include preprocessor *)

Section Preprocessor.
Import LiquidEngine.
Variable config : Config.
Variable site : Site.

Lemma substituteAll_ext (expand1 expand2 : string -> option string) matches :
  (∀ name, expand1 name = expand2 name) ->
  ∀ processedContent,
    substituteAll expand1 processedContent matches
    = substituteAll expand2 processedContent matches.
Proof.
  intros Hext. induction matches as [|[token name] matches IH];
    intros processedContent; simpl; [done|].
  rewrite Hext. destruct (expand2 name); simpl; auto.
Qed.

Lemma substituteAll_total (expand : string -> option string) matches :
  (∀ name, is_Some (expand name)) ->
  ∀ processedContent, is_Some (substituteAll expand processedContent matches).
Proof.
  intros Htotal. induction matches as [|[token name] matches IH];
    intros processedContent; simpl; [by eexists|].
  destruct (Htotal name) as [expansion ->]. simpl. apply IH.
Qed.

Lemma loadSnippetContent_with_ext self1 self2 snippetName depth :
  (∀ content, self1 content depth = self2 content depth) ->
  loadSnippetContent_with site self1 snippetName depth
  = loadSnippetContent_with site self2 snippetName depth.
Proof.
  intros Hext. unfold loadSnippetContent_with.
  destruct (findSnippetContent site snippetName) as [[content|]|]; auto.
Qed.

Lemma processInclude_with_ext self1 self2 includeName depth :
  (∀ content, self1 content depth = self2 content depth) ->
  processInclude_with config site self1 includeName depth
  = processInclude_with config site self2 includeName depth.
Proof.
  intros Hext. unfold processInclude_with.
  destruct (findIncludeContent site includeName) as [content|]; [|done].
  destruct (truthy content); [|done].
  destruct (shouldSkipLiquidProcessing config includeName content); auto.
Qed.

Lemma loadSnippetContent_with_total self snippetName depth :
  (∀ content, is_Some (self content depth)) ->
  is_Some (loadSnippetContent_with site self snippetName depth).
Proof.
  intros Htotal. unfold loadSnippetContent_with.
  destruct (findSnippetContent site snippetName) as [[content|]|];
    by eauto.
Qed.

Lemma processInclude_with_total self includeName depth :
  (∀ content, is_Some (self content depth)) ->
  is_Some (processInclude_with config site self includeName depth).
Proof.
  intros Htotal. unfold processInclude_with.
  destruct (findIncludeContent site includeName) as [content|]; [|by eexists].
  destruct (truthy content); [|by eexists].
  destruct (shouldSkipLiquidProcessing config includeName content); by eauto.
Qed.

(** One level depends on the nested calls at [depth + 1] only. *)
Lemma preprocessIncludes_body_ext self1 self2 templateContent depth :
  (∀ content, self1 content (depth + 1) = self2 content (depth + 1)) ->
  preprocessIncludes_body config site self1 templateContent depth
  = preprocessIncludes_body config site self2 templateContent depth.
Proof.
  intros Hext. unfold preprocessIncludes_body.
  destruct (10 <? depth); [done|].
  rewrite (substituteAll_ext _
    (λ snippetName, loadSnippetContent_with site self2 (trim snippetName) (depth + 1))).
  2:{ intros name. by apply loadSnippetContent_with_ext. }
  destruct (substituteAll _ templateContent _) as [processedContent|]; simpl; [|done].
  apply substituteAll_ext. intros name. by apply processInclude_with_ext.
Qed.

Lemma preprocessIncludes_body_total self templateContent depth :
  (∀ content, is_Some (self content (depth + 1))) ->
  is_Some (preprocessIncludes_body config site self templateContent depth).
Proof.
  intros Htotal. unfold preprocessIncludes_body.
  destruct (10 <? depth); [by eexists|].
  destruct (substituteAll_total
    (λ snippetName, loadSnippetContent_with site self (trim snippetName) (depth + 1))
    (matchAll snippetRefAt templateContent)) with templateContent
    as [processedContent ->].
  { intros name. by apply loadSnippetContent_with_total. }
  simpl. apply substituteAll_total.
  intros name. by apply processInclude_with_total.
Qed.

(** Past the limit one call answers with its argument. *)
Lemma preprocessIncludes_past_limit fuel templateContent depth :
  10 < depth ->
  preprocessIncludes (S fuel) config site templateContent depth
  = Some templateContent.
Proof.
  intros Hdepth. simpl. unfold preprocessIncludes_body.
  by apply Nat.ltb_lt in Hdepth as ->.
Qed.

(** With [n] levels left below the limit, any budget above [n] gives the
    result of budget [S n], and that result exists. *)
Lemma preprocessIncludes_budget n :
  ∀ depth templateContent fuel,
    11 - depth ≤ n -> n < fuel ->
    preprocessIncludes fuel config site templateContent depth
    = preprocessIncludes (S n) config site templateContent depth
    ∧ is_Some (preprocessIncludes (S n) config site templateContent depth).
Proof.
  induction n as [|n IH]; intros depth templateContent fuel Hn Hfuel.
  - destruct fuel as [|fuel]; [lia|].
    rewrite !preprocessIncludes_past_limit by lia. by eauto.
  - destruct fuel as [|fuel]; [lia|].
    change (preprocessIncludes (S ?f) config site templateContent depth)
      with (preprocessIncludes_body config site
              (preprocessIncludes f config site) templateContent depth).
    destruct (decide (10 < depth)) as [Hpast|Hbelow].
    + unfold preprocessIncludes_body.
      apply Nat.ltb_lt in Hpast as ->. by eauto.
    + split.
      * apply preprocessIncludes_body_ext. intros content.
        destruct (IH (depth + 1) content fuel) as [-> _]; [lia..|].
        reflexivity.
      * apply preprocessIncludes_body_total. intros content.
        by destruct (IH (depth + 1) content (S n)) as [_ ?]; [lia..|].
Qed.

Lemma preprocessIncludes_enough fuel templateContent depth :
  enoughFuel depth ≤ fuel ->
  preprocessIncludes fuel config site templateContent depth
  = Some (preprocess config site templateContent depth).
Proof.
  intros Hfuel. unfold preprocess, enoughFuel in *.
  destruct (preprocessIncludes_budget (11 - depth) depth templateContent fuel)
    as [-> [result ->]]; [lia..|done].
Qed.
End Preprocessor.

(** C1. Recursive include preprocessing terminates for every template source
    and every starting depth, whatever the include graph: a budget of
    [enoughFuel depth] nested calls always yields a result.  Past depth 10 the
    text comes back as it is; on a cyclic graph (A includes B, B includes A)
    the output still holds the include token of the deepest level. *)
Theorem preprocessIncludes_terminates :
  (∀ config site templateContent depth,
     ∃ result,
       (∀ fuel, LiquidEngine.enoughFuel depth ≤ fuel ->
          LiquidEngine.preprocessIncludes fuel config site templateContent depth
          = Some result)
       ∧ (10 < depth -> result = templateContent))
  ∧ (∃ output,
       LiquidEngine.preprocessIncludes (LiquidEngine.enoughFuel 0)
         Samples.plainConfig Samples.cyclicSite "{% include 'A' %}" 0
       = Some output
       ∧ includes output "{% include 'B' %}" = true).
Proof.
  split.
  - intros config site templateContent depth.
    exists (LiquidEngine.preprocess config site templateContent depth). split.
    + intros fuel Hfuel. by apply preprocessIncludes_enough.
    + intros Hdepth. unfold LiquidEngine.preprocess, LiquidEngine.enoughFuel.
      by rewrite preprocessIncludes_past_limit.
  - eexists. split; [vm_compute; reflexivity|]. by vm_compute.
Qed.

Lemma preprocessIncludes_terminates_witness :
  is_Some (LiquidEngine.preprocessIncludes 1 Samples.plainConfig
             Samples.cyclicSite "{% include 'A' %}" 11).
Proof.
  destruct (proj1 preprocessIncludes_terminates Samples.plainConfig
              Samples.cyclicSite "{% include 'A' %}" 11) as [result [Hfuel _]].
  exists result. apply Hfuel. vm_compute. lia.
Defined.

(** ** Names that do not resolve *)

Section Unresolved.
Import LiquidEngine Handlers.

Lemma findFile_None_weaken (p q : string -> bool) files :
  findFile p files = None ->
  (∀ f, q f = true -> p f = true) ->
  findFile q files = None.
Proof.
  unfold findFile. intros Hp Hqp.
  induction files as [|[f e] files IH]; simpl in *; [done|].
  destruct (p f) eqn:Hpf; [done|].
  destruct (q f) eqn:Hqf; [|by auto].
  apply Hqp in Hqf. congruence.
Qed.

Lemma endsWithLanguage_endsWith f suffix :
  endsWithLanguage f suffix = true -> endsWith f suffix = true.
Proof.
  unfold endsWithLanguage, endsWith, startsWith.
  by destruct (stripPrefix (String.rev suffix) (String.rev f)).
Qed.

Lemma findIncludeContent_unresolved site includeName :
  includeUnresolved site includeName ->
  findIncludeContent site includeName
  = if listsPlainFile site includeName then Throw ENOTDIR else Ret EmptyString.
Proof.
  unfold includeUnresolved, nothingListed, listsPlainFile, findIncludeContent.
  intros [Hsnippet Htemplate].
  destruct (snippetsPath site !! normalize includeName) as [[|files]|];
    [done| |].
  - simpl. by rewrite Hsnippet.
  - destruct (templatesPath site !! normalize includeName) as [[|files]|];
      [done| |done].
    simpl. by rewrite Htemplate.
Qed.

Lemma findSnippetContent_unresolved site snippetName :
  snippetUnresolved site snippetName ->
  findSnippetContent site snippetName = Ret None.
Proof.
  unfold snippetUnresolved, holdsNoFile, findSnippetContent.
  destruct (snippetsPath site !! normalize snippetName) as [[|files]|];
    [done| |done].
  intros Hnone. simpl.
  rewrite (findFile_None_weaken _ (λ f, endsWith f ".contentsnippet.value.html")
             files Hnone) by (intros f ->; done).
  rewrite (findFile_None_weaken _ (λ f, endsWith f ".contentsnippet.html")
             files Hnone); [done|].
  intros f ->. apply orb_true_r.
Qed.

Lemma loadSnippet_unresolved (Yaml : Type) yamlParse (emptyYaml : Yaml)
    site snippetName :
  snippetUnresolved site snippetName ->
  loadSnippet Yaml yamlParse emptyYaml site snippetName = Ret None.
Proof.
  unfold snippetUnresolved, holdsNoFile, loadSnippet.
  destruct (snippetsPath site !! normalize snippetName) as [[|files]|];
    [done| |done].
  intros Hnone. simpl.
  assert (∀ p, (∀ f, p f = true ->
                 endsWith f ".contentsnippet.value.html"
                 || endsWith f ".contentsnippet.html" = true) ->
               findFile p files = None) as Hany.
  { intros p Hp. by apply (findFile_None_weaken _ p files Hnone). }
  rewrite (Hany (λ f, endsWithLanguage f ".contentsnippet.value.html"))
    by (by intros f ->%endsWithLanguage_endsWith).
  rewrite (Hany (λ f, endsWith f ".contentsnippet.value.html"))
    by (by intros f ->).
  rewrite (Hany (λ f, endsWithLanguage f ".contentsnippet.html"))
    by (intros f ->%endsWithLanguage_endsWith; apply orb_true_r).
  rewrite (Hany (λ f, endsWith f ".contentsnippet.html"))
    by (intros f ->; apply orb_true_r).
  done.
Qed.
End Unresolved.

(** ** A directive standing in plain text *)

Section Directive.
Import LiquidEngine.
Variable config : Config.
Variable site : Site.

Lemma append_nil s : "" +:+ s = s.
Proof. reflexivity. Qed.
Lemma append_cons c a b : String c a +:+ b = String c (a +:+ b).
Proof. reflexivity. Qed.
Lemma append_nil_r s : s +:+ "" = s.
Proof. induction s as [|c s IH]; [done|]. by rewrite append_cons, IH. Qed.
Lemma append_assoc a b c : (a +:+ b) +:+ c = a +:+ (b +:+ c).
Proof. induction a as [|x a IH]; [done|]. by rewrite !append_cons, IH. Qed.
Lemma length_append a b :
  String.length (a +:+ b) = String.length a + String.length b.
Proof. induction a as [|x a IH]; [done|]. rewrite append_cons. simpl. by rewrite IH. Qed.

Lemma allChars_append p a b :
  allChars p (a +:+ b) = allChars p a && allChars p b.
Proof.
  induction a as [|x a IH]; [done|]. rewrite append_cons. simpl.
  by rewrite IH, andb_assoc.
Qed.

Lemma allChars_weaken (p q : ascii -> bool) s :
  (∀ c, p c = true -> q c = true) -> allChars p s = true -> allChars q s = true.
Proof.
  intros Hpq. induction s as [|c s IH]; simpl; [done|].
  intros [Hc Hs]%andb_true_iff. by rewrite (Hpq c Hc), IH.
Qed.

Lemma stripPrefix_append p s : stripPrefix p (p +:+ s) = Some s.
Proof.
  induction p as [|c p IH]; [done|]. rewrite append_cons. simpl.
  by rewrite Ascii.eqb_refl.
Qed.

Lemma substring_append a b :
  String.substring 0 (String.length a) (a +:+ b) = a.
Proof.
  induction a as [|c a IH].
  - by destruct b.
  - rewrite append_cons. simpl. by rewrite IH.
Qed.

Lemma consumed_append a b : consumed (a +:+ b) b = a.
Proof.
  unfold consumed. rewrite length_append.
  replace (String.length a + String.length b - String.length b)
    with (String.length a) by lia.
  apply substring_append.
Qed.

Lemma span_append p a c b :
  allChars p a = true -> p c = false ->
  span p (a +:+ String c b) = (a, String c b).
Proof.
  intros Ha Hc. induction a as [|x a IH].
  - rewrite append_nil. simpl. by rewrite Hc.
  - rewrite append_cons. simpl in *.
    apply andb_true_iff in Ha as [-> Ha]. by rewrite IH.
Qed.

Lemma includeDirective_append includeName after :
  includeDirective includeName +:+ after
  = "{% include '" +:+ includeName +:+ String "'" (" %}" +:+ after).
Proof. unfold includeDirective. by rewrite !append_assoc. Qed.

Lemma includeTagAt_directive includeName after :
  allChars notQuote includeName = true -> truthy includeName = true ->
  includeTagAt (includeDirective includeName +:+ after)
  = Some (includeDirective includeName, includeName).
Proof.
  intros Hname Hnonempty.
  assert (consumed (includeDirective includeName +:+ after) after
          = includeDirective includeName) as Hconsumed
    by apply consumed_append.
  rewrite includeDirective_append in *.
  unfold includeTagAt. rewrite !append_cons, append_nil. simpl.
  rewrite span_append by done.
  rewrite Hnonempty. simpl.
  rewrite !append_cons, append_nil in Hconsumed.
  change ("" +:+ after) with after in *. by rewrite Hconsumed.
Qed.

Lemma matchAll_from_skip tokenAt a b :
  matchAll_from tokenAt (String.length a) (a +:+ b)
  = matchAll_from tokenAt 0 b.
Proof.
  induction a as [|c a IH]; [done|]. by rewrite append_cons.
Qed.

Lemma matchAll_from_hit tokenAt c m b g :
  tokenAt (String c m +:+ b) = Some (String c m, g) ->
  matchAll_from tokenAt 0 (String c m +:+ b)
  = (String c m, g) :: matchAll_from tokenAt 0 b.
Proof.
  intros Hhit. rewrite append_cons in *. simpl. rewrite Hhit.
  simpl. rewrite Nat.sub_0_r. by rewrite matchAll_from_skip.
Qed.

Lemma matchAll_from_plain tokenAt a b :
  (∀ c s, notOpenBrace c = true -> tokenAt (String c s) = None) ->
  allChars notOpenBrace a = true ->
  matchAll_from tokenAt 0 (a +:+ b) = matchAll_from tokenAt 0 b.
Proof.
  intros Hplain. induction a as [|c a IH]; [done|].
  rewrite append_cons. simpl.
  intros [Hc Ha]%andb_true_iff. by rewrite (Hplain c _ Hc), IH.
Qed.

Lemma stripPrefix_cons a p b s :
  stripPrefix (String a p) (String b s)
  = if Ascii.eqb a b then stripPrefix p s else None.
Proof. reflexivity. Qed.

Lemma includeTagAt_plain c s :
  notOpenBrace c = true -> includeTagAt (String c s) = None.
Proof.
  unfold notOpenBrace, includeTagAt. intros Hc%negb_true_iff.
  rewrite stripPrefix_cons, Ascii.eqb_sym. by rewrite Hc.
Qed.

Lemma noDoubleOpen_tail c s :
  noDoubleOpen (String c s) = true -> noDoubleOpen s = true.
Proof. simpl. by intros [_ ?]%andb_true_iff. Qed.

Lemma snippetRefAt_noDoubleOpen s :
  noDoubleOpen s = true -> snippetRefAt s = None.
Proof.
  unfold snippetRefAt. destruct s as [|c [|d s]]; [done| |].
  - rewrite stripPrefix_cons. by destruct (Ascii.eqb "{" c).
  - intros Hs. change (noDoubleOpen (String c (String d s)))
      with (negb (Ascii.eqb c "{" && Ascii.eqb d "{")
            && noDoubleOpen (String d s)) in Hs.
    apply andb_true_iff in Hs as [Hcd _].
    rewrite !stripPrefix_cons.
    rewrite (Ascii.eqb_sym "{" c), (Ascii.eqb_sym "{" d).
    destruct (Ascii.eqb c "{"); [|done]. by destruct (Ascii.eqb d "{").
Qed.

Lemma matchAll_snippetRefAt_noDoubleOpen s :
  noDoubleOpen s = true -> ∀ skip, matchAll_from snippetRefAt skip s = [].
Proof.
  induction s as [|c s IH]; intros Hs skip; [done|].
  pose proof (noDoubleOpen_tail _ _ Hs) as Htail.
  simpl. destruct skip; [|by apply IH].
  rewrite (snippetRefAt_noDoubleOpen _ Hs). by apply IH.
Qed.

Lemma noDoubleOpen_plain s :
  allChars notOpenBrace s = true -> noDoubleOpen s = true.
Proof.
  induction s as [|c s IH]; [done|]. simpl.
  intros [Hc Hs]%andb_true_iff. unfold notOpenBrace in Hc.
  apply negb_true_iff in Hc. by rewrite Hc, IH.
Qed.

Lemma noDoubleOpen_append_plain a b :
  allChars notOpenBrace a = true ->
  noDoubleOpen b = true ->
  noDoubleOpen (a +:+ b) = true.
Proof.
  intros Ha Hb. induction a as [|c a IH]; [done|]. rewrite append_cons.
  simpl in *. apply andb_true_iff in Ha as [Hc Ha].
  unfold notOpenBrace in Hc. apply negb_true_iff in Hc.
  by rewrite Hc, IH.
Qed.

Lemma splitFirst_cons pat x r :
  splitFirst pat (String x r)
  = match stripPrefix pat (String x r) with
    | Some rest => Some (EmptyString, rest)
    | None =>
        match splitFirst pat r with
        | Some (before, after) => Some (String x before, after)
        | None => None
        end
    end.
Proof. reflexivity. Qed.

Lemma splitFirst_plain before token after :
  allChars notOpenBrace before = true ->
  opens token = true ->
  splitFirst token (before +:+ token +:+ after) = Some (before, after).
Proof.
  intros Hbefore Htoken. destruct token as [|t token]; [done|].
  simpl in Htoken. apply Ascii.eqb_eq in Htoken as ->.
  induction before as [|x before IH].
  - rewrite append_nil, append_cons, splitFirst_cons, <-append_cons.
    by rewrite stripPrefix_append.
  - rewrite append_cons. simpl in Hbefore.
    apply andb_true_iff in Hbefore as [Hx Hbefore].
    unfold notOpenBrace in Hx. apply negb_true_iff in Hx.
    rewrite Ascii.eqb_sym in Hx.
    rewrite splitFirst_cons, stripPrefix_cons, Hx. by rewrite IH.
Qed.

Lemma getSubstitution_plain matched before after repl :
  allChars notDollar repl = true ->
  getSubstitution matched before after repl = repl.
Proof.
  induction repl as [|c repl IH]; [done|]. simpl.
  intros [Hc Hrepl]%andb_true_iff. unfold notDollar in Hc.
  apply negb_true_iff in Hc. rewrite IH by done.
  by destruct c as [[] [] [] [] [] [] [] []].
Qed.

Lemma plainNameChar_spec c :
  plainNameChar c = true ->
  notOpenBrace c = true ∧ notQuote c = true ∧ notDollar c = true.
Proof.
  unfold plainNameChar. by intros [[? ?]%andb_true_iff ?]%andb_true_iff.
Qed.

Lemma matchAll_directive before includeName after :
  allChars notOpenBrace before = true ->
  allChars notOpenBrace after = true ->
  allChars notQuote includeName = true ->
  truthy includeName = true ->
  matchAll includeTagAt (before +:+ includeDirective includeName +:+ after)
  = [(includeDirective includeName, includeName)].
Proof.
  intros Hbefore Hafter Hname Hnonempty. unfold matchAll.
  rewrite matchAll_from_plain by (done || apply includeTagAt_plain).
  pose proof (includeTagAt_directive includeName after Hname Hnonempty) as Hhit.
  unfold includeDirective in *. rewrite append_cons in *.
  erewrite matchAll_from_hit by exact Hhit. f_equal.
  rewrite <-(append_nil_r after).
  by rewrite matchAll_from_plain by (done || apply includeTagAt_plain).
Qed.

Lemma noDoubleOpen_directive before includeName after :
  allChars notOpenBrace before = true ->
  allChars notOpenBrace after = true ->
  allChars notOpenBrace includeName = true ->
  noDoubleOpen (before +:+ includeDirective includeName +:+ after) = true.
Proof.
  intros Hbefore Hafter Hname. apply noDoubleOpen_append_plain; [done|].
  rewrite includeDirective_append, append_cons.
  change (noDoubleOpen (String "{" ?r))
    with (negb (Ascii.eqb "{" "{" && opens r) && noDoubleOpen r).
  rewrite append_cons. apply andb_true_iff. split; [done|].
  apply noDoubleOpen_plain.
  rewrite <-append_cons, !allChars_append, Hname. simpl.
  by rewrite allChars_append, Hafter.
Qed.

End Directive.

(** C2 (amended). For every include name, [processInclude] looks at snippet
    storage first and takes the first listed file whose name ends in [.html],
    whatever template storage holds; when no snippet directory exists it
    takes the first listed [*.webtemplate.source.html] file of the template
    directory; a non-empty text found this way is the hit that is expanded;
    when neither directory exists the result is the not-found marker.  The
    preference for a language-qualified file name belongs to
    [SnippetHandler.getSnippet], which include tokens do not go through. *)
Theorem include_resolution_order :
  ∀ (config : Config) (site : Site) (includeName : string),
    (∀ files f text,
       snippetsPath site !! normalize includeName = Some (Directory files) ->
       findFile (λ f, endsWith f ".html") files = Some (f, File text) ->
       LiquidEngine.findIncludeContent site includeName = Ret text)
    ∧ (∀ files f text,
         snippetsPath site !! normalize includeName = None ->
         templatesPath site !! normalize includeName = Some (Directory files) ->
         findFile (λ f, endsWith f ".webtemplate.source.html") files
         = Some (f, File text) ->
         LiquidEngine.findIncludeContent site includeName = Ret text)
    ∧ (∀ text depth fuel,
         LiquidEngine.findIncludeContent site includeName = Ret text ->
         truthy text = true ->
         LiquidEngine.enoughFuel depth ≤ fuel ->
         LiquidEngine.processInclude fuel config site includeName depth
         = Some (if LiquidEngine.shouldSkipLiquidProcessing config includeName text
                 then text
                 else LiquidEngine.preprocess config site text depth))
    ∧ (snippetsPath site !! normalize includeName = None ->
       templatesPath site !! normalize includeName = None ->
       ∀ fuel depth,
         LiquidEngine.processInclude fuel config site includeName depth
         = Some (LiquidEngine.includeNotFound includeName))
    ∧ (∀ (Yaml : Type) yamlParse emptyYaml
         (snippetsCache : gmap string (Handlers.Snippet Yaml)) files f text,
         snippetsCache !! includeName = None ->
         snippetsPath site !! normalize includeName = Some (Directory files) ->
         findFile (λ f, Handlers.endsWithLanguage f ".contentsnippet.value.html")
           files = Some (f, File text) ->
         findFile (λ f, endsWith f ".contentsnippet.yml") files = None ->
         ∃ snippet,
           (Handlers.getSnippet Yaml yamlParse emptyYaml site snippetsCache
              includeName).1 = Some snippet
           ∧ Handlers.snippet_content Yaml snippet = text).
Proof.
  intros config site includeName. split; [|split; [|split; [|split]]].
  - intros files f text Hdir Hfile. unfold LiquidEngine.findIncludeContent.
    rewrite Hdir. simpl. by rewrite Hfile.
  - intros files f text Hsnippet Hdir Hfile.
    unfold LiquidEngine.findIncludeContent.
    rewrite Hsnippet, Hdir. simpl. by rewrite Hfile.
  - intros text depth fuel Hfound Htext Hfuel.
    unfold LiquidEngine.processInclude, LiquidEngine.processInclude_with.
    rewrite Hfound, Htext.
    destruct (LiquidEngine.shouldSkipLiquidProcessing config includeName text);
      [done|].
    by apply preprocessIncludes_enough.
  - intros Hsnippet Htemplate fuel depth.
    unfold LiquidEngine.processInclude, LiquidEngine.processInclude_with,
      LiquidEngine.findIncludeContent.
    by rewrite Hsnippet, Htemplate.
  - intros Yaml yamlParse emptyYaml snippetsCache files f text Hmiss Hdir
      Hfile Hconfig.
    unfold Handlers.getSnippet, Handlers.loadSnippet.
    rewrite Hmiss, Hdir. simpl. rewrite Hfile, Hconfig.
    rewrite (findFile_None_weaken _
               (λ f, Handlers.endsWithLanguage f ".contentsnippet.yml")
               files Hconfig)
      by (intros ?; apply endsWithLanguage_endsWith).
    simpl. by eexists.
Qed.

Lemma include_resolution_order_witness :
  LiquidEngine.findIncludeContent Samples.bilingualSite "Welcome" = Ret "bare".
Proof.
  eapply (proj1 (include_resolution_order Samples.plainConfig
                   Samples.bilingualSite "Welcome")).
  - vm_compute. reflexivity.
  - reflexivity.
Defined.

(** C2 as stated fails: with a bare and a language-qualified snippet file
    listed in that order, the include resolves to the bare one, where the
    stated order prefers the language-qualified one. *)
Lemma include_resolution_ignores_language :
  resolveInclude_spec Samples.bilingualSite "Welcome" = Some (File "qualified")
  ∧ LiquidEngine.findIncludeContent Samples.bilingualSite "Welcome" = Ret "bare"
  ∧ LiquidEngine.processInclude 1 Samples.plainConfig Samples.bilingualSite
      "Welcome" 1 = Some "bare".
Proof. by vm_compute. Qed.

(** A snippet directory that exists hides the template of the same name even
    when it holds no [.html] file: the template branch is an [else if]. *)
Lemma snippet_directory_hides_template :
  resolveInclude_spec Samples.shadowedSite "Footer" = Some (File "<footer/>")
  ∧ LiquidEngine.findIncludeContent Samples.shadowedSite "Footer" = Ret ""
  ∧ LiquidEngine.processInclude 1 Samples.plainConfig Samples.shadowedSite
      "Footer" 1 = Some "<!-- Include not found: Footer -->".
Proof. by vm_compute. Qed.

(** ** Page content resolution *)

Section PageContent.
Import Handlers.

Lemma stripPrefix_sound p s rest :
  stripPrefix p s = Some rest -> s = p +:+ rest.
Proof.
  revert s. induction p as [|a p IH]; intros s; [by intros [= ->]|].
  destruct s as [|b s]; [done|]. rewrite stripPrefix_cons.
  destruct (Ascii.eqb_spec a b) as [->|]; [|done].
  intros ->%IH. by rewrite append_cons.
Qed.

Lemma splitFirst_sound pat s before after :
  splitFirst pat s = Some (before, after) -> s = before +:+ pat +:+ after.
Proof.
  revert before. induction s as [|c s IH]; intros before.
  - simpl. destruct (stripPrefix pat "") as [rest|] eqn:Hstrip; [|done].
    intros [= <- <-]. rewrite append_nil. by apply stripPrefix_sound.
  - rewrite splitFirst_cons.
    destruct (stripPrefix pat (String c s)) as [rest|] eqn:Hstrip.
    + intros [= <- <-]. rewrite append_nil. by apply stripPrefix_sound.
    + destruct (splitFirst pat s) as [[b a]|]; [|done].
      intros [= <- <-]. rewrite append_cons. f_equal. by apply IH.
Qed.

(** [language.replace('-', '-')] changes nothing. *)
Lemma replace_hyphen_by_hyphen language : replace language "-" "-" = language.
Proof.
  unfold replace.
  destruct (splitFirst "-" language) as [[before after]|] eqn:Hsplit; [|done].
  by apply splitFirst_sound in Hsplit as ->.
Qed.

Lemma readOptional_firstText suffix contentFiles :
  readOptional suffix contentFiles
  = match firstText suffix contentFiles with
    | Some text => Ret text
    | None => Throw EISDIR
    end.
Proof.
  unfold readOptional, firstText.
  by destruct (findFile _ contentFiles) as [[f [text|]]|].
Qed.
End PageContent.




(** ** Rendering *)

Section Rendering.
Import LiquidEngine Handlers.
Variable regexTest : string -> string -> bool.
Variable regexCount : string -> string -> nat.
Variable Data : Type.
Variable mockData : Data.
Variable spread : Data -> Data -> Data.
Variable parseAndRender : string -> Data -> Outcome string.
Variable config : Config.
Variable site : Site.

Local Abbreviation render :=
  (render regexTest regexCount Data mockData spread parseAndRender config site).
Local Abbreviation renderTraced :=
  (renderTraced regexTest regexCount Data mockData spread parseAndRender
     config site).
Local Abbreviation isCode := (isJavaScriptContent regexTest regexCount config).

Lemma tryCatch_rethrow {A} (body : Outcome A) :
  tryCatch body (λ error, Throw error) = body.
Proof. by destruct body. Qed.

Lemma tryCatch_total {A} (body : Outcome A) (recover : Exn -> A) :
  ∃ a, tryCatch body (λ error, Ret (recover error)) = Ret a
       ∧ ∀ error, body = Throw error -> a = recover error.
Proof.
  destruct body as [a|error]; simpl; eexists; split; try done.
  by intros ? [= ->].
Qed.

(** [render] hands the engine's error on to its caller. *)
Lemma render_rethrows templateContent additionalData error :
  isCode templateContent = false ->
  isCode (preprocess config site templateContent 0) = false ->
  parseAndRender (preprocess config site templateContent 0)
    (spread mockData additionalData) = Throw error ->
  render templateContent additionalData = Throw error.
Proof.
  intros Hsource Hexpanded Hengine.
  unfold LiquidEngine.render, LiquidEngine.renderTraced.
  rewrite Hsource, Hexpanded. simpl. by rewrite Hengine.
Qed.

Lemma renderTraced_cases templateContent additionalData :
  let expanded := preprocess config site templateContent 0 in
  renderTraced templateContent additionalData
  = if isCode templateContent then (Ret templateContent, [])
    else if isCode expanded then (Ret expanded, [])
    else (parseAndRender expanded (spread mockData additionalData),
          [expanded]).
Proof.
  simpl. unfold LiquidEngine.renderTraced.
  destruct (isCode templateContent); [done|].
  destruct (isCode _); [done|]. by rewrite tryCatch_rethrow.
Qed.
End Rendering.

(** C4 (amended). For every input to [render]: the classifier is applied to
    the source; a source classified as code is returned verbatim, without
    include expansion.  Otherwise the classifier is applied again to the
    include-expanded text, and whenever that is classified as code [render]
    returns the expanded text verbatim.  In neither case is the expression
    engine run: it runs only on an expanded text that was not classified as
    code, of a source that was not either. *)
Theorem render_returns_code_verbatim :
  ∀ regexTest regexCount (Data : Type) mockData spread parseAndRender
    config site (templateContent : string) (additionalData : Data),
    let isCode := LiquidEngine.isJavaScriptContent regexTest regexCount config in
    let expanded := LiquidEngine.preprocess config site templateContent 0 in
    let traced :=
      LiquidEngine.renderTraced regexTest regexCount Data mockData spread
        parseAndRender config site templateContent additionalData in
    (isCode templateContent = true -> traced = (Ret templateContent, []))
    ∧ (isCode templateContent = false -> isCode expanded = true ->
       traced = (Ret expanded, []))
    ∧ (∀ text, text ∈ traced.2 ->
         text = expanded ∧ isCode templateContent = false
         ∧ isCode expanded = false
         ∧ traced.1 = parseAndRender expanded (spread mockData additionalData))
    ∧ LiquidEngine.render regexTest regexCount Data mockData spread
        parseAndRender config site templateContent additionalData
      = traced.1.
Proof.
  intros regexTest regexCount Data mockData spread parseAndRender config site
    templateContent additionalData isCode expanded traced.
  subst traced. rewrite renderTraced_cases. fold expanded. fold isCode.
  split; [|split; [|split]].
  - by intros ->.
  - by intros -> ->.
  - intros text. destruct (isCode templateContent); [by intros ?%elem_of_nil|].
    destruct (isCode expanded); [by intros ?%elem_of_nil|].
    simpl. by intros ->%list_elem_of_singleton.
  - unfold LiquidEngine.render. by rewrite renderTraced_cases.
Qed.

Lemma render_returns_code_verbatim_witness :
  LiquidEngine.renderTraced Samples.neverMatches Samples.noMatches unit tt
    Samples.keepRight Samples.echoEngine Samples.libraryConfig Samples.homeSite
    "<div>{% include 'Lib' %}</div>" tt
  = (Ret "<div>/* react.development.js */ var x;</div>", []).
Proof.
  apply (render_returns_code_verbatim Samples.neverMatches Samples.noMatches
           unit tt Samples.keepRight Samples.echoEngine Samples.libraryConfig
           Samples.homeSite "<div>{% include 'Lib' %}</div>" tt);
    by vm_compute.
Defined.

(** C4 as stated fails for a source that is itself classified as code: it
    is returned as it is, so the expanded text, although classified as code
    too, is not what [render] returns.  The classification here comes from
    the library signature check, whatever the regular-expression engine
    answers. *)
Lemma render_leaves_code_source_unexpanded :
  (∀ regexTest regexCount,
     LiquidEngine.isJavaScriptContent regexTest regexCount
       Samples.libraryConfig Samples.signedSource = true
     ∧ LiquidEngine.isJavaScriptContent regexTest regexCount
         Samples.libraryConfig
         (LiquidEngine.preprocess Samples.libraryConfig Samples.emptySite
            Samples.signedSource 0) = true
     ∧ LiquidEngine.render regexTest regexCount unit tt Samples.keepRight
         Samples.echoEngine Samples.libraryConfig Samples.emptySite
         Samples.signedSource tt
       = Ret Samples.signedSource)
  ∧ LiquidEngine.preprocess Samples.libraryConfig Samples.emptySite
      Samples.signedSource 0
    = "<script src='/lib/react.development.js'></script><!-- Include not found: Ghost Widget -->"
  ∧ LiquidEngine.preprocess Samples.libraryConfig Samples.emptySite
      Samples.signedSource 0 ≠ Samples.signedSource.
Proof.
  assert (∀ regexTest regexCount content,
            LiquidEngine.containsExcludedSignatures Samples.libraryConfig content
            = true ->
            LiquidEngine.isJavaScriptContent regexTest regexCount
              Samples.libraryConfig content = true) as Hsigned.
  { intros regexTest regexCount content Hcontent.
    unfold LiquidEngine.isJavaScriptContent. rewrite Hcontent.
    by rewrite orb_true_r. }
  split; [|split; [by vm_compute|by vm_compute]].
  intros regexTest regexCount.
  assert (LiquidEngine.isJavaScriptContent regexTest regexCount
            Samples.libraryConfig Samples.signedSource = true) as Hsource
    by (apply Hsigned; by vm_compute).
  split; [done|]. split; [apply Hsigned; by vm_compute|].
  unfold LiquidEngine.render, LiquidEngine.renderTraced. by rewrite Hsource.
Qed.

(** C5. Errors raised by the expression engine never leave the callers of
    [render]: [render] itself throws them again, and each caller
    ([renderTemplate], [renderSnippet], [processPage]) always returns a
    text, which is the rendered error placeholder (the render-error comment,
    or the error page) whenever [render] threw. *)
Theorem render_errors_caught_by_callers :
  ∀ regexTest regexCount (Data : Type) mockData spread parseAndRender
    emptyData (Yaml : Type) yamlParse emptyYaml config site,
    let render :=
      LiquidEngine.render regexTest regexCount Data mockData spread
        parseAndRender config site in
    let isCode := LiquidEngine.isJavaScriptContent regexTest regexCount config in
    (∀ templateContent additionalData error,
       let expanded := LiquidEngine.preprocess config site templateContent 0 in
       isCode templateContent = false -> isCode expanded = false ->
       parseAndRender expanded (spread mockData additionalData) = Throw error ->
       render templateContent additionalData = Throw error)
    ∧ (∀ templatesCache templateName data,
       ∃ text,
         (Handlers.renderTemplate regexTest regexCount Data mockData spread
            parseAndRender Yaml yamlParse emptyYaml config site
            templatesCache templateName data).1 = Ret text
         ∧ ∀ template error,
             (Handlers.getTemplate Yaml yamlParse emptyYaml site
                templatesCache templateName).1 = Some template ->
             render (Handlers.template_content Yaml template) data = Throw error ->
             text = "<!-- Template render error: " +:+ templateName +:+ " -->")
    ∧ (∀ snippetsCache snippetName data,
         ∃ text,
           (Handlers.renderSnippet regexTest regexCount Data mockData spread
              parseAndRender Yaml yamlParse emptyYaml config site
              snippetsCache snippetName data).1 = Ret text
           ∧ ∀ snippet error,
               (Handlers.getSnippet Yaml yamlParse emptyYaml site
                  snippetsCache snippetName).1 = Some snippet ->
               render (Handlers.snippet_content Yaml snippet) data = Throw error ->
               text = "<!-- Snippet render error: " +:+ snippetName +:+ " -->")
    ∧ (∀ pageDocument getErrorPage liquidContext snippetsCache pageContent
         pageConfig language,
         ∃ html,
           (Handlers.processPage regexTest regexCount Data mockData spread
              parseAndRender emptyData Yaml yamlParse emptyYaml config site
              pageDocument getErrorPage liquidContext
              snippetsCache pageContent pageConfig language).1 = Ret html
           ∧ ∀ error,
               render (Handlers.content pageContent) (liquidContext pageConfig)
               = Throw error ->
               html = getErrorPage error).
Proof.
  intros regexTest regexCount Data mockData spread parseAndRender emptyData
    Yaml yamlParse emptyYaml config site render isCode.
  split; [|split; [|split]].
  - intros templateContent additionalData error expanded.
    by apply render_rethrows.
  - intros templatesCache templateName data. unfold Handlers.renderTemplate.
    destruct (Handlers.getTemplate _ _ _ _ _ _) as [[template|] cache'];
      simpl.
    + destruct (tryCatch_total
                  (render (Handlers.template_content Yaml template) data)
                  (λ _, Handlers.templateRenderError templateName))
        as (text & Htext & Herror).
      exists text. split; [done|]. intros ? error [= <-]. apply Herror.
    + eexists. split; [done|]. by intros ? ? [=].
  - intros snippetsCache snippetName data. unfold Handlers.renderSnippet.
    destruct (Handlers.getSnippet _ _ _ _ _ _) as [[snippet|] cache'];
      simpl.
    + destruct (tryCatch_total
                  (render (Handlers.snippet_content Yaml snippet) data)
                  (λ _, Handlers.snippetRenderError snippetName))
        as (text & Htext & Herror).
      exists text. split; [done|]. intros ? error [= <-]. apply Herror.
    + eexists. split; [done|]. by intros ? ? [=].
  - intros pageDocument getErrorPage liquidContext snippetsCache pageContent
      pageConfig language.
    unfold Handlers.processPage. fold render.
    destruct (render (Handlers.content pageContent) (liquidContext pageConfig))
      as [processedHtmlContent|error]; simpl.
    2:{ eexists. split; [done|]. by intros ? [= ->]. }
    destruct (Handlers.renderIfPresent _ _ _ _ _ _ _ _
                (Handlers.customCss pageContent) _) as [processedCss|error];
      simpl.
    2:{ eexists. split; [done|]. by intros ? [=]. }
    destruct (Handlers.renderIfPresent _ _ _ _ _ _ _ _
                (Handlers.customJs pageContent) _) as [processedJs|error];
      simpl.
    2:{ eexists. split; [done|]. by intros ? [=]. }
    destruct (Handlers.renderTrackingCode _ _ _ _ _ _ _ _ _ _ _ _ _)
      as [[trackingCode|error] cache']; simpl;
      eexists; (split; [done|]); by intros ? [=].
Qed.

Lemma render_errors_caught_by_callers_witness :
  (Handlers.renderTemplate Samples.neverMatches Samples.noMatches unit tt
     Samples.keepRight Samples.failingEngine unit (λ _, Ret tt) tt
     Samples.plainConfig Samples.homeSite ∅ "Card" tt).1
  = Ret "<!-- Template render error: Card -->".
Proof.
  destruct (proj1 (proj2 (render_errors_caught_by_callers Samples.neverMatches
                     Samples.noMatches unit tt Samples.keepRight
                     Samples.failingEngine tt unit (λ _, Ret tt) tt
                     Samples.plainConfig Samples.homeSite)) ∅ "Card" tt)
    as (text & -> & Herror).
  f_equal.
  apply (Herror
           {| Handlers.template_name := "Card";
              Handlers.template_content := "<b>{{ user.fullname }</b>";
              Handlers.template_config := tt;
              Handlers.template_path := "card/Card.webtemplate.source.html" |}
           (EngineError "unexpected token"));
    vm_compute; reflexivity.
Defined.

(** ** The rule store and the matcher *)

Section RuleOrder.
Import Mocks.

Lemma compareMocks_before a b :
  (compareMocks a b <=? 0)%Z = true ↔ before a b.
Proof.
  unfold compareMocks, before. rewrite Z.leb_le.
  case_bool_decide; lia.
Qed.

Lemma compareMocks_after a b :
  (compareMocks a b <=? 0)%Z = false -> before b a.
Proof.
  unfold compareMocks, before. rewrite Z.leb_gt.
  case_bool_decide; lia.
Qed.

#[local] Instance before_transitive : Transitive before.
Proof. intros a b c. unfold before. lia. Qed.

Lemma insertSorted_Permutation {A} (comparefn : A -> A -> Z) x l :
  insertSorted comparefn x l ≡ₚ x :: l.
Proof.
  induction l as [|y l IH]; simpl; [done|].
  destruct (comparefn x y <=? 0)%Z; [done|].
  by rewrite IH, Permutation_swap.
Qed.

Lemma sort_Permutation {A} (comparefn : A -> A -> Z) l :
  sort comparefn l ≡ₚ l.
Proof.
  induction l as [|x l IH]; simpl; [done|].
  by rewrite insertSorted_Permutation, IH.
Qed.

Lemma insertSorted_sorted x l :
  StronglySorted before l ->
  StronglySorted before (insertSorted compareMocks x l).
Proof.
  induction l as [|y l IH]; simpl.
  - intros _. by repeat constructor.
  - intros [Hy Hl]%StronglySorted_cons.
    destruct (compareMocks x y <=? 0)%Z eqn:Hcompare.
    + apply compareMocks_before in Hcompare.
      apply StronglySorted_cons. split.
      * constructor; [done|].
        eapply Forall_impl; [exact Hy|]. intros z Hz. by etrans.
      * by apply StronglySorted_cons.
    + apply compareMocks_after in Hcompare.
      apply StronglySorted_cons. split; [|by apply IH].
      rewrite insertSorted_Permutation. by constructor.
Qed.

Lemma sort_sorted l : StronglySorted before (sort compareMocks l).
Proof.
  induction l as [|x l IH]; simpl; [constructor|].
  by apply insertSorted_sorted.
Qed.

Lemma loadMocks_sorted l :
  StronglySorted before l -> StronglySorted before (loadMocks l).
Proof.
  unfold loadMocks. induction l as [|x l IH]; [done|].
  intros [Hx Hl]%StronglySorted_cons. rewrite filter_cons.
  case_decide; [|by apply IH].
  apply StronglySorted_cons. split; [|by apply IH].
  apply Forall_forall. intros y [_ Hy]%list_elem_of_filter.
  rewrite Forall_forall in Hx. by apply Hx.
Qed.

Variable RegExp_test : string -> string -> Outcome bool.
Local Abbreviation matchesRequest := (matchesRequest RegExp_test).
Local Abbreviation findMatchingMock := (findMatchingMock RegExp_test).

(** The scan returns the first rule that matches. *)
Lemma findMatchingMock_first mocks req r :
  findMatchingMock mocks req = Ret (Some r) ->
  ∃ l1 l2, mocks = l1 ++ r :: l2
           ∧ Forall (λ m, matchesRequest m req = Ret false) l1
           ∧ matchesRequest r req = Ret true.
Proof.
  induction mocks as [|m mocks IH]; simpl; [done|].
  destruct (matchesRequest m req) as [[]|] eqn:Hm; simpl; [| |done].
  - intros [= <-]. by exists [], mocks.
  - intros (l1 & l2 & -> & Hl1 & Hr)%IH.
    exists (m :: l1), l2. by repeat constructor.
Qed.

(** A scan that returns, over rules one of which matches, returns a rule. *)
Lemma findMatchingMock_some mocks req a result :
  a ∈ mocks -> matchesRequest a req = Ret true ->
  findMatchingMock mocks req = Ret result ->
  ∃ r, result = Some r.
Proof.
  induction mocks as [|m mocks IH]; simpl; [by intros ?%elem_of_nil|].
  intros Ha Hmatch.
  destruct (matchesRequest m req) as [[]|] eqn:Hm; simpl; [| |done].
  - intros [= <-]. by eexists.
  - apply elem_of_cons in Ha as [->|Ha]; [congruence|]. by apply IH.
Qed.

Lemma findMatchingMock_highest mocks req a result :
  StronglySorted before mocks ->
  a ∈ mocks -> matchesRequest a req = Ret true ->
  findMatchingMock mocks req = Ret result ->
  ∃ r, result = Some r ∧ r ∈ mocks ∧ matchesRequest r req = Ret true
       ∧ (priority a ≤ priority r)%Z.
Proof.
  intros Hsorted Ha Hmatch Hfind.
  destruct (findMatchingMock_some _ _ _ _ Ha Hmatch Hfind) as [r ->].
  exists r. split; [done|].
  apply findMatchingMock_first in Hfind as (l1 & l2 & -> & Hl1 & Hr).
  split; [by apply elem_of_app; right; left|]. split; [done|].
  apply elem_of_app in Ha as [Ha|Ha].
  { rewrite Forall_forall in Hl1. specialize (Hl1 _ Ha). congruence. }
  apply elem_of_cons in Ha as [->|Ha]; [lia|].
  apply StronglySorted_app_1_r, StronglySorted_cons in Hsorted as [Hr2 _].
  rewrite Forall_forall in Hr2. specialize (Hr2 _ Ha).
  unfold before in Hr2. lia.
Qed.

Lemma matchesQueryParams_entries entries reqQueryParams :
  matchesQueryParams (Some entries) reqQueryParams
  = matchesEntries entries reqQueryParams.
Proof. by destruct entries. Qed.
End RuleOrder.

(** Rule order after a registration.  [saveMock] leaves the persisted rule
    list sorted by priority descending, then creation date descending, and
    keeps every rule; [findMatchingMock] scans the enabled rules in that
    order and takes the first match.  So of two enabled rules that both match
    a request the one of lower priority is not selected: the selected rule
    has at least the higher of the two priorities; and with just these two
    rules registered, in either order, the rule of higher priority is
    selected. *)
Theorem registration_order_is_irrelevant :
  ∀ (RegExp_test : string -> string -> Outcome bool),
    let matchesRequest := Mocks.matchesRequest RegExp_test in
    let findMatchingMock := Mocks.findMatchingMock RegExp_test in
    (∀ mocks mock,
       StronglySorted Mocks.before (Mocks.saveMock mocks mock)
       ∧ Mocks.saveMock mocks mock ≡ₚ mock :: mocks)
    ∧ (∀ mocks req r,
         findMatchingMock mocks req = Ret (Some r) ->
         ∃ l1 l2, mocks = l1 ++ r :: l2
                  ∧ Forall (λ m, matchesRequest m req = Ret false) l1
                  ∧ matchesRequest r req = Ret true)
    ∧ (∀ mocks mock req a b result,
         let persisted := Mocks.saveMock mocks mock in
         a ∈ persisted -> b ∈ persisted ->
         Mocks.enabled a = true -> Mocks.enabled b = true ->
         matchesRequest a req = Ret true -> matchesRequest b req = Ret true ->
         (Mocks.priority b < Mocks.priority a)%Z ->
         findMatchingMock (Mocks.loadMocks persisted) req = Ret result ->
         ∃ r, result = Some r ∧ r ∈ persisted ∧ Mocks.enabled r = true
              ∧ matchesRequest r req = Ret true
              ∧ (Mocks.priority a ≤ Mocks.priority r)%Z ∧ r ≠ b)
    ∧ (∀ req a b,
         Mocks.enabled a = true -> Mocks.enabled b = true ->
         matchesRequest a req = Ret true -> matchesRequest b req = Ret true ->
         (Mocks.priority b < Mocks.priority a)%Z ->
         findMatchingMock
           (Mocks.loadMocks (Mocks.saveMock (Mocks.saveMock [] a) b)) req
         = Ret (Some a)
         ∧ findMatchingMock
             (Mocks.loadMocks (Mocks.saveMock (Mocks.saveMock [] b) a)) req
           = Ret (Some a)).
Proof.
  intros RegExp_test matchesRequest findMatchingMock.
  split; [|split; [|split]].
  - intros mocks mock. unfold Mocks.saveMock. split; [apply sort_sorted|].
    rewrite sort_Permutation. by rewrite Permutation_app_comm.
  - apply findMatchingMock_first.
  - intros mocks mock req a b result persisted Ha Hb Haon Hbon Hamatch Hbmatch
      Hpriority Hfind.
    destruct (findMatchingMock_highest RegExp_test
                (Mocks.loadMocks persisted) req a result)
      as (r & -> & Hr & Hrmatch & Hle); [..|done|].
    + apply loadMocks_sorted, sort_sorted.
    + by apply list_elem_of_filter.
    + done.
    + apply list_elem_of_filter in Hr as [Hron Hr].
      exists r. repeat split; try done. intros ->. lia.
  - intros req a b Haon Hbon Hamatch Hbmatch Hpriority.
    assert (Mocks.saveMock (Mocks.saveMock [] a) b = [a; b]) as ->.
    { unfold Mocks.saveMock. simpl.
      destruct (Mocks.compareMocks a b <=? 0)%Z eqn:Hcompare; [done|].
      apply compareMocks_after in Hcompare.
      unfold Mocks.before in Hcompare. lia. }
    assert (Mocks.saveMock (Mocks.saveMock [] b) a = [a; b]) as ->.
    { unfold Mocks.saveMock. simpl.
      destruct (Mocks.compareMocks b a <=? 0)%Z eqn:Hcompare; [|done].
      apply compareMocks_before in Hcompare.
      unfold Mocks.before in Hcompare. lia. }
    unfold Mocks.loadMocks. rewrite !filter_cons, filter_nil.
    rewrite !decide_True by done.
    subst findMatchingMock matchesRequest. simpl. by rewrite Hamatch.
Qed.

Lemma registration_order_is_irrelevant_witness :
  Mocks.findMatchingMock Samples.rejectAll
    (Mocks.loadMocks
       (Mocks.saveMock (Mocks.saveMock [] Samples.routineRule) Samples.urgentRule))
    Samples.getIncidents
  = Ret (Some Samples.urgentRule).
Proof.
  apply (proj2 (proj2 (proj2 (registration_order_is_irrelevant Samples.rejectAll)))
           Samples.getIncidents Samples.urgentRule Samples.routineRule);
    by vm_compute.
Defined.

(** C8. The persisted rule list does not stay sorted: [editMock] writes a
    changed priority back without sorting again (as [saveMock] does).  With
    the rules of priority 10 and 5 registered and the first one then edited
    to priority 1, the list is out of order and the scan selects the edited
    rule, although the other rule matches the same request with a higher
    priority. *)
Theorem edited_priority_is_not_resorted :
  let registered :=
    Mocks.saveMock (Mocks.saveMock [] Samples.routineRule) Samples.urgentRule in
  let edited := Mocks.editMockPriority registered 0 1 in
  let demoted := Mocks.withPriority 1 Samples.urgentRule in
  registered = [Samples.urgentRule; Samples.routineRule]
  ∧ edited = [demoted; Samples.routineRule]
  ∧ ¬ StronglySorted Mocks.before edited
  ∧ Mocks.matchesRequest Samples.rejectAll demoted Samples.getIncidents
    = Ret true
  ∧ Mocks.matchesRequest Samples.rejectAll Samples.routineRule
      Samples.getIncidents = Ret true
  ∧ (Mocks.priority demoted < Mocks.priority Samples.routineRule)%Z
  ∧ Mocks.findMatchingMock Samples.rejectAll (Mocks.loadMocks edited)
      Samples.getIncidents = Ret (Some demoted).
Proof.
  repeat split; try by vm_compute.
  intros [Hhead _]%StronglySorted_cons.
  apply Forall_cons in Hhead as [Hbefore _].
  unfold Mocks.before in Hbefore. simpl in Hbefore. lia.
Qed.

(** C9. A rule with query constraints matches a request exactly when every
    constraint key is present in the request's query with a non-empty value
    that is either the expected value itself or, for the key [$select] only,
    a field list holding a key field where the expected list holds one too.
    So every key other than [$select] must match exactly, and a rule whose
    [$select] lists [incidentid] matches a request whose [$select] lists
    [incidentid], whatever else the two field lists hold. *)
Theorem query_constraints_matching :
  ∀ (entries : list (string * string)) (reqQueryParams : gmap string string),
    (Mocks.matchesQueryParams (Some entries) reqQueryParams = true ↔
     ∀ key mockValue, (key, mockValue) ∈ entries ->
       ∃ reqValue,
         reqQueryParams !! key = Some reqValue
         ∧ reqValue ≠ ""
         ∧ (reqValue = mockValue
            ∨ key = "$select"
              ∧ Mocks.hasKeyFields (Mocks.fieldsOf mockValue) = true
              ∧ Mocks.hasKeyFields (Mocks.fieldsOf reqValue) = true))
    ∧ (∀ value, "incidentid" ∈ Mocks.fieldsOf value ->
         Mocks.hasKeyFields (Mocks.fieldsOf value) = true)
    ∧ Mocks.matchesQueryParams
        (Some [("$select", "incidentid,title"); ("$top", "5")])
        Samples.incidentsQuery = true.
Proof.
  intros entries reqQueryParams. rewrite matchesQueryParams_entries.
  split; [|split; [|by vm_compute]].
  - induction entries as [|[k v] entries IH]; simpl.
    { split; [by intros _ ? ? ?%elem_of_nil|done]. }
    destruct (reqQueryParams !! k) as [reqValue|] eqn:Hlookup.
    2:{ split; [done|]. intros Hall.
        destruct (Hall k v) as (reqValue & Hsome & _); [by left|].
        congruence. }
    destruct reqValue as [|c reqValue]; simpl.
    { split; [done|]. intros Hall.
      destruct (Hall k v) as (reqValue & Hsome & Hnonempty & _); [by left|].
      congruence. }
    set (relaxed := bool_decide (k = "$select")
                    && Mocks.hasKeyFields (Mocks.fieldsOf v)
                    && Mocks.hasKeyFields (Mocks.fieldsOf (String c reqValue))).
    assert (Mocks.matchesEntries entries reqQueryParams = true ->
            (String c reqValue = v
             ∨ k = "$select"
               ∧ Mocks.hasKeyFields (Mocks.fieldsOf v) = true
               ∧ Mocks.hasKeyFields (Mocks.fieldsOf (String c reqValue)) = true) ->
            ∀ key mockValue, (key, mockValue) ∈ (k, v) :: entries ->
              ∃ reqValue0,
                reqQueryParams !! key = Some reqValue0 ∧ reqValue0 ≠ ""
                ∧ (reqValue0 = mockValue
                   ∨ key = "$select"
                     ∧ Mocks.hasKeyFields (Mocks.fieldsOf mockValue) = true
                     ∧ Mocks.hasKeyFields (Mocks.fieldsOf reqValue0) = true))
      as Hbuild.
    { intros Hrest Hhead key mockValue [[= -> ->]|Hin]%elem_of_cons.
      - by exists (String c reqValue).
      - by apply IH. }
    split.
    + destruct relaxed eqn:Hrelaxed.
      * intros Hrest. apply Hbuild; [done|]. right.
        subst relaxed.
        apply andb_true_iff in Hrelaxed as [[Hk Hmock]%andb_true_iff Hreq].
        by apply bool_decide_eq_true in Hk.
      * case_bool_decide as Hv; [done|].
        intros Hrest. apply Hbuild; [done|]. left.
        by destruct (decide (v = String c reqValue)) as [->|].
    + intros Hall.
      assert (Mocks.matchesEntries entries reqQueryParams = true) as Hrest.
      { apply IH. intros key mockValue Hin. apply Hall. by right. }
      destruct (Hall k v) as (reqValue0 & Hsome & _ & Hhead); [by left|].
      rewrite Hlookup in Hsome. injection Hsome as <-.
      destruct relaxed eqn:Hrelaxed; [done|].
      destruct Hhead as [<-|(-> & Hmock & Hreq)].
      * by rewrite bool_decide_eq_false_2 by auto.
      * subst relaxed. by rewrite Hmock, Hreq in Hrelaxed.
  - intros value Hfield. unfold Mocks.hasKeyFields, Mocks.keyFields. simpl.
    by rewrite bool_decide_eq_true_2.
Qed.

Lemma query_constraints_matching_witness :
  ∃ reqValue,
    Samples.incidentsQuery !! "$top" = Some reqValue
    ∧ reqValue ≠ ""
    ∧ (reqValue = "5"
       ∨ "$top" = "$select"
         ∧ Mocks.hasKeyFields (Mocks.fieldsOf "5") = true
         ∧ Mocks.hasKeyFields (Mocks.fieldsOf reqValue) = true).
Proof.
  apply (proj1 (proj1 (query_constraints_matching
                         [("$select", "incidentid,title"); ("$top", "5")]
                         Samples.incidentsQuery))).
  - by vm_compute.
  - right. left.
Defined.

(** * Further properties of the rule store and the matcher *)

Section Matcher.
Import Mocks.

Lemma upperChar_idempotent c : upperChar (upperChar c) = upperChar c.
Proof. by destruct c as [[] [] [] [] [] [] [] []]. Qed.

Lemma toUpperCase_idempotent s : toUpperCase (toUpperCase s) = toUpperCase s.
Proof.
  induction s as [|c s IH]; simpl; [done|].
  by rewrite upperChar_idempotent, IH.
Qed.

Lemma includes_false_splitFirst s pat :
  includes s pat = false -> splitFirst pat s = None.
Proof. unfold includes. by destruct (splitFirst pat s). Qed.

(** The path of a stored endpoint is what stands before its first question
    mark, whichever branch [matchesRequest] takes. *)
Lemma mockPath_beforeQuestionMark e :
  (if includes e "?" then beforeQuestionMark e else e) = beforeQuestionMark e.
Proof.
  destruct (includes e "?") eqn:He; [done|].
  unfold beforeQuestionMark. by rewrite (includes_false_splitFirst _ _ He).
Qed.

Variable RegExp_test : string -> string -> Outcome bool.
Local Abbreviation matchesRequest := (matchesRequest RegExp_test).
Local Abbreviation findMatchingMock := (findMatchingMock RegExp_test).

(** What the scan over the enabled rules returns. *)
Lemma findMatchingMock_None mocks req :
  findMatchingMock mocks req = Ret None ↔
  Forall (λ m, matchesRequest m req = Ret false) mocks.
Proof.
  induction mocks as [|m mocks IH]; simpl; [by split; [constructor|]|].
  rewrite Forall_cons, <- IH.
  destruct (matchesRequest m req) as [[]|]; simpl; split; (done || by intros [??]
    || by intros ?).
Qed.

End Matcher.

Section ParsedMatcher.
Import Mocks.

Lemma matchesEntries_weaken_parsed entries (q1 q2 : gmap string Parsed.QueryValue) :
  q1 ⊆ q2 ->
  Parsed.matchesEntries entries q1 = Ret true ->
  Parsed.matchesEntries entries q2 = Ret true.
Proof.
  intros Hsub. induction entries as [|[key mockValue] entries IH]; simpl; [done|].
  destruct (q1 !! key) as [[reqValue|]|] eqn:Hkey; [| |done];
    rewrite (lookup_weaken _ _ _ _ Hkey Hsub).
  - destruct (negb (truthy reqValue)); [done|].
    destruct (bool_decide (key = "$select") && _ && _); [done|].
    by destruct (bool_decide (mockValue ≠ reqValue)).
  - done.
Qed.

(** Without an array-valued [$select] the loop over the entries returns. *)
Lemma matchesEntries_returns entries (q : gmap string Parsed.QueryValue) :
  q !! "$select" ≠ Some Parsed.QNested ->
  ∃ matched, Parsed.matchesEntries entries q = Ret matched.
Proof.
  intros Hselect.
  induction entries as [|[key mockValue] entries IH]; simpl; [by eauto|].
  destruct (q !! key) as [[reqValue|]|] eqn:Hkey; [| |by eauto].
  - destruct (negb (truthy reqValue)); [by eauto|].
    destruct (bool_decide (key = "$select") && _ && _); [done|].
    destruct (bool_decide (mockValue ≠ reqValue)); by eauto.
  - case_bool_decide as Hname; [|by eauto]. subst key. by destruct Hselect.
Qed.

Lemma checkQuery_weaken_parsed mock (req1 req2 : Parsed.Request) :
  Parsed.req_query req1 ⊆ Parsed.req_query req2 ->
  Parsed.checkQuery mock req1 = Ret true -> Parsed.checkQuery mock req2 = Ret true.
Proof.
  intros Hsub. unfold Parsed.checkQuery.
  destruct (queryParams (request mock)) as [[|entry entries]|]; [done| |done].
  by apply (matchesEntries_weaken_parsed (entry :: entries)).
Qed.

Lemma checkQuery_returns mock (req : Parsed.Request) :
  Parsed.req_query req !! "$select" ≠ Some Parsed.QNested ->
  ∃ matched, Parsed.checkQuery mock req = Ret matched.
Proof.
  intros Hselect. unfold Parsed.checkQuery.
  destruct (queryParams (request mock)) as [[|entry entries]|]; [by eauto| |by eauto].
  by apply (matchesEntries_returns (entry :: entries)).
Qed.

Variable RegExp_test : string -> string -> Outcome bool.

(** The matcher looks at a request's query only after the method and the
    path have been accepted, and only through [checkQuery]. *)
Lemma matchesRequest_query_parsed mock (req1 req2 : Parsed.Request) :
  Parsed.req_method req1 = Parsed.req_method req2 ->
  Parsed.req_path req1 = Parsed.req_path req2 ->
  (Parsed.checkQuery mock req1 = Ret true -> Parsed.checkQuery mock req2 = Ret true) ->
  (∃ matched, Parsed.checkQuery mock req2 = Ret matched) ->
  (Parsed.matchesRequest RegExp_test mock req1 = Ret true ->
   Parsed.matchesRequest RegExp_test mock req2 = Ret true)
  ∧ (Parsed.matchesRequest RegExp_test mock req1 = Ret false ->
     ∃ matched, Parsed.matchesRequest RegExp_test mock req2 = Ret matched).
Proof.
  intros Hmethod Hpath Hquery Hreturns. unfold Parsed.matchesRequest.
  rewrite <- Hmethod, <- Hpath.
  case_bool_decide; [by eauto|].
  case_bool_decide; [by eauto|].
  destruct (if includes _ "*" then _ else _) as [[]|]; simpl; [by eauto| |done].
  destruct (if includes _ ":" then _ else _) as [[]|]; simpl; by eauto.
Qed.

Lemma findMatchingMock_more_parameters_parsed mocks (req1 req2 : Parsed.Request) r :
  Parsed.req_method req1 = Parsed.req_method req2 ->
  Parsed.req_path req1 = Parsed.req_path req2 ->
  Parsed.req_query req1 ⊆ Parsed.req_query req2 ->
  Parsed.req_query req2 !! "$select" ≠ Some Parsed.QNested ->
  Parsed.findMatchingMock RegExp_test mocks req1 = Ret (Some r) ->
  ∃ r', Parsed.findMatchingMock RegExp_test mocks req2 = Ret (Some r')
        ∧ r' ∈ mocks.
Proof.
  intros Hmethod Hpath Hsub Hselect.
  induction mocks as [|m mocks IH]; simpl; [done|].
  destruct (matchesRequest_query_parsed m req1 req2 Hmethod Hpath
              (checkQuery_weaken_parsed m req1 req2 Hsub)
              (checkQuery_returns m req2 Hselect)) as [Htrue Hfalse].
  destruct (Parsed.matchesRequest RegExp_test m req1) as [[]|]; simpl; [| |done].
  - intros _. rewrite Htrue by done. simpl. exists m. split; [done|]. by left.
  - intros Hrest. destruct Hfalse as [[] ->]; [done| |]; simpl.
    + exists m. split; [done|]. by left.
    + destruct (IH Hrest) as (r' & -> & Hr'). exists r'. split; [done|]. by right.
Qed.

(** On a query of strings the matcher is the one of [Mocks]. *)
Lemma matchesEntries_ofStrings entries (q : gmap string string) :
  Parsed.matchesEntries entries (Parsed.QString <$> q)
  = Ret (matchesEntries entries q).
Proof.
  induction entries as [|[key mockValue] entries IH]; simpl; [done|].
  rewrite lookup_fmap. destruct (q !! key) as [reqValue|]; simpl; [|done].
  destruct (negb (truthy reqValue)); [done|].
  destruct (bool_decide (key = "$select") && _ && _); [done|].
  by destruct (bool_decide (mockValue ≠ reqValue)).
Qed.

Lemma checkQuery_ofStrings mock req :
  Parsed.checkQuery mock (Parsed.ofStrings req) = Ret (checkQuery mock req).
Proof.
  unfold Parsed.checkQuery, checkQuery.
  destruct (queryParams (request mock)) as [[|entry entries]|]; [done| |done].
  apply (matchesEntries_ofStrings (entry :: entries)).
Qed.

Lemma matchesRequest_ofStrings mock req :
  Parsed.matchesRequest RegExp_test mock (Parsed.ofStrings req)
  = matchesRequest RegExp_test mock req.
Proof.
  unfold Parsed.matchesRequest, matchesRequest.
  rewrite checkQuery_ofStrings. simpl.
  case_bool_decide; [done|]. case_bool_decide; [done|].
  destruct (if includes _ "*" then _ else _) as [[]|]; simpl; [done| |done].
  by destruct (if includes _ ":" then _ else _) as [[]|].
Qed.

Lemma findMatchingMock_ofStrings mocks req :
  Parsed.findMatchingMock RegExp_test mocks (Parsed.ofStrings req)
  = findMatchingMock RegExp_test mocks req.
Proof.
  induction mocks as [|m mocks IH]; simpl; [done|].
  rewrite matchesRequest_ofStrings.
  destruct (matchesRequest RegExp_test m req) as [[]|]; simpl; by rewrite ?IH.
Qed.

End ParsedMatcher.



(** With [$select] repeated in the request the larger request is not
    answered: the added key arrives as an array, and a rule that asks for
    [$select] throws where it rejected the request without it. *)
Lemma repeated_select_makes_the_scan_throw :
  Parsed.findMatchingMock Samples.rejectAll
    [Samples.urgentRule; MoreSamples.anyQueryRule]
    {| Parsed.req_method := "get"; Parsed.req_path := "/_api/incidents";
       Parsed.req_query := {[ "$top" := Parsed.QString "5" ]} |}
  = Ret (Some MoreSamples.anyQueryRule)
  ∧ Parsed.findMatchingMock Samples.rejectAll
      [Samples.urgentRule; MoreSamples.anyQueryRule] MoreSamples.repeatedSelect
    = Throw (TypeError "reqValue.split is not a function").
Proof. by vm_compute. Qed.

(** A rule whose stored method is not in upper case answers no request.
    [matchesRequest] compares the stored method with the upper-cased method
    of the request and leaves the stored one as it is, so such a rule is
    rejected before its endpoint is looked at, and the scan passes over
    it. *)
Theorem rule_method_must_be_upper_case :
  ∀ (RegExp_test : string -> string -> Outcome bool) mock,
    Mocks.method (Mocks.request mock)
      ≠ Mocks.toUpperCase (Mocks.method (Mocks.request mock)) ->
    ∀ req,
      Mocks.matchesRequest RegExp_test mock req = Ret false
      ∧ ∀ mocks, Mocks.findMatchingMock RegExp_test (mock :: mocks) req
                 = Mocks.findMatchingMock RegExp_test mocks req.
Proof.
  intros RegExp_test mock Hlower req.
  assert (Mocks.matchesRequest RegExp_test mock req = Ret false) as Hno.
  { unfold Mocks.matchesRequest. case_bool_decide as Hmethod; [done|].
    destruct Hlower.
    by rewrite Hmethod, toUpperCase_idempotent. }
  split; [done|]. intros mocks. simpl. by rewrite Hno.
Qed.

Lemma rule_method_must_be_upper_case_witness :
  Mocks.matchesRequest Samples.rejectAll MoreSamples.lowerCaseRule
    Samples.getIncidents = Ret false
  ∧ ∀ mocks, Mocks.findMatchingMock Samples.rejectAll
               (MoreSamples.lowerCaseRule :: mocks) Samples.getIncidents
             = Mocks.findMatchingMock Samples.rejectAll mocks Samples.getIncidents.
Proof.
  apply (rule_method_must_be_upper_case Samples.rejectAll MoreSamples.lowerCaseRule).
  by vm_compute.
Defined.

Section ExactPaths.
Import Mocks RuleStore.

Lemma matchesRequest_exactPath RegExp_test mock (req : Parsed.Request) :
  exactPath mock = true ->
  Parsed.matchesRequest RegExp_test mock req
  = if bool_decide (method (request mock) = toUpperCase (Parsed.req_method req))
       && bool_decide (mockPathOf mock = Parsed.req_path req)
    then Parsed.checkQuery mock req
    else Ret false.
Proof.
  unfold exactPath, mockPathOf, Parsed.matchesRequest.
  intros [Hstar Hcolon]%andb_true_iff.
  apply negb_true_iff in Hstar, Hcolon.
  rewrite mockPath_beforeQuestionMark, Hstar, Hcolon.
  case_bool_decide; [by rewrite bool_decide_eq_false_2|].
  rewrite (bool_decide_eq_true_2 (method _ = _)) by done.
  by case_bool_decide.
Qed.

End ExactPaths.



(** The query string of a stored endpoint takes no part in matching.  Two
    rules with the same method and the same [queryParams] whose endpoints
    agree up to the first question mark accept exactly the same requests:
    what follows the question mark is cut off before the comparison, and the
    query of the request is compared with [queryParams] only. *)
Theorem endpoint_query_string_is_ignored :
  ∀ (RegExp_test : string -> string -> Outcome bool) mock1 mock2,
    Mocks.method (Mocks.request mock1) = Mocks.method (Mocks.request mock2) ->
    Mocks.queryParams (Mocks.request mock1)
    = Mocks.queryParams (Mocks.request mock2) ->
    Mocks.beforeQuestionMark (Mocks.endpoint (Mocks.request mock1))
    = Mocks.beforeQuestionMark (Mocks.endpoint (Mocks.request mock2)) ->
    ∀ req, Mocks.matchesRequest RegExp_test mock1 req
           = Mocks.matchesRequest RegExp_test mock2 req.
Proof.
  intros RegExp_test mock1 mock2 Hmethod Hquery Hpath req.
  unfold Mocks.matchesRequest, Mocks.checkQuery.
  rewrite Hmethod, Hquery, !mockPath_beforeQuestionMark.
  by rewrite Hpath.
Qed.

Lemma endpoint_query_string_is_ignored_witness :
  Mocks.endpoint (Mocks.request MoreSamples.pastedRule)
  ≠ Mocks.endpoint (Mocks.request MoreSamples.bareRule)
  ∧ ∀ req, Mocks.matchesRequest MoreSamples.brokenEngine MoreSamples.pastedRule req
           = Mocks.matchesRequest MoreSamples.brokenEngine MoreSamples.bareRule req.
Proof.
  split; [done|].
  apply (endpoint_query_string_is_ignored MoreSamples.brokenEngine
           MoreSamples.pastedRule MoreSamples.bareRule);
    vm_compute; reflexivity.
Defined.

(** What the middleware selects from the rule file.  [loadMocks] keeps the
    enabled rules and [findMatchingMock] scans them, so a rule it returns is
    a rule of the file, is enabled and accepts the request; a disabled rule
    is never returned; and it returns null only when every enabled rule of
    the file rejects the request. *)
Theorem selected_rule_is_enabled_and_matches :
  ∀ (RegExp_test : string -> string -> Outcome bool) mocks req result,
    Mocks.findMatchingMock RegExp_test (Mocks.loadMocks mocks) req = Ret result ->
    match result with
    | Some r =>
        r ∈ mocks ∧ Mocks.enabled r = true
        ∧ Mocks.matchesRequest RegExp_test r req = Ret true
    | None =>
        ∀ mock, mock ∈ mocks -> Mocks.enabled mock = true ->
                Mocks.matchesRequest RegExp_test mock req = Ret false
    end.
Proof.
  intros RegExp_test mocks req [r|] Hfind.
  - apply findMatchingMock_first in Hfind as (l1 & l2 & Hsplit & _ & Hr).
    assert (r ∈ Mocks.loadMocks mocks) as [??]%list_elem_of_filter.
    { rewrite Hsplit. apply elem_of_app. right. by left. }
    done.
  - intros mock Hmock Henabled.
    apply findMatchingMock_None in Hfind. rewrite Forall_forall in Hfind.
    apply Hfind. by apply list_elem_of_filter.
Qed.

Lemma selected_rule_is_enabled_and_matches_witness :
  Mocks.findMatchingMock Samples.rejectAll
    (Mocks.loadMocks [MoreSamples.disabledRule; Samples.routineRule])
    Samples.getIncidents = Ret (Some Samples.routineRule)
  ∧ Samples.routineRule ∈ [MoreSamples.disabledRule; Samples.routineRule]
  ∧ Mocks.enabled Samples.routineRule = true
  ∧ Mocks.matchesRequest Samples.rejectAll Samples.routineRule Samples.getIncidents
    = Ret true.
Proof.
  split; [by vm_compute|].
  apply (selected_rule_is_enabled_and_matches Samples.rejectAll
           [MoreSamples.disabledRule; Samples.routineRule] Samples.getIncidents
           (Some Samples.routineRule)).
  by vm_compute.
Defined.

(** ** The writers of the rule list *)

Section StoreWriters.
Import Mocks RuleStore.

(** Putting a rule with the same priority and creation date in the place of
    another keeps the order. *)
Lemma insert_keeps_order mocks index mock mock' :
  mocks !! index = Some mock ->
  priority mock' = priority mock -> createdAt mock' = createdAt mock ->
  StronglySorted before mocks ->
  StronglySorted before (<[index := mock']> mocks).
Proof.
  intros Hlookup Hp Hc. revert index Hlookup.
  induction mocks as [|x mocks IH]; intros [|index] Hlookup;
    simplify_eq/=; try done.
  - intros [Hx Hs]%StronglySorted_cons. apply StronglySorted_cons.
    split; [|done]. eapply Forall_impl; [exact Hx|].
    intros y. unfold before. by rewrite Hp, Hc.
  - intros [Hx Hs]%StronglySorted_cons. apply StronglySorted_cons.
    split; [|by apply IH]. apply Forall_insert; [done|].
    rewrite Forall_forall in Hx.
    specialize (Hx mock (list_elem_of_lookup_2 _ _ _ Hlookup)).
    unfold before in *. by rewrite Hp, Hc.
Qed.

Lemma sublist_keeps_order (l1 l2 : list Mock) :
  l1 `sublist_of` l2 ->
  StronglySorted before l2 -> StronglySorted before l1.
Proof.
  induction 1 as [|x l1 l2 Hsub IH|x l1 l2 Hsub IH]; [done| |].
  - intros [Hx Hs]%StronglySorted_cons. apply StronglySorted_cons.
    split; [|by apply IH]. rewrite Forall_forall in Hx |- *.
    intros y Hy. by apply Hx, (sublist_subseteq _ _ Hsub).
  - intros [_ Hs]%StronglySorted_cons. by apply IH.
Qed.

(** [find] and [findIndex] by identifier stop at the first rule that carries
    it. *)
Lemma findById_split mockId mocks :
  (findById mockId mocks = None ∧ (mockId ∉ id <$> mocks))
  ∨ ∃ l1 r l2,
      mocks = l1 ++ r :: l2 ∧ id r = mockId ∧ (mockId ∉ id <$> l1)
      ∧ findById mockId mocks = Some (length l1, r).
Proof.
  unfold findById. induction mocks as [|m mocks IH]; csimpl.
  { left. split; [done|]. apply not_elem_of_nil. }
  case_decide as Hid.
  { right. exists [], m, mocks. split_and!; [done..|apply not_elem_of_nil|done]. }
  destruct IH as [[-> Hnot]|(l1 & r & l2 & -> & Hr & Hl1 & ->)].
  - left. split; [done|]. rewrite not_elem_of_cons. by split.
  - right. exists (m :: l1), r, l2. split_and!; [done..| |done].
    csimpl. rewrite not_elem_of_cons. by split.
Qed.

Lemma insert_middle {A} (l1 l2 : list A) x y :
  <[length l1 := y]> (l1 ++ x :: l2) = l1 ++ y :: l2.
Proof. by rewrite insert_app_r_alt, Nat.sub_diag by lia. Qed.

Lemma delete_middle {A} (l1 l2 : list A) x :
  delete (length l1) (l1 ++ x :: l2) = l1 ++ l2.
Proof. induction l1 as [|z l1 IH]; simpl; [done|]. by rewrite IH. Qed.

Lemma flipEnabled_involutive mock : flipEnabled (flipEnabled mock) = mock.
Proof. destruct mock as [? ? [] ? ? ?]; reflexivity. Qed.

Lemma toggleRoute_split mocks mockId :
  ((mockId ∉ id <$> mocks) ∧ toggleRoute mocks mockId = (404, mocks))
  ∨ ∃ l1 r l2,
      mocks = l1 ++ r :: l2 ∧ id r = mockId ∧ (mockId ∉ id <$> l1)
      ∧ toggleRoute mocks mockId = (200, l1 ++ flipEnabled r :: l2).
Proof.
  unfold toggleRoute.
  destruct (findById_split mockId mocks)
    as [[-> Hnot]|(l1 & r & l2 & -> & Hr & Hl1 & ->)].
  - by left.
  - right. exists l1, r, l2. by rewrite insert_middle.
Qed.

Lemma deleteRoute_split mocks mockId :
  ((mockId ∉ id <$> mocks) ∧ deleteRoute mocks mockId = (404, mocks))
  ∨ ∃ l1 r l2,
      mocks = l1 ++ r :: l2 ∧ id r = mockId ∧ (mockId ∉ id <$> l1)
      ∧ deleteRoute mocks mockId = (200, l1 ++ l2).
Proof.
  unfold deleteRoute.
  destruct (findById_split mockId mocks)
    as [[-> Hnot]|(l1 & r & l2 & -> & Hr & Hl1 & ->)].
  - by left.
  - right. exists l1, r, l2. by rewrite delete_middle.
Qed.

Lemma middle_keeps_order (l1 l2 : list Mock) r r' :
  priority r' = priority r -> createdAt r' = createdAt r ->
  StronglySorted before (l1 ++ r :: l2) ->
  StronglySorted before (l1 ++ r' :: l2).
Proof.
  intros Hp Hc Hs. rewrite <- (insert_middle l1 l2 r r').
  apply (insert_keeps_order _ _ r); [|done..].
  by rewrite lookup_app_r, Nat.sub_diag by lia.
Qed.

End StoreWriters.

(** The toggle route flips exactly one rule.  [POST /mocks/:id/toggle]
    answers 404 and leaves the file alone when no rule carries the
    identifier; otherwise it answers 200 and flips [enabled] of the first
    rule that carries it, every other rule and the order of the list staying
    as they were.  So a sorted list stays sorted, and toggling the same
    identifier twice restores the file. *)
Theorem toggle_route_flips_first_rule_with_id :
  ∀ mocks mockId,
    (((mockId ∉ Mocks.id <$> mocks)
      ∧ RuleStore.toggleRoute mocks mockId = (404, mocks))
     ∨ ∃ l1 r l2,
         mocks = l1 ++ r :: l2 ∧ Mocks.id r = mockId
         ∧ (mockId ∉ Mocks.id <$> l1)
         ∧ RuleStore.toggleRoute mocks mockId
           = (200, l1 ++ RuleStore.flipEnabled r :: l2))
    ∧ (RuleStore.toggleRoute (RuleStore.toggleRoute mocks mockId).2 mockId).2
      = mocks
    ∧ (StronglySorted Mocks.before mocks ->
       StronglySorted Mocks.before (RuleStore.toggleRoute mocks mockId).2).
Proof.
  intros mocks mockId. split; [apply toggleRoute_split|].
  destruct (toggleRoute_split mocks mockId)
    as [[Hnot Hroute]|(l1 & r & l2 & -> & Hr & Hl1 & Hroute)];
    rewrite Hroute; simpl.
  - by rewrite Hroute.
  - split; [|by apply middle_keeps_order].
    destruct (toggleRoute_split (l1 ++ RuleStore.flipEnabled r :: l2) mockId)
      as [[Hnot _]|(k1 & s & k2 & Hsplit & Hs & Hk1 & ->)].
    { destruct Hnot. rewrite fmap_app, elem_of_app. right. csimpl.
      rewrite <- Hr. by left. }
    simpl.
    assert (k1 = l1 ∧ s = RuleStore.flipEnabled r ∧ k2 = l2) as (-> & -> & ->).
    { assert (length l1 = length k1) as Hlen.
      { destruct (decide (length l1 = length k1)) as [|Hne]; [done|].
        destruct (decide (length l1 < length k1)).
        - destruct Hk1. apply list_elem_of_fmap.
          exists (RuleStore.flipEnabled r). split; [by rewrite <- Hr|].
          apply list_elem_of_lookup. exists (length l1).
          assert ((l1 ++ RuleStore.flipEnabled r :: l2) !! length l1
                  = Some (RuleStore.flipEnabled r)) as Hat.
          { by rewrite lookup_app_r, Nat.sub_diag by lia. }
          rewrite Hsplit, lookup_app_l in Hat by lia. done.
        - destruct Hl1. apply list_elem_of_fmap.
          exists s. split; [done|].
          apply list_elem_of_lookup. exists (length k1).
          assert ((k1 ++ s :: k2) !! length k1 = Some s) as Hat.
          { by rewrite lookup_app_r, Nat.sub_diag by lia. }
          rewrite <- Hsplit, lookup_app_l in Hat by lia. done. }
      apply app_inj_1 in Hsplit as [-> [= -> ->]]; done. }
    by rewrite flipEnabled_involutive.
Qed.

Lemma toggle_route_flips_first_rule_with_id_witness :
  StronglySorted Mocks.before
    (RuleStore.toggleRoute [Samples.urgentRule; Samples.routineRule] "b2").2.
Proof.
  apply (proj2 (proj2 (toggle_route_flips_first_rule_with_id
                         [Samples.urgentRule; Samples.routineRule] "b2"))).
  repeat constructor; vm_compute; left; reflexivity.
Defined.

(** Deleting by identifier removes exactly one rule.  [DELETE /mocks/:id]
    answers 404 and leaves the file alone when no rule carries the
    identifier; otherwise it answers 200 and removes the first rule that
    carries it, the other rules keeping their order, so that a sorted list
    stays sorted.  When the identifiers of the file are distinct the
    identifier is gone afterwards. *)
Theorem delete_route_removes_first_rule_with_id :
  ∀ mocks mockId,
    (((mockId ∉ Mocks.id <$> mocks)
      ∧ RuleStore.deleteRoute mocks mockId = (404, mocks))
     ∨ ∃ l1 r l2,
         mocks = l1 ++ r :: l2 ∧ Mocks.id r = mockId
         ∧ (mockId ∉ Mocks.id <$> l1)
         ∧ RuleStore.deleteRoute mocks mockId = (200, l1 ++ l2))
    ∧ (StronglySorted Mocks.before mocks ->
       StronglySorted Mocks.before (RuleStore.deleteRoute mocks mockId).2)
    ∧ (NoDup (Mocks.id <$> mocks) ->
       mockId ∉ Mocks.id <$> (RuleStore.deleteRoute mocks mockId).2).
Proof.
  intros mocks mockId. split; [apply deleteRoute_split|].
  destruct (deleteRoute_split mocks mockId)
    as [[Hnot Hroute]|(l1 & r & l2 & -> & Hr & Hl1 & Hroute)];
    rewrite Hroute; simpl; [done|].
  split.
  - apply sublist_keeps_order, sublist_app; [done|]. by apply sublist_cons.
  - rewrite !fmap_app, fmap_cons, Hr.
    intros (_ & _ & Hnodup)%NoDup_app. apply NoDup_cons in Hnodup as [Hl2 _].
    rewrite elem_of_app. by intros [?|?].
Qed.

Lemma delete_route_removes_first_rule_with_id_witness :
  StronglySorted Mocks.before
    (RuleStore.deleteRoute [Samples.urgentRule; Samples.routineRule] "a1").2
  ∧ ("a1" ∉ Mocks.id <$>
       (RuleStore.deleteRoute [Samples.urgentRule; Samples.routineRule] "a1").2).
Proof.
  split.
  - apply (proj1 (proj2 (delete_route_removes_first_rule_with_id
                           [Samples.urgentRule; Samples.routineRule] "a1"))).
    repeat constructor; vm_compute; left; reflexivity.
  - apply (proj2 (proj2 (delete_route_removes_first_rule_with_id
                           [Samples.urgentRule; Samples.routineRule] "a1"))).
    by apply (bool_decide_unpack _).
Defined.

Section Positions.
Import Mocks RuleStore.

Lemma descending_before (a b : nat) :
  (descending a b <=? 0)%Z = true ↔ b ≤ a.
Proof. unfold descending. rewrite Z.leb_le. lia. Qed.

Lemma insertSorted_descending x l :
  StronglySorted ge l -> StronglySorted ge (insertSorted descending x l).
Proof.
  induction l as [|y l IH]; simpl.
  - intros _. by repeat constructor.
  - intros [Hy Hl]%StronglySorted_cons.
    destruct (descending x y <=? 0)%Z eqn:Hcompare.
    + apply descending_before in Hcompare.
      apply StronglySorted_cons. split.
      * constructor; [done|].
        eapply Forall_impl; [exact Hy|]. intros z Hz. unfold ge in *. lia.
      * by apply StronglySorted_cons.
    + assert (x ≤ y) as Hle.
      { destruct (decide (x ≤ y)) as [|Hgt]; [done|].
        assert (y ≤ x) as Hyx%descending_before by lia. congruence. }
      apply StronglySorted_cons. split; [|by apply IH].
      rewrite insertSorted_Permutation. by constructor.
Qed.

Lemma sort_descending l : StronglySorted ge (sort descending l).
Proof.
  induction l as [|x l IH]; simpl; [constructor|].
  by apply insertSorted_descending.
Qed.

Lemma keptFrom_cons k mockIndexes x mocks :
  keptFrom k mockIndexes (x :: mocks)
  = if decide (k ∉ mockIndexes) then x :: keptFrom (S k) mockIndexes mocks
    else keptFrom (S k) mockIndexes mocks.
Proof.
  unfold keptFrom. simpl. rewrite filter_cons. simpl. by case_decide.
Qed.

Lemma keptFrom_below k mockIndexes mocks :
  Forall (λ index, index < k) mockIndexes ->
  keptFrom k mockIndexes mocks = mocks.
Proof.
  intros Hbelow. revert k Hbelow.
  induction mocks as [|x mocks IH]; intros k Hbelow; [done|].
  rewrite keptFrom_cons, IH.
  - case_decide as Hk; [done|].
    rewrite Forall_forall in Hbelow. specialize (Hbelow _ Hk). lia.
  - eapply Forall_impl; [exact Hbelow|]. simpl. lia.
Qed.

Lemma keptFrom_delete k a rest mocks :
  Forall (λ index, index < a) rest -> k ≤ a ->
  keptFrom k rest (delete (a - k) mocks) = keptFrom k (a :: rest) mocks.
Proof.
  intros Hrest. revert k.
  induction mocks as [|x mocks IH]; intros k Hk; [done|].
  rewrite (keptFrom_cons _ (a :: rest)).
  destruct (decide (a = k)) as [->|Hne].
  - rewrite Nat.sub_diag. simpl.
    rewrite decide_False by (intros Hnot; apply Hnot; by left).
    rewrite !keptFrom_below; [done| |done].
    constructor; [lia|]. eapply Forall_impl; [exact Hrest|]. simpl. lia.
  - replace (a - k) with (S (a - S k)) by lia. simpl.
    rewrite keptFrom_cons, IH by lia.
    destruct (decide (k ∉ rest)) as [Hin|Hin].
    + rewrite decide_True; [done|]. rewrite not_elem_of_cons. by split.
    + rewrite decide_False; [done|]. rewrite not_elem_of_cons. by intros [_ ?].
Qed.

Lemma spliceEach_descending mockIndexes mocks :
  StronglySorted ge mockIndexes -> NoDup mockIndexes ->
  spliceEach mocks mockIndexes = withoutPositions mockIndexes mocks.
Proof.
  unfold spliceEach. change (withoutPositions mockIndexes mocks)
    with (keptFrom 0 mockIndexes mocks).
  intros Hsorted. revert mocks.
  induction Hsorted as [|a rest Hsorted IH Ha]; intros mocks Hnodup; simpl.
  { by rewrite keptFrom_below. }
  apply NoDup_cons in Hnodup as [Hnot Hnodup].
  rewrite IH by done.
  rewrite <- (keptFrom_delete 0 a rest mocks), Nat.sub_0_r; [done| |lia].
  rewrite Forall_forall in Ha |- *. intros index Hindex.
  specialize (Ha _ Hindex). unfold ge in Ha.
  assert (index ≠ a) by (by intros ->). lia.
Qed.

Lemma withoutPositions_Permutation idx1 idx2 mocks :
  idx1 ≡ₚ idx2 -> withoutPositions idx1 mocks = withoutPositions idx2 mocks.
Proof.
  intros Hperm. unfold withoutPositions, keptFrom. f_equal.
  apply list_filter_iff. intros entry. by rewrite Hperm.
Qed.

Lemma withoutPositions_sublist mockIndexes mocks :
  withoutPositions mockIndexes mocks `sublist_of` mocks.
Proof.
  unfold withoutPositions, keptFrom.
  pose proof (fmap_sublist snd _ _
                (sublist_filter (λ entry : nat * Mock, entry.1 ∉ mockIndexes)
                   (zip (seq 0 (length mocks)) mocks))) as Hsub.
  by rewrite (snd_zip (seq 0 (length mocks)) mocks) in Hsub
    by (rewrite length_seq; lia).
Qed.

Lemma deleteMock_positions mocks mockIndexes :
  NoDup mockIndexes ->
  deleteMock mocks mockIndexes true = withoutPositions mockIndexes mocks.
Proof.
  intros Hnodup. unfold deleteMock.
  destruct mocks as [|mock mocks]; [done|].
  destruct mockIndexes as [|index mockIndexes].
  { change (withoutPositions [] (mock :: mocks))
      with (keptFrom 0 [] (mock :: mocks)).
    by rewrite keptFrom_below. }
  rewrite spliceEach_descending.
  - apply withoutPositions_Permutation, sort_Permutation.
  - apply sort_descending.
  - by rewrite sort_Permutation.
Qed.

End Positions.

(** Deleting in the manager removes the chosen positions.  [deleteMock]
    sorts the chosen indexes in descending order before it splices, so no
    removal shifts a position that is still to be removed: with distinct
    indexes the list written back holds exactly the rules at the positions
    that were not chosen, in their order, and a sorted list stays sorted.
    Without the confirmation nothing is removed. *)
Theorem delete_mock_removes_chosen_positions :
  ∀ mocks mockIndexes,
    NoDup mockIndexes ->
    RuleStore.deleteMock mocks mockIndexes true
    = RuleStore.withoutPositions mockIndexes mocks
    ∧ RuleStore.deleteMock mocks mockIndexes false = mocks
    ∧ (StronglySorted Mocks.before mocks ->
       StronglySorted Mocks.before (RuleStore.deleteMock mocks mockIndexes true)).
Proof.
  intros mocks mockIndexes Hnodup. split; [by apply deleteMock_positions|].
  split.
  - unfold RuleStore.deleteMock. by destruct mocks, mockIndexes.
  - rewrite deleteMock_positions by done.
    apply sublist_keeps_order, withoutPositions_sublist.
Qed.

Lemma delete_mock_removes_chosen_positions_witness :
  RuleStore.deleteMock
    [Samples.urgentRule; MoreSamples.lowerCaseRule; Samples.routineRule;
     MoreSamples.bareRule] [0; 2] true
  = [MoreSamples.lowerCaseRule; MoreSamples.bareRule].
Proof.
  assert (NoDup [0; 2]) as Hnodup.
  { apply NoDup_cons. split; [|apply NoDup_singleton].
    by intros ?%list_elem_of_singleton. }
  exact (proj1 (delete_mock_removes_chosen_positions
                  [Samples.urgentRule; MoreSamples.lowerCaseRule;
                   Samples.routineRule; MoreSamples.bareRule] [0; 2] Hnodup)).
Defined.

Section Toggling.
Import Mocks RuleStore.

Lemma keys_keep_order (l1 l2 : list Mock) :
  Forall2 (λ a b, priority a = priority b ∧ createdAt a = createdAt b) l1 l2 ->
  StronglySorted before l1 -> StronglySorted before l2.
Proof.
  induction 1 as [|a b l1 l2 [Hp Hc] Hrest IH]; [done|].
  intros [Ha Hs]%StronglySorted_cons. apply StronglySorted_cons.
  split; [|by apply IH].
  clear IH Hs. induction Hrest as [|x y l1 l2 [Hpx Hcx] Hrest IH]; [done|].
  apply Forall_cons in Ha as [Hax Ha]. constructor; [|by apply IH].
  unfold before in *. by rewrite <- Hp, <- Hc, <- Hpx, <- Hcx.
Qed.

Lemma toggledAt_lookup mockIndexes mocks k :
  toggledAt mockIndexes mocks !! k
  = (λ mock, if bool_decide (k ∈ mockIndexes) then flipEnabled mock else mock)
      <$> mocks !! k.
Proof. unfold toggledAt. by rewrite list_lookup_imap. Qed.

Lemma toggledAt_length mockIndexes mocks :
  length (toggledAt mockIndexes mocks) = length mocks.
Proof. unfold toggledAt. by rewrite length_imap. Qed.

Lemma toggledAt_keeps_order mockIndexes mocks :
  StronglySorted before mocks ->
  StronglySorted before (toggledAt mockIndexes mocks).
Proof.
  apply keys_keep_order, Forall2_same_length_lookup.
  split; [by rewrite toggledAt_length|].
  intros k a b Ha. rewrite toggledAt_lookup, Ha. intros [= <-].
  by case_bool_decide.
Qed.

Lemma toggledAt_involutive mockIndexes mocks :
  toggledAt mockIndexes (toggledAt mockIndexes mocks) = mocks.
Proof.
  apply list_eq. intros k. rewrite !toggledAt_lookup.
  destruct (mocks !! k) as [mock|]; [simpl|done].
  case_bool_decide; [|done]. by rewrite flipEnabled_involutive.
Qed.

Lemma toggleEach_toggledAt mockIndexes mocks :
  NoDup mockIndexes ->
  Forall (λ index, index < length mocks) mockIndexes ->
  toggleEach mocks mockIndexes = Some (toggledAt mockIndexes mocks).
Proof.
  intros Hnodup. revert mocks.
  induction Hnodup as [|index rest Hnot Hnodup IH]; intros mocks Hrange; simpl.
  { f_equal. apply list_eq. intros k. rewrite toggledAt_lookup.
    by destruct (mocks !! k). }
  apply Forall_cons in Hrange as [Hindex Hrange].
  destruct (lookup_lt_is_Some_2 mocks index Hindex) as [mock Hmock].
  unfold toggleAt. rewrite Hmock. simpl.
  rewrite IH by (by rewrite length_insert). f_equal.
  apply list_eq. intros k. rewrite !toggledAt_lookup.
  destruct (decide (k = index)) as [->|Hne].
  - rewrite list_lookup_insert_eq, Hmock by done. simpl.
    rewrite bool_decide_eq_false_2 by done.
    rewrite bool_decide_eq_true_2; [done|]. by left.
  - rewrite list_lookup_insert_ne by done.
    destruct (mocks !! k); [simpl|done]. f_equal.
    destruct (decide (k ∈ rest)).
    + rewrite !bool_decide_eq_true_2; [done|by right|done].
    + rewrite !bool_decide_eq_false_2; [done| |done].
      rewrite not_elem_of_cons. by split.
Qed.

Lemma toggleEach_out_of_range mockIndexes mocks :
  ¬ Forall (λ index, index < length mocks) mockIndexes ->
  toggleEach mocks mockIndexes = None.
Proof.
  revert mocks. induction mockIndexes as [|index rest IH]; intros mocks Hrange.
  { destruct Hrange. constructor. }
  simpl. unfold toggleAt.
  destruct (mocks !! index) as [mock|] eqn:Hmock; [simpl|done].
  apply IH. rewrite length_insert. intros Hrest. apply Hrange.
  constructor; [|done]. by eapply lookup_lt_Some.
Qed.

Lemma toggleMock_toggleEach mocks mockIndexes :
  mocks ≠ [] -> toggleMock mocks mockIndexes = toggleEach mocks mockIndexes.
Proof. intros Hmocks. by destruct mocks, mockIndexes. Qed.

End Toggling.

(** Toggling in the manager flips the chosen positions.  With distinct
    indexes that all name a rule, [toggleMock] writes back the list in which
    exactly the rules at the chosen positions have [enabled] flipped and
    nothing else has changed; toggling the same positions again restores the
    list, and a sorted list stays sorted.  An index that names no rule makes
    it throw before anything is written. *)
Theorem toggle_mock_flips_chosen_positions :
  ∀ mocks mockIndexes,
    (NoDup mockIndexes ->
     Forall (λ index, index < length mocks) mockIndexes ->
     RuleStore.toggleMock mocks mockIndexes
     = Some (RuleStore.toggledAt mockIndexes mocks)
     ∧ RuleStore.toggleMock (RuleStore.toggledAt mockIndexes mocks) mockIndexes
       = Some mocks
     ∧ (StronglySorted Mocks.before mocks ->
        StronglySorted Mocks.before (RuleStore.toggledAt mockIndexes mocks)))
    ∧ (mocks ≠ [] ->
       ¬ Forall (λ index, index < length mocks) mockIndexes ->
       RuleStore.toggleMock mocks mockIndexes = None).
Proof.
  intros mocks mockIndexes. split.
  - intros Hnodup Hrange.
    assert (∀ l, length l = length mocks ->
                 RuleStore.toggleMock l mockIndexes
                 = Some (RuleStore.toggledAt mockIndexes l)) as Hspec.
    { intros l Hlen. destruct l as [|x l].
      - destruct mocks; [|done]. by destruct mockIndexes.
      - rewrite toggleMock_toggleEach by done.
        apply toggleEach_toggledAt; [done|]. by rewrite Hlen. }
    split; [by apply Hspec|]. split; [|apply toggledAt_keeps_order].
    rewrite Hspec by apply toggledAt_length.
    by rewrite toggledAt_involutive.
  - intros Hmocks Hrange. rewrite toggleMock_toggleEach by done.
    by apply toggleEach_out_of_range.
Qed.

Lemma toggle_mock_flips_chosen_positions_witness :
  RuleStore.toggleMock [Samples.urgentRule; Samples.routineRule] [1]
  = Some [Samples.urgentRule; RuleStore.flipEnabled Samples.routineRule]
  ∧ RuleStore.toggleMock [Samples.urgentRule; Samples.routineRule] [2] = None.
Proof.
  split.
  - exact (proj1 (proj1 (toggle_mock_flips_chosen_positions
                           [Samples.urgentRule; Samples.routineRule] [1])
                        (NoDup_singleton 1)
                        (Forall_cons_2 _ _ _ (le_n 2) (Forall_nil_2 _)))).
  - apply (proj2 (toggle_mock_flips_chosen_positions
                    [Samples.urgentRule; Samples.routineRule] [2])); [done|].
    intros Hrange. apply Forall_cons in Hrange as [Hlt _]. simpl in Hlt. lia.
Defined.

(** An import leaves the rule list sorted.  [importMocks] sorts what it
    writes with the comparison of [saveMock]: after a replace the file holds
    the imported rules, after a merge every existing rule and every imported
    rule under its fresh identifier, in both cases in priority order,
    whatever the order of the file was before.  An import without rules and
    a cancelled one leave the file alone, also in replace mode. *)
Theorem import_leaves_rules_sorted :
  ∀ (generateMockId : nat -> string) existingMocks importedMocks,
    (∀ importMode,
       RuleStore.importMocks generateMockId existingMocks [] importMode
       = existingMocks)
    ∧ RuleStore.importMocks generateMockId existingMocks importedMocks
        RuleStore.cancel = existingMocks
    ∧ (importedMocks ≠ [] ->
       StronglySorted Mocks.before
         (RuleStore.importMocks generateMockId existingMocks importedMocks
            RuleStore.replace)
       ∧ RuleStore.importMocks generateMockId existingMocks importedMocks
           RuleStore.replace ≡ₚ importedMocks
       ∧ StronglySorted Mocks.before
           (RuleStore.importMocks generateMockId existingMocks importedMocks
              RuleStore.merge)
       ∧ RuleStore.importMocks generateMockId existingMocks importedMocks
           RuleStore.merge
         ≡ₚ existingMocks
            ++ imap (λ k mock, RuleStore.withId (generateMockId k) mock)
                    importedMocks).
Proof.
  intros generateMockId existingMocks importedMocks.
  split; [by intros []|]. split; [by destruct importedMocks|].
  intros Himported. destruct importedMocks as [|mock importedMocks]; [done|].
  unfold RuleStore.importMocks.
  split_and!; (apply sort_sorted || apply sort_Permutation).
Qed.

Lemma import_leaves_rules_sorted_witness :
  RuleStore.importMocks (λ k, "fresh") [Samples.routineRule]
    [MoreSamples.lowerCaseRule; Samples.urgentRule] RuleStore.merge
  = [RuleStore.withId "fresh" Samples.urgentRule;
     RuleStore.withId "fresh" MoreSamples.lowerCaseRule;
     Samples.routineRule]
  ∧ StronglySorted Mocks.before
      (RuleStore.importMocks (λ k, "fresh") [Samples.routineRule]
         [MoreSamples.lowerCaseRule; Samples.urgentRule] RuleStore.merge).
Proof.
  split; [by vm_compute|].
  apply (proj1 (proj2 (proj2 (proj2 (proj2 (import_leaves_rules_sorted
           (λ k, "fresh") [Samples.routineRule]
           [MoreSamples.lowerCaseRule; Samples.urgentRule]))
           ltac:(discriminate))))).
Defined.

(** ** Statistics *)

Section Statistics.
Import Mocks RuleStore.

Lemma list_find_split {A} (P : A -> Prop) `{!∀ x, Decision (P x)} (l : list A) :
  (list_find P l = None ∧ Forall (λ x, ¬ P x) l)
  ∨ ∃ l1 x l2,
      l = l1 ++ x :: l2 ∧ P x ∧ Forall (λ y, ¬ P y) l1
      ∧ list_find P l = Some (length l1, x).
Proof.
  induction l as [|y l IH]; csimpl; [by left|].
  case_decide as Hy.
  { right. by exists [], y, l. }
  destruct IH as [[-> Hnot]|(l1 & x & l2 & -> & Hx & Hl1 & ->)].
  - left. by split; [|constructor].
  - right. exists (y :: l1), x, l2. by split_and!; [..|constructor|].
Qed.

Lemma totalHits_from (a : nat) mocks :
  foldl (λ sum mock, sum + hits mock) a mocks = a + sum_list_with hits mocks.
Proof.
  revert a. induction mocks as [|mock mocks IH]; intros a; simpl; [lia|].
  rewrite IH. lia.
Qed.

Lemma updateMockStats_split now mockId mocks :
  ((mockId ∉ id ∘ rule <$> mocks) ∧ updateMockStats now mockId mocks = mocks)
  ∨ ∃ l1 mock l2,
      mocks = l1 ++ mock :: l2 ∧ id (rule mock) = mockId
      ∧ (mockId ∉ id ∘ rule <$> l1)
      ∧ updateMockStats now mockId mocks
        = l1 ++ {| rule := rule mock; hitCount := Some (hits mock + 1);
                   lastUsed := Some now |} :: l2.
Proof.
  unfold updateMockStats.
  destruct (list_find_split (λ mock, id (rule mock) = mockId) mocks)
    as [[-> Hnot]|(l1 & mock & l2 & -> & Hmock & Hl1 & ->)].
  - left. split; [|done]. rewrite list_elem_of_fmap. intros (mock & -> & Hin).
    rewrite Forall_forall in Hnot. by apply (Hnot mock).
  - right. exists l1, mock, l2. rewrite insert_middle. split_and!; [done..| |done].
    rewrite list_elem_of_fmap. intros (other & -> & Hin).
    rewrite Forall_forall in Hl1. by apply (Hl1 other).
Qed.

Lemma length_filter_negb {A} (p : A -> bool) (l : list A) :
  length l = length (filter (λ x, p x = true) l)
             + length (filter (λ x, negb (p x) = true) l).
Proof.
  induction l as [|x l IH]; [done|]. rewrite !filter_cons.
  destruct (p x) eqn:Hp; repeat case_decide; simplify_eq/=; lia.
Qed.

End Statistics.

Section Counting.
Import Mocks RuleStore.

Lemma updateMockStats_rules now mockId mocks :
  rule <$> updateMockStats now mockId mocks = rule <$> mocks.
Proof.
  destruct (updateMockStats_split now mockId mocks)
    as [[_ ->]|(l1 & mock & l2 & -> & _ & _ & ->)]; [done|].
  by rewrite !fmap_app.
Qed.

Lemma updateMockStats_totalHits now mockId mocks :
  totalHits (getStats (updateMockStats now mockId mocks))
  = totalHits (getStats mocks)
    + (if bool_decide (mockId ∈ (λ mock, id (rule mock)) <$> mocks)
       then 1 else 0).
Proof.
  unfold getStats. simpl. rewrite !totalHits_from.
  destruct (updateMockStats_split now mockId mocks)
    as [[Hnot ->]|(l1 & mock & l2 & -> & Hid & _ & ->)].
  - rewrite bool_decide_eq_false_2 by done. lia.
  - rewrite bool_decide_eq_true_2.
    + rewrite !sum_list_with_app. simpl. unfold hits. simpl. lia.
    + rewrite fmap_app, elem_of_app. right. csimpl. rewrite Hid. by left.
Qed.

End Counting.

(** The statistics of the rule file.  [getStats] counts every rule as
    enabled or as disabled, so the two counts add up to the total.
    [updateMockStats] changes no rule: it adds one hit when a rule carries
    the identifier (to the first such rule) and nothing otherwise, so the
    total of the hits grows by one or stays.  After [clear-stats] the total
    of the hits is zero and the rules are as before. *)
Theorem hit_statistics_are_consistent :
  ∀ now mockId mocks,
    RuleStore.total (RuleStore.getStats mocks)
    = RuleStore.enabledCount (RuleStore.getStats mocks)
      + RuleStore.disabledCount (RuleStore.getStats mocks)
    ∧ RuleStore.totalHits
        (RuleStore.getStats (RuleStore.updateMockStats now mockId mocks))
      = RuleStore.totalHits (RuleStore.getStats mocks)
        + (if bool_decide
                (mockId ∈ (λ mock, Mocks.id (RuleStore.rule mock)) <$> mocks)
           then 1 else 0)
    ∧ RuleStore.rule <$> RuleStore.updateMockStats now mockId mocks
      = RuleStore.rule <$> mocks
    ∧ RuleStore.totalHits (RuleStore.getStats (RuleStore.clearStats mocks)) = 0
    ∧ RuleStore.rule <$> RuleStore.clearStats mocks = RuleStore.rule <$> mocks.
Proof.
  intros now mockId mocks. split_and!.
  - apply (length_filter_negb (λ m, Mocks.enabled (RuleStore.rule m))).
  - apply updateMockStats_totalHits.
  - apply updateMockStats_rules.
  - unfold RuleStore.getStats, RuleStore.clearStats. simpl.
    rewrite totalHits_from. induction mocks as [|mock mocks IH]; [done|].
    by rewrite fmap_cons.
  - unfold RuleStore.clearStats. rewrite <- list_fmap_compose.
    by apply list_fmap_ext.
Qed.

(** An answered request is counted at most once.  The rule the middleware
    answers from is the first rule of its cache [this.mocks] that accepts
    the request, whatever the file holds by now.  The file is left as it was
    when it cannot be read, holds no rule list or no rule with the
    identifier; otherwise it is what [writeJson] leaves of the list with one
    hit added: when the write succeeds, the same rules with the total of the
    hits one higher.  A cache that mirrors the file always finds the
    identifier there.  A request that is passed on leaves the file
    untouched. *)
Theorem answered_request_is_counted_at_most_once :
  ∀ (RegExp_test : string -> string -> Outcome bool)
    (writeJson : list RuleStore.StoredMock -> RuleStore.ConfigFile)
    now cache file req found file',
    RuleStore.middleware RegExp_test writeJson now cache file req
    = Ret (found, file') ->
    match found with
    | None => file' = file
    | Some mock =>
        (∃ earlier later,
           cache = earlier ++ mock :: later
           ∧ Forall (λ m, Mocks.matchesRequest RegExp_test m req = Ret false)
               earlier)
        ∧ Mocks.matchesRequest RegExp_test mock req = Ret true
        ∧ (file = RuleStore.Unreadable ∨ file = RuleStore.Document None ->
           file' = file)
        ∧ (∀ mocks,
             file = RuleStore.Document (Some mocks) ->
             (Mocks.id mock ∉ (λ m, Mocks.id (RuleStore.rule m)) <$> mocks ->
              file' = file)
             ∧ (Mocks.id mock ∈ (λ m, Mocks.id (RuleStore.rule m)) <$> mocks ->
                file' = writeJson (RuleStore.updateMockStats now (Mocks.id mock) mocks)
                ∧ RuleStore.rule
                    <$> RuleStore.updateMockStats now (Mocks.id mock) mocks
                  = RuleStore.rule <$> mocks
                ∧ RuleStore.totalHits
                    (RuleStore.getStats
                       (RuleStore.updateMockStats now (Mocks.id mock) mocks))
                  = RuleStore.totalHits (RuleStore.getStats mocks) + 1)
             ∧ (cache = Mocks.loadMocks (RuleStore.rule <$> mocks) ->
                Mocks.enabled mock = true
                ∧ Mocks.id mock ∈ (λ m, Mocks.id (RuleStore.rule m)) <$> mocks))
    end.
Proof.
  intros RegExp_test writeJson now cache file req found file'.
  unfold RuleStore.middleware.
  destruct (Mocks.findMatchingMock _ _ _) as [[mock|]|] eqn:Hfind;
    intros Hrun; simpl in Hrun; [| |done]; injection Hrun as <- <-; [|done].
  apply findMatchingMock_first in Hfind as (l1 & l2 & Hsplit & Hearlier & Hmatch).
  split_and!; [by exists l1, l2|done|by intros [-> | ->]|].
  intros mocks ->. unfold RuleStore.updateMockStatsFile.
  destruct (list_find_split (λ m, Mocks.id (RuleStore.rule m) = Mocks.id mock) mocks)
    as [[Hnone Hnot]|(k1 & stored & k2 & Hmocks & Hid & Hk1 & Hsome)].
  - assert (Mocks.id mock ∉ (λ m, Mocks.id (RuleStore.rule m)) <$> mocks) as Habsent.
    { rewrite list_elem_of_fmap. intros (m & Hm & Hin).
      rewrite Forall_forall in Hnot. by apply (Hnot m). }
    rewrite Hnone. split_and!; [done|done|].
    intros ->. destruct Habsent.
    assert (mock ∈ Mocks.loadMocks (RuleStore.rule <$> mocks))
      as [_ Hin]%list_elem_of_filter
      by (rewrite Hsplit, elem_of_app; right; by left).
    apply list_elem_of_fmap in Hin as (m & -> & Hin).
    apply list_elem_of_fmap. by exists m.
  - assert (Mocks.id mock ∈ (λ m, Mocks.id (RuleStore.rule m)) <$> mocks) as Hpresent.
    { rewrite Hmocks, fmap_app, elem_of_app. right. csimpl. rewrite Hid. by left. }
    rewrite Hsome. split_and!; [done| |].
    + intros _. split_and!; [done|apply updateMockStats_rules|].
      by rewrite updateMockStats_totalHits, bool_decide_eq_true_2.
    + intros ->. split; [|done].
      assert (mock ∈ Mocks.loadMocks (RuleStore.rule <$> mocks))
        as [Henabled _]%list_elem_of_filter
        by (rewrite Hsplit, elem_of_app; right; by left).
      done.
Qed.

Lemma answered_request_is_counted_at_most_once_witness :
  RuleStore.totalHits (RuleStore.getStats MoreSamples.storedRules) = 4
  ∧ RuleStore.middleware Samples.rejectAll (λ mocks, RuleStore.Document (Some mocks))
      "2024-06-01T12:00:00.000Z"
      (Mocks.loadMocks (RuleStore.rule <$> MoreSamples.storedRules))
      (RuleStore.Document (Some MoreSamples.storedRules)) Samples.getIncidents
    = Ret (Some Samples.routineRule,
           RuleStore.Document
             (Some (RuleStore.updateMockStats "2024-06-01T12:00:00.000Z" "b2"
                      MoreSamples.storedRules)))
  ∧ RuleStore.totalHits
      (RuleStore.getStats
         (RuleStore.updateMockStats "2024-06-01T12:00:00.000Z" "b2"
            MoreSamples.storedRules))
    = 4 + 1.
Proof.
  split; [reflexivity|].
  assert (RuleStore.middleware Samples.rejectAll
            (λ mocks, RuleStore.Document (Some mocks))
            "2024-06-01T12:00:00.000Z"
            (Mocks.loadMocks (RuleStore.rule <$> MoreSamples.storedRules))
            (RuleStore.Document (Some MoreSamples.storedRules))
            Samples.getIncidents
          = Ret (Some Samples.routineRule,
                 RuleStore.Document
                   (Some (RuleStore.updateMockStats "2024-06-01T12:00:00.000Z"
                            "b2" MoreSamples.storedRules)))) as Hrun
    by (by vm_compute).
  split; [exact Hrun|].
  destruct (answered_request_is_counted_at_most_once _ _ _ _ _ _ _ _ Hrun)
    as (_ & _ & _ & Hfile).
  destruct (Hfile MoreSamples.storedRules eq_refl) as (_ & Hcounted & _).
  apply Hcounted. vm_compute. by right; left.
Defined.

(** A cache that no longer mirrors the file answers from a rule the file
    has lost, and the request is not counted; neither is it when the file
    cannot be read. *)
Lemma stale_cache_answers_without_counting :
  RuleStore.middleware Samples.rejectAll (λ mocks, RuleStore.Document (Some mocks))
    "2024-06-01T12:00:00.000Z" [Samples.urgentRule]
    (RuleStore.Document (Some [])) Samples.getIncidents
  = Ret (Some Samples.urgentRule, RuleStore.Document (Some []))
  ∧ RuleStore.middleware Samples.rejectAll (λ mocks, RuleStore.Document (Some mocks))
      "2024-06-01T12:00:00.000Z" [Samples.urgentRule]
      RuleStore.Unreadable Samples.getIncidents
    = Ret (Some Samples.urgentRule, RuleStore.Unreadable).
Proof. by vm_compute. Qed.

(** * Further properties of the include preprocessor *)

Section Expansion.
Import LiquidEngine.
Variable config : Config.
Variable site : Site.

Lemma includes_cons_false pat c s :
  includes (String c s) pat = false ->
  stripPrefix pat (String c s) = None ∧ includes s pat = false.
Proof.
  unfold includes. rewrite splitFirst_cons.
  destruct (stripPrefix pat (String c s)); [done|].
  by destruct (splitFirst pat s) as [[]|].
Qed.

(** A recogniser whose matches all begin with [pat] finds nothing in a text
    in which [pat] does not occur. *)
Lemma matchAll_from_absent tokenAt pat s skip :
  (∀ s' m g, tokenAt s' = Some (m, g) -> is_Some (stripPrefix pat s')) ->
  includes s pat = false -> matchAll_from tokenAt skip s = [].
Proof.
  intros Htoken. revert skip.
  induction s as [|c s IH]; intros skip Hs; [done|].
  apply includes_cons_false in Hs as [Hstrip Hs]. simpl.
  destruct skip; [|by apply IH].
  destruct (tokenAt (String c s)) as [[m g]|] eqn:Hhit; [|by apply IH].
  apply Htoken in Hhit as [rest Hrest]. congruence.
Qed.

Lemma snippetRefAt_opens s m g :
  snippetRefAt s = Some (m, g) -> is_Some (stripPrefix "{{" s).
Proof. unfold snippetRefAt. by destruct (stripPrefix "{{" s); [eauto|]. Qed.

Lemma includeTagAt_opens s m g :
  includeTagAt s = Some (m, g) -> is_Some (stripPrefix "{%" s).
Proof. unfold includeTagAt. by destruct (stripPrefix "{%" s); [eauto|]. Qed.

Lemma preprocessIncludes_without_tokens fuel templateContent depth :
  includes templateContent "{{" = false ->
  includes templateContent "{%" = false ->
  preprocessIncludes (S fuel) config site templateContent depth
  = Some templateContent.
Proof.
  intros Hrefs Htags.
  change (preprocessIncludes (S fuel) config site ?c depth)
    with (preprocessIncludes_body config site
            (preprocessIncludes fuel config site) c depth).
  unfold preprocessIncludes_body. destruct (10 <? depth); [done|].
  unfold matchAll.
  rewrite (matchAll_from_absent snippetRefAt "{{")
    by (done || apply snippetRefAt_opens).
  simpl.
  by rewrite (matchAll_from_absent includeTagAt "{%")
    by (done || apply includeTagAt_opens).
Qed.

(** One include directive between plain texts: the directive makes way for
    what [processInclude] returns, as [String.prototype.replace] inserts
    it. *)
Lemma preprocessIncludes_directive fuel before includeName after depth :
  depth ≤ 10 ->
  allChars notOpenBrace before = true ->
  allChars notOpenBrace after = true ->
  allChars plainNameChar includeName = true ->
  truthy includeName = true ->
  preprocessIncludes (S fuel) config site
    (before +:+ includeDirective includeName +:+ after) depth
  = expansion ← processInclude_with config site
                  (preprocessIncludes fuel config site) includeName (depth + 1);
    Some (before
          +:+ getSubstitution (includeDirective includeName) before after expansion
          +:+ after).
Proof.
  intros Hdepth Hbefore Hafter Hname Hnonempty.
  assert (allChars notOpenBrace includeName = true) as Hname1
    by (eapply allChars_weaken, Hname; intros c; apply plainNameChar_spec).
  assert (allChars notQuote includeName = true) as Hname2
    by (eapply allChars_weaken, Hname; intros c; apply plainNameChar_spec).
  change (preprocessIncludes (S fuel) config site ?c depth)
    with (preprocessIncludes_body config site
            (preprocessIncludes fuel config site) c depth).
  unfold preprocessIncludes_body.
  replace (10 <? depth) with false by (symmetry; apply Nat.ltb_ge; lia).
  rewrite (matchAll_snippetRefAt_noDoubleOpen _
             (noDoubleOpen_directive _ _ _ Hbefore Hafter Hname1) 0
           : matchAll snippetRefAt _ = []).
  simpl. rewrite matchAll_directive by done. simpl.
  destruct (processInclude_with _ _ _ _ _) as [expansion|]; [simpl|done].
  unfold replace. by rewrite splitFirst_plain by done.
Qed.

(** When the text found for an include is final. *)
Lemma processInclude_with_final fuel includeName depth content :
  findIncludeContent site includeName = Ret content ->
  truthy content = true ->
  10 ≤ depth
  ∨ shouldSkipLiquidProcessing config includeName content = true
  ∨ (includes content "{{" = false ∧ includes content "{%" = false) ->
  processInclude_with config site (preprocessIncludes (S fuel) config site)
    includeName (depth + 1)
  = Some content.
Proof.
  intros Hfound Hcontent Hfinal. unfold processInclude_with.
  rewrite Hfound, Hcontent.
  destruct (shouldSkipLiquidProcessing config includeName content); [done|].
  destruct Hfinal as [Hdepth|[Hskip|[Hrefs Htags]]]; [|done|].
  - apply preprocessIncludes_past_limit. lia.
  - by apply preprocessIncludes_without_tokens.
Qed.

Lemma preprocess_unfold templateContent depth :
  depth ≤ 10 ->
  preprocessIncludes (S (S (10 - depth))) config site templateContent depth
  = Some (preprocess config site templateContent depth).
Proof.
  intros Hdepth. apply preprocessIncludes_enough.
  unfold enoughFuel. lia.
Qed.

End Expansion.

(** The preprocessor leaves a text without tokens alone.  A text in which
    neither two opening braces in a row nor an opening brace followed by a
    percent sign occur comes back unchanged at every depth, whatever the
    site holds: single braces, as in a style sheet or a script, start no
    token. *)
Theorem text_without_tokens_is_left_alone :
  ∀ (config : Config) (site : Site) templateContent depth,
    includes templateContent "{{" = false ->
    includes templateContent "{%" = false ->
    LiquidEngine.preprocess config site templateContent depth = templateContent.
Proof.
  intros config site templateContent depth Hrefs Htags.
  unfold LiquidEngine.preprocess, LiquidEngine.enoughFuel.
  by rewrite preprocessIncludes_without_tokens.
Qed.

Lemma text_without_tokens_is_left_alone_witness :
  LiquidEngine.preprocess Samples.plainConfig Samples.cyclicSite
    "h1 { color: red } /* {not a token} */" 0
  = "h1 { color: red } /* {not a token} */".
Proof.
  apply (text_without_tokens_is_left_alone Samples.plainConfig Samples.cyclicSite
           "h1 { color: red } /* {not a token} */" 0); reflexivity.
Defined.



Section Reference.
Import LiquidEngine.
Variable config : Config.
Variable site : Site.

Lemma rev_app_append a b acc :
  String.rev_app (a +:+ b) acc = String.rev_app b (String.rev_app a acc).
Proof.
  revert acc. induction a as [|c a IH]; intros acc; [done|].
  rewrite append_cons. simpl. by rewrite IH.
Qed.

Lemma dropSpaces_append_space s :
  dropSpaces (s +:+ " ")
  = match dropSpaces s with
    | EmptyString => EmptyString
    | String c r => String c r +:+ " "
    end.
Proof.
  induction s as [|c s IH]; [done|]. rewrite append_cons. simpl.
  destruct (isSpace c); [done|]. by rewrite append_cons.
Qed.

(** A white space after the name is trimmed away. *)
Lemma trim_append_space s : trim (s +:+ " ") = trim s.
Proof.
  unfold trim. rewrite dropSpaces_append_space.
  destruct (dropSpaces s) as [|c r]; [done|].
  unfold String.rev. by rewrite rev_app_append.
Qed.

Lemma snippetReference_append snippetName after :
  snippetReference snippetName +:+ after
  = "{{ Snippets." +:+ (snippetName +:+ " ") +:+ String "}" (String "}" after).
Proof. unfold snippetReference. by rewrite !append_assoc. Qed.

Lemma snippetRefAt_reference snippetName after :
  allChars notBrace snippetName = true ->
  snippetRefAt (snippetReference snippetName +:+ after)
  = Some (snippetReference snippetName, snippetName +:+ " ").
Proof.
  intros Hname.
  assert (consumed (snippetReference snippetName +:+ after) after
          = snippetReference snippetName) as Hconsumed
    by apply consumed_append.
  rewrite snippetReference_append in *.
  unfold snippetRefAt. rewrite !append_cons, append_nil. simpl.
  rewrite span_append; [|by rewrite allChars_append, Hname|done].
  replace (truthy (snippetName +:+ " ")) with true
    by (by destruct snippetName).
  simpl. rewrite !append_cons, append_nil in Hconsumed.
  by rewrite Hconsumed.
Qed.

Lemma snippetRefAt_plain c s :
  notOpenBrace c = true -> snippetRefAt (String c s) = None.
Proof.
  unfold notOpenBrace, snippetRefAt. intros Hc%negb_true_iff.
  rewrite stripPrefix_cons, Ascii.eqb_sym. by rewrite Hc.
Qed.

Lemma matchAll_from_all_plain tokenAt s :
  (∀ c s', notOpenBrace c = true -> tokenAt (String c s') = None) ->
  allChars notOpenBrace s = true ->
  matchAll_from tokenAt 0 s = [].
Proof.
  intros Hplain Hs. rewrite <- (append_nil_r s).
  by rewrite matchAll_from_plain.
Qed.

Lemma matchAll_reference before snippetName after :
  allChars notOpenBrace before = true ->
  allChars notOpenBrace after = true ->
  allChars notBrace snippetName = true ->
  matchAll snippetRefAt (before +:+ snippetReference snippetName +:+ after)
  = [(snippetReference snippetName, snippetName +:+ " ")].
Proof.
  intros Hbefore Hafter Hname. unfold matchAll.
  rewrite matchAll_from_plain by (done || apply snippetRefAt_plain).
  pose proof (snippetRefAt_reference snippetName after Hname) as Hhit.
  unfold snippetReference in *. rewrite append_cons in *.
  erewrite matchAll_from_hit by exact Hhit. f_equal.
  by apply matchAll_from_all_plain; [apply snippetRefAt_plain|].
Qed.

Lemma plainSnippetChar_spec c :
  plainSnippetChar c = true ->
  notOpenBrace c = true ∧ notBrace c = true ∧ notDollar c = true.
Proof.
  unfold plainSnippetChar. by intros [[? ?]%andb_true_iff ?]%andb_true_iff.
Qed.

(** One snippet reference between plain texts, with a plain expansion. *)
Lemma preprocessIncludes_reference fuel before snippetName after depth expansion :
  depth ≤ 10 ->
  allChars notOpenBrace before = true ->
  allChars notOpenBrace after = true ->
  allChars plainSnippetChar snippetName = true ->
  loadSnippetContent_with site (preprocessIncludes fuel config site)
    (trim snippetName) (depth + 1) = Some expansion ->
  allChars notOpenBrace expansion = true ->
  allChars notDollar expansion = true ->
  preprocessIncludes (S fuel) config site
    (before +:+ snippetReference snippetName +:+ after) depth
  = Some (before +:+ expansion +:+ after).
Proof.
  intros Hdepth Hbefore Hafter Hname Hload Hplain Hdollar.
  assert (allChars notBrace snippetName = true) as Hname2
    by (eapply allChars_weaken, Hname; intros c; apply plainSnippetChar_spec).
  change (preprocessIncludes (S fuel) config site ?c depth)
    with (preprocessIncludes_body config site
            (preprocessIncludes fuel config site) c depth).
  unfold preprocessIncludes_body.
  replace (10 <? depth) with false by (symmetry; apply Nat.ltb_ge; lia).
  rewrite matchAll_reference by done. simpl.
  rewrite trim_append_space, Hload. simpl.
  unfold replace. rewrite splitFirst_plain by done.
  rewrite getSubstitution_plain by done.
  unfold matchAll. rewrite matchAll_from_all_plain; [done|..].
  - apply includeTagAt_plain.
  - by rewrite !allChars_append, Hbefore, Hplain, Hafter.
Qed.

End Reference.





(** * Further properties of the handlers *)

(** The lookup caches serve the first answer.  Once [getSnippet] has found
    a snippet it is kept under the name as given: every later lookup of that
    name returns the same snippet without reading storage, whatever storage
    holds by then, and no other cache entry changes.  A lookup that finds
    nothing leaves the cache as it was, so it is tried again on storage the
    next time.  [getTemplate] does the same for templates. *)
Theorem lookup_caches_serve_first_answer :
  ∀ (Yaml : Type) (yamlParse : string -> Outcome Yaml) (emptyYaml : Yaml)
    (site : Site) name,
    (∀ (snippetsCache : gmap string (Handlers.Snippet Yaml)) found cache',
       Handlers.getSnippet Yaml yamlParse emptyYaml site snippetsCache name
       = (found, cache') ->
       match found with
       | Some snippet =>
           cache' !! name = Some snippet
           ∧ (∀ other, other ≠ name -> cache' !! other = snippetsCache !! other)
           ∧ ∀ yamlParse' site',
               Handlers.getSnippet Yaml yamlParse' emptyYaml site' cache' name
               = (Some snippet, cache')
       | None => cache' = snippetsCache
       end)
    ∧ (∀ (templatesCache : gmap string (Handlers.Template Yaml)) found cache',
         Handlers.getTemplate Yaml yamlParse emptyYaml site templatesCache name
         = (found, cache') ->
         match found with
         | Some template =>
             cache' !! name = Some template
             ∧ (∀ other, other ≠ name ->
                         cache' !! other = templatesCache !! other)
             ∧ ∀ yamlParse' site',
                 Handlers.getTemplate Yaml yamlParse' emptyYaml site' cache' name
                 = (Some template, cache')
         | None => cache' = templatesCache
         end).
Proof.
  intros Yaml yamlParse emptyYaml site name. split.
  - intros snippetsCache found cache'. unfold Handlers.getSnippet.
    destruct (snippetsCache !! name) as [cached|] eqn:Hcached.
    + intros [= <- <-]. split_and!; [done..|]. intros. by rewrite Hcached.
    + destruct (Handlers.loadSnippet _ _ _ _ _) as [[snippet|]|];
        intros [= <- <-]; [|done..].
      split_and!.
      * by rewrite lookup_insert_eq.
      * intros other Hother. by rewrite lookup_insert_ne.
      * intros. by rewrite lookup_insert_eq.
  - intros templatesCache found cache'. unfold Handlers.getTemplate.
    destruct (templatesCache !! name) as [cached|] eqn:Hcached.
    + intros [= <- <-]. split_and!; [done..|]. intros. by rewrite Hcached.
    + destruct (Handlers.loadTemplate _ _ _ _ _) as [[template|]|];
        intros [= <- <-]; [|done..].
      split_and!.
      * by rewrite lookup_insert_eq.
      * intros other Hother. by rewrite lookup_insert_ne.
      * intros. by rewrite lookup_insert_eq.
Qed.

Lemma lookup_caches_serve_first_answer_witness :
  Handlers.getSnippet unit (λ _, Ret tt) tt MoreSamples.noticeSite ∅ "Footer"
  = (Some MoreSamples.footerSnippet, {[ "Footer" := MoreSamples.footerSnippet ]})
  ∧ Handlers.getSnippet unit (λ _, Ret tt) tt Samples.emptySite
      {[ "Footer" := MoreSamples.footerSnippet ]} "Footer"
    = (Some MoreSamples.footerSnippet,
       {[ "Footer" := MoreSamples.footerSnippet ]}).
Proof.
  assert (Handlers.getSnippet unit (λ _, Ret tt) tt MoreSamples.noticeSite ∅
            "Footer"
          = (Some MoreSamples.footerSnippet,
             {[ "Footer" := MoreSamples.footerSnippet ]})) as Hfirst
    by (by vm_compute).
  split; [done|].
  apply (proj1 (lookup_caches_serve_first_answer unit (λ _, Ret tt) tt
                  MoreSamples.noticeSite "Footer") ∅
               (Some MoreSamples.footerSnippet)
               {[ "Footer" := MoreSamples.footerSnippet ]} Hfirst).
Defined.

Section TemplateKeys.
Import Handlers.

Lemma notSpace_toLowerCase s :
  allChars notSpace (toLowerCase s) = allChars notSpace s.
Proof.
  induction s as [|c s IH]; [done|]. simpl.
  unfold notSpace at 1 3. by rewrite isSpace_lowerChar, IH.
Qed.

Lemma notSpace_replaceSpaceRuns inRun s :
  allChars notSpace (replaceSpaceRuns_from inRun s) = true.
Proof.
  revert inRun. induction s as [|c s IH]; intros inRun; [done|]. simpl.
  destruct (isSpace c) eqn:Hc.
  - destruct inRun; [done|]. simpl. by rewrite IH.
  - simpl. unfold notSpace at 1. by rewrite Hc, IH.
Qed.

End TemplateKeys.

(** The template handler keeps white space in the directory name.
    [getTemplate] looks a template up under its lower-cased name, where the
    include preprocessor uses the hyphenated slug.  So for a name that holds
    white space the two differ, and when no directory of template storage
    has white space in its name the template handler finds no such template
    and [renderTemplate] answers with the template-not-found marker. *)
Theorem template_handler_keeps_white_space :
  ∀ regexTest regexCount (Data : Type) (mockData : Data) spread parseAndRender
    (Yaml : Type) (yamlParse : string -> Outcome Yaml) (emptyYaml : Yaml)
    (config : Config) (site : Site)
    (templatesCache : gmap string (Handlers.Template Yaml)) templateName data,
    allChars notSpace templateName = false ->
    (∀ key, is_Some (templatesPath site !! key) ->
            allChars notSpace key = true) ->
    templatesCache !! templateName = None ->
    toLowerCase templateName ≠ normalize templateName
    ∧ Handlers.getTemplate Yaml yamlParse emptyYaml site templatesCache
        templateName = (None, templatesCache)
    ∧ Handlers.renderTemplate regexTest regexCount Data mockData spread
        parseAndRender Yaml yamlParse emptyYaml config site templatesCache
        templateName data
      = (Ret ("<!-- Template not found: " +:+ templateName +:+ " -->"),
         templatesCache).
Proof.
  intros regexTest regexCount Data mockData spread parseAndRender Yaml
    yamlParse emptyYaml config site templatesCache templateName data
    Hspace Hkeys Hmiss.
  assert (templatesPath site !! toLowerCase templateName = None) as Hdir.
  { destruct (templatesPath site !! toLowerCase templateName) as [node|] eqn:Hnode;
      [|done].
    assert (allChars notSpace (toLowerCase templateName) = true) as Hkey
      by (apply Hkeys; by rewrite Hnode).
    rewrite notSpace_toLowerCase in Hkey. congruence. }
  assert (Handlers.getTemplate Yaml yamlParse emptyYaml site templatesCache
            templateName = (None, templatesCache)) as Hget.
  { unfold Handlers.getTemplate, Handlers.loadTemplate. by rewrite Hmiss, Hdir. }
  split_and!; [|done|].
  - intros Heq.
    pose proof (notSpace_replaceSpaceRuns false (toLowerCase templateName))
      as Hslug.
    change (replaceSpaceRuns_from false (toLowerCase templateName))
      with (normalize templateName) in Hslug.
    rewrite <- Heq, notSpace_toLowerCase in Hslug. congruence.
  - unfold Handlers.renderTemplate. by rewrite Hget.
Qed.

Lemma template_handler_keeps_white_space_witness :
  LiquidEngine.findIncludeContent MoreSamples.noticeSite "Site Header"
  = Ret "<header/>"
  ∧ Handlers.getTemplate unit (λ _, Ret tt) tt MoreSamples.noticeSite ∅
      "Site Header"
    = (None, ∅).
Proof.
  split; [by vm_compute|].
  apply (template_handler_keeps_white_space Samples.neverMatches
           Samples.noMatches unit tt Samples.keepRight Samples.echoEngine
           unit (λ _, Ret tt) tt Samples.plainConfig MoreSamples.noticeSite ∅
           "Site Header" tt); [reflexivity| |reflexivity].
  intros key [node Hnode]. unfold MoreSamples.noticeSite in Hnode.
  simpl in Hnode.
  repeat (apply lookup_insert_Some in Hnode as [[<- _]|[_ Hnode]];
          [reflexivity|]).
  by apply lookup_singleton_Some in Hnode as [<- _].
Defined.

(** The signature check needs an exclusion list.  The three library
    signatures of [containsExcludedSignatures] are looked for once per entry
    of [liquidExcludes]: without a list or with an empty one the check is
    false whatever the content holds, and with a non-empty list it is true
    exactly when the content holds one of the listed names or one of the
    three signatures. *)
Theorem signature_check_needs_exclusion_list :
  ∀ (config : Config) content,
    LiquidEngine.containsExcludedSignatures config content
    = match liquidExcludes config with
      | Some (excludedFile :: excludes) =>
          existsb (λ name, includes content name) (excludedFile :: excludes)
          || includes content "react-dom.development.js"
          || includes content "react.development.js"
          || includes content "__SECRET_INTERNALS_DO_NOT_USE_OR_YOU_WILL_BE_FIRED"
      | _ => false
      end.
Proof.
  intros config content. unfold LiquidEngine.containsExcludedSignatures.
  destruct (liquidExcludes config) as [[|excludedFile excludes]|]; [done| |done].
  revert excludedFile. induction excludes as [|next excludes IH];
    intros excludedFile.
  - simpl. by rewrite !orb_false_r.
  - change (existsb ?f (excludedFile :: ?l))
      with (f excludedFile || existsb f l).
    rewrite IH.
    destruct (includes content excludedFile),
      (existsb (λ name, includes content name) (next :: excludes)),
      (includes content "react-dom.development.js"),
      (includes content "react.development.js"),
      (includes content "__SECRET_INTERNALS_DO_NOT_USE_OR_YOU_WILL_BE_FIRED");
      reflexivity.
Qed.

(** * Properties of the page handler *)

Section PageLookup.
Import Pages.
Variable parseWebPage : string -> Outcome WebPage.
Local Abbreviation matchedIn := (matchedIn parseWebPage).
Local Abbreviation matchingConfigs := (matchingConfigs parseWebPage).
Local Abbreviation findPageConfig := (findPageConfig parseWebPage).

(** Whether a directory makes the lookup throw does not depend on the
    URL. *)
Lemma matchedIn_throws dir node urlPath urlPath' error :
  matchedIn dir node urlPath = Throw error ->
  matchedIn dir node urlPath' = Throw error.
Proof.
  unfold Pages.matchedIn. destruct node as [|configFiles]; [done|].
  destruct (findFile _ configFiles) as [[f ymlFile]|]; [|done].
  destruct (readFile ymlFile) as [configContent|]; [simpl|done].
  by destruct (parseWebPage configContent).
Qed.

Lemma matchingConfigs_throws directories dir node urlPath error :
  (dir, node) ∈ directories ->
  matchedIn dir node urlPath = Throw error ->
  ∃ error', matchingConfigs directories urlPath = Throw error'.
Proof.
  intros Hin Hthrow.
  induction directories as [|[dir' node'] directories IH];
    [by apply elem_of_nil in Hin|].
  simpl. apply elem_of_cons in Hin as [[= <- <-]|Hin].
  - rewrite Hthrow. by eexists.
  - destruct (matchedIn dir' node' urlPath); [simpl|by eexists].
    destruct (IH Hin) as [error' ->]. by eexists.
Qed.

(** Every match comes from a listed directory whose document passes the
    test. *)
Lemma matchedIn_sound dir node urlPath here m :
  matchedIn dir node urlPath = Ret here -> m ∈ here ->
  page_directory m = dir ∧ isMatch (page_config m) urlPath = true.
Proof.
  unfold Pages.matchedIn. destruct node as [|configFiles].
  { intros [= <-]. by intros ?%elem_of_nil. }
  destruct (findFile _ configFiles) as [[f ymlFile]|].
  2:{ intros [= <-]. by intros ?%elem_of_nil. }
  destruct (readFile ymlFile) as [configContent|]; [simpl|done].
  destruct (parseWebPage configContent) as [config|]; [simpl|done].
  destruct (isMatch config urlPath) eqn:Hmatch; intros [= <-].
  - by intros ->%list_elem_of_singleton.
  - by intros ?%elem_of_nil.
Qed.

Lemma matchingConfigs_sound directories urlPath matchedConfigs m :
  matchingConfigs directories urlPath = Ret matchedConfigs ->
  m ∈ matchedConfigs ->
  (∃ node, (page_directory m, node) ∈ directories)
  ∧ isMatch (page_config m) urlPath = true.
Proof.
  revert matchedConfigs.
  induction directories as [|[dir node] directories IH]; intros matchedConfigs.
  { intros [= <-]. by intros ?%elem_of_nil. }
  simpl. destruct (matchedIn dir node urlPath) as [here|] eqn:Hhere;
    [simpl|done].
  destruct (matchingConfigs directories urlPath) as [others|]; [simpl|done].
  intros [= <-] [Hm|Hm]%elem_of_app.
  - destruct (matchedIn_sound _ _ _ _ _ Hhere Hm) as [<- ?].
    split; [|done]. exists node. by left.
  - destruct (IH others eq_refl Hm) as [[node' ?] ?].
    split; [|done]. exists node'. by right.
Qed.

Lemma find_elem_of {A} (p : A -> bool) (l : list A) x :
  List.find p l = Some x -> x ∈ l ∧ p x = true.
Proof.
  intros [Hin ?]%find_some. split; [|done]. by apply list_elem_of_In.
Qed.

Lemma choosePage_elem_of matchedConfigs urlPath m :
  choosePage matchedConfigs urlPath = Some m -> m ∈ matchedConfigs.
Proof.
  unfold choosePage.
  assert (head matchedConfigs = Some m -> m ∈ matchedConfigs) as Hhead.
  { destruct matchedConfigs; [done|]. intros [= ->]. by left. }
  destruct (1 <? length matchedConfigs); [|exact Hhead].
  assert (match
            List.find (λ m, isString (adx_partialurl (page_config m))
                                     (normalizeUrlPath urlPath)) matchedConfigs
          with
          | Some exactMatch => Some exactMatch
          | None => head matchedConfigs
          end = Some m -> m ∈ matchedConfigs) as Hexact.
  { destruct (List.find _ matchedConfigs) as [exact|] eqn:Hexact;
      [|exact Hhead].
    intros [= <-]. by apply find_elem_of in Hexact as [? _]. }
  case_bool_decide; [|exact Hexact].
  destruct (List.find (λ m, bool_decide (page_directory m = "home"))
              matchedConfigs) as [home|] eqn:Hhome; [|exact Hexact].
  intros [= <-]. by apply find_elem_of in Hhome as [? _].
Qed.

Lemma choosePage_None matchedConfigs urlPath :
  choosePage matchedConfigs urlPath = None -> matchedConfigs = [].
Proof.
  unfold choosePage. destruct matchedConfigs as [|m matchedConfigs]; [done|].
  destruct (1 <? _); [|done].
  case_bool_decide.
  - destruct (List.find (λ m, bool_decide (page_directory m = "home")) _);
      [done|].
    by destruct (List.find _ _).
  - by destruct (List.find _ _).
Qed.

(** The test looks at the URL through its normal form only. *)
Lemma isMatch_normalized config urlPath urlPath' :
  normalizeUrlPath urlPath = normalizeUrlPath urlPath' ->
  isMatch config urlPath = isMatch config urlPath'.
Proof. unfold isMatch. by intros ->. Qed.

Lemma matchingConfigs_normalized directories urlPath urlPath' :
  normalizeUrlPath urlPath = normalizeUrlPath urlPath' ->
  matchingConfigs directories urlPath = matchingConfigs directories urlPath'.
Proof.
  intros Hsame. induction directories as [|[dir node] directories IH]; [done|].
  simpl. rewrite IH. f_equal. unfold Pages.matchedIn.
  destruct node as [|configFiles]; [done|].
  destruct (findFile _ configFiles) as [[f ymlFile]|]; [|done].
  destruct (readFile ymlFile) as [configContent|]; [simpl|done].
  destruct (parseWebPage configContent) as [config|]; [simpl|done].
  by rewrite (isMatch_normalized config urlPath urlPath').
Qed.

Lemma dropTrailingSlash_append_slash s :
  truthy s = true -> dropTrailingSlash (s +:+ "/") = s.
Proof.
  induction s as [|c s IH]; [done|]. intros _. rewrite append_cons.
  destruct s as [|d s]; [done|].
  change (dropTrailingSlash (String c (String d s +:+ "/")))
    with (String c (dropTrailingSlash (String d s +:+ "/"))).
  by rewrite IH.
Qed.

(** For a URL other than the root, a page that passes the test has the URL
    without its leading slash as its partial URL. *)
Lemma isMatch_partialurl config urlPath rest :
  normalizeUrlPath urlPath = String "/" rest -> truthy rest = true ->
  isMatch config urlPath = true ->
  adx_partialurl config = VString rest.
Proof.
  unfold isMatch. intros -> Hrest.
  rewrite (bool_decide_eq_false_2 (String "/" rest = "/"))
    by (intros [= ->]; done).
  rewrite orb_false_r. intros [Hpartial _]%andb_true_iff.
  change (urlPathForComparison (String "/" rest)) with rest in Hpartial.
  unfold orEmpty in Hpartial.
  destruct (adx_partialurl config) as [s| |[]]; simpl in Hpartial;
    try done.
  - destruct s as [|c s]; simpl in Hpartial.
    + apply bool_decide_eq_true in Hpartial as <-. done.
    + by apply bool_decide_eq_true in Hpartial as <-.
  - apply bool_decide_eq_true in Hpartial as <-. done.
  - apply bool_decide_eq_true in Hpartial as <-. done.
Qed.

Lemma choosePage_first matchedConfigs urlPath rest :
  normalizeUrlPath urlPath = String "/" rest -> truthy rest = true ->
  Forall (λ m, isMatch (page_config m) urlPath = true) matchedConfigs ->
  choosePage matchedConfigs urlPath = head matchedConfigs.
Proof.
  intros Hnormal Hrest Hall. unfold choosePage.
  destruct (1 <? length matchedConfigs); [|done].
  rewrite bool_decide_eq_false_2.
  2:{ intros ->. vm_compute in Hnormal. injection Hnormal as <-. done. }
  destruct (List.find _ matchedConfigs) as [exact|] eqn:Hexact; [|done].
  apply find_elem_of in Hexact as [Hin Hexact].
  rewrite Forall_forall in Hall.
  rewrite (isMatch_partialurl _ _ _ Hnormal Hrest (Hall _ Hin)), Hnormal
    in Hexact.
  simpl in Hexact. apply bool_decide_eq_true in Hexact.
  assert (String.length rest = String.length (String "/" rest)) as Hlen
    by (by rewrite <- Hexact).
  simpl in Hlen. lia.
Qed.

End PageLookup.



(** How a page is found for a URL.  A page that [findPageConfig] returns
    sits in a listed directory and its document passes the URL test.  For a
    URL other than the root, every match has the URL without its leading
    slash as its partial URL and the first match in listing order is
    returned: the priority step never picks another one.  One trailing slash
    makes no difference. *)
Theorem page_lookup_by_partial_url :
  ∀ (parseWebPage : string -> Outcome Pages.WebPage) directories urlPath,
    (∀ m, Pages.findPageConfig parseWebPage (Ret directories) urlPath = Some m ->
          (∃ node, (Pages.page_directory m, node) ∈ directories)
          ∧ Pages.isMatch (Pages.page_config m) urlPath = true)
    ∧ (∀ rest matchedConfigs,
         Pages.normalizeUrlPath urlPath = String "/" rest ->
         truthy rest = true ->
         Pages.matchingConfigs parseWebPage directories urlPath
         = Ret matchedConfigs ->
         Pages.findPageConfig parseWebPage (Ret directories) urlPath
         = head matchedConfigs
         ∧ Forall (λ m, Pages.adx_partialurl (Pages.page_config m)
                        = Pages.VString rest) matchedConfigs)
    ∧ (truthy urlPath = true ->
       Pages.dropTrailingSlash urlPath = urlPath ->
       Pages.findPageConfig parseWebPage (Ret directories) (urlPath +:+ "/")
       = Pages.findPageConfig parseWebPage (Ret directories) urlPath).
Proof.
  intros parseWebPage directories urlPath. split_and!.
  - intros m. unfold Pages.findPageConfig. simpl.
    destruct (Pages.matchingConfigs parseWebPage directories urlPath)
      as [matchedConfigs|] eqn:Hmatched; [|done].
    intros Hm%choosePage_elem_of.
    by apply (matchingConfigs_sound parseWebPage directories urlPath
                matchedConfigs).
  - intros rest matchedConfigs Hnormal Hrest Hmatched.
    assert (Forall (λ m, Pages.isMatch (Pages.page_config m) urlPath = true)
              matchedConfigs) as Hall.
    { apply Forall_forall. intros m Hm.
      by apply (matchingConfigs_sound parseWebPage directories urlPath
                  matchedConfigs). }
    split.
    + unfold Pages.findPageConfig. simpl. rewrite Hmatched.
      by apply (choosePage_first matchedConfigs urlPath rest).
    + eapply Forall_impl; [exact Hall|]. intros m.
      by apply isMatch_partialurl.
  - intros Hnonempty Hslash.
    assert (Pages.normalizeUrlPath (urlPath +:+ "/")
            = Pages.normalizeUrlPath urlPath) as Hsame.
    { unfold Pages.normalizeUrlPath.
      by rewrite dropTrailingSlash_append_slash, Hslash. }
    unfold Pages.findPageConfig. simpl.
    rewrite (matchingConfigs_normalized parseWebPage directories _ _ Hsame).
    destruct (Pages.matchingConfigs parseWebPage directories urlPath)
      as [matchedConfigs|]; [|done].
    unfold Pages.choosePage. rewrite Hsame.
    rewrite !bool_decide_eq_false_2; [done| |].
    + intros ->. done.
    + destruct urlPath as [|c urlPath]; [done|]. rewrite append_cons.
      intros [= _ Hrest]. by destruct urlPath.
Qed.

Lemma page_lookup_by_partial_url_witness :
  Pages.findPageConfig MoreSamples.parsePage (Ret MoreSamples.pagesListing)
    ("/about" +:+ "/")
  = Pages.findPageConfig MoreSamples.parsePage (Ret MoreSamples.pagesListing)
      "/about"
  ∧ ∃ m, Pages.findPageConfig MoreSamples.parsePage
           (Ret MoreSamples.pagesListing) "/about" = Some m
         ∧ Pages.page_directory m = "about".
Proof.
  split.
  - apply (proj2 (proj2 (page_lookup_by_partial_url MoreSamples.parsePage
                           MoreSamples.pagesListing "/about")));
      reflexivity.
  - eexists. split; [vm_compute; reflexivity|reflexivity].
Defined.

(** The root URL prefers the directory [home].  Every page returned for the
    URL [/] is a root page; and when one of the root pages sits in the
    directory [home], the page returned for [/] sits there, whatever the
    listing order and whatever other root pages exist. *)
Theorem root_url_prefers_home_directory :
  ∀ (parseWebPage : string -> Outcome Pages.WebPage) directories,
    (∀ m, Pages.findPageConfig parseWebPage (Ret directories) "/" = Some m ->
          Pages.truthyValue (Pages.adx_isroot (Pages.page_config m)) = true)
    ∧ (∀ matchedConfigs home,
         Pages.matchingConfigs parseWebPage directories "/"
         = Ret matchedConfigs ->
         home ∈ matchedConfigs -> Pages.page_directory home = "home" ->
         ∃ m, Pages.findPageConfig parseWebPage (Ret directories) "/" = Some m
              ∧ m ∈ matchedConfigs ∧ Pages.page_directory m = "home").
Proof.
  intros parseWebPage directories. split.
  - intros m. unfold Pages.findPageConfig. simpl.
    destruct (Pages.matchingConfigs parseWebPage directories "/")
      as [matchedConfigs|] eqn:Hmatched; [|done].
    intros Hm%choosePage_elem_of.
    destruct (matchingConfigs_sound parseWebPage directories "/"
                matchedConfigs m Hmatched Hm) as [_ Hmatch].
    unfold Pages.isMatch in Hmatch.
    change (Pages.normalizeUrlPath "/") with "/" in Hmatch.
    rewrite (bool_decide_eq_false_2 ("/" ≠ "/")), andb_false_r in Hmatch
      by (by intros ?).
    simpl in Hmatch. by apply andb_true_iff in Hmatch as [_ ?].
  - intros matchedConfigs home Hmatched Hin Hhome.
    unfold Pages.findPageConfig. simpl. rewrite Hmatched.
    unfold Pages.choosePage. destruct (1 <? length matchedConfigs) eqn:Hmany.
    + rewrite bool_decide_eq_true_2 by done.
      destruct (List.find (λ m, bool_decide (Pages.page_directory m = "home"))
                  matchedConfigs) as [m|] eqn:Hfind.
      * apply find_elem_of in Hfind as [Hm Hdir].
        apply bool_decide_eq_true in Hdir. by exists m.
      * apply list_elem_of_In in Hin.
        pose proof (find_none _ _ Hfind _ Hin) as Hnot. simpl in Hnot.
        by rewrite bool_decide_eq_true_2 in Hnot.
    + apply Nat.ltb_ge in Hmany.
      destruct matchedConfigs as [|m [|m' rest]]; simpl in Hmany; [| |lia].
      * by apply elem_of_nil in Hin.
      * apply list_elem_of_singleton in Hin as ->. exists m.
        split_and!; [done| |done]. by left.
Qed.

Lemma root_url_prefers_home_directory_witness :
  ∃ m, Pages.findPageConfig MoreSamples.parsePage
         (Ret MoreSamples.pagesListing) "/" = Some m
       ∧ Pages.page_directory m = "home".
Proof.
  destruct (proj2 (root_url_prefers_home_directory MoreSamples.parsePage
                     MoreSamples.pagesListing)
              [ {| Pages.page_config :=
                     {| Pages.adx_partialurl := Pages.VAbsent;
                        Pages.adx_isroot := Pages.VOther true;
                        Pages.adx_title := "Landing" |};
                   Pages.page_directory := "landing" |};
                {| Pages.page_config :=
                     {| Pages.adx_partialurl := Pages.VString "/";
                        Pages.adx_isroot := Pages.VOther true;
                        Pages.adx_title := "Home" |};
                   Pages.page_directory := "home" |} ]
              {| Pages.page_config :=
                   {| Pages.adx_partialurl := Pages.VString "/";
                      Pages.adx_isroot := Pages.VOther true;
                      Pages.adx_title := "Home" |};
                 Pages.page_directory := "home" |})
    as (m & Hm & _ & Hdir); [reflexivity| |reflexivity|].
  - right. by left.
  - by exists m.
Defined.

Section Answers.
Import Handlers Pages.
Variable regexTest : string -> string -> bool.
Variable regexCount : string -> string -> nat.
Variable Data : Type.
Variable mockData : Data.
Variable spread : Data -> Data -> Data.
Variable parseAndRender : string -> Data -> Outcome string.
Variable emptyData : Data.
Variable Yaml : Type.
Variable yamlParse : string -> Outcome Yaml.
Variable emptyYaml : Yaml.
Variable config : Config.
Variable site : Site.
Variable pageDocument :
  forall (language title processedCss trackingCode processedHtmlContent
          processedJs : string), string.
Variable getErrorPage : Exn -> string.
Variable liquidContext : PageConfig -> Data.

Local Abbreviation render :=
  (LiquidEngine.render regexTest regexCount Data mockData spread
     parseAndRender config site).
Local Abbreviation processPage :=
  (processPage regexTest regexCount Data mockData spread parseAndRender
     emptyData Yaml yamlParse emptyYaml config site pageDocument getErrorPage
     liquidContext).

Lemma getPageContent_returns pageConfig language :
  ∃ pageContent, getPageContent site pageConfig language = Ret pageContent.
Proof.
  unfold getPageContent.
  destruct (getPageContent_try site pageConfig language); by eexists.
Qed.

Lemma processPage_returns snippetsCache pageContent pageConfig language :
  ∃ html, (processPage snippetsCache pageContent pageConfig language).1
          = Ret html.
Proof.
  unfold Handlers.processPage.
  destruct (render (content pageContent) (liquidContext pageConfig))
    as [processedHtmlContent|error]; simpl; [|by eexists].
  destruct (renderIfPresent _ _ _ _ _ _ _ _ (customCss pageContent) _)
    as [processedCss|error]; simpl; [|by eexists].
  destruct (renderIfPresent _ _ _ _ _ _ _ _ (customJs pageContent) _)
    as [processedJs|error]; simpl; [|by eexists].
  destruct (renderTrackingCode _ _ _ _ _ _ _ _ _ _ _ _ _)
    as [[trackingCode|error] cache']; simpl; by eexists.
Qed.

Lemma processPage_render_error snippetsCache pageContent pageConfig language
    error :
  render (content pageContent) (liquidContext pageConfig) = Throw error ->
  processPage snippetsCache pageContent pageConfig language
  = (Ret (getErrorPage error), snippetsCache).
Proof. unfold Handlers.processPage. by intros ->. Qed.

Variable parseWebPage : string -> Outcome WebPage.
Variable pagesDir : Outcome (list (string * Node)).
Variable defaultLanguage : string.
Variable notFoundDocument : string.

Local Abbreviation handleNotFound :=
  (handleNotFound regexTest regexCount Data mockData spread parseAndRender
     emptyData Yaml yamlParse emptyYaml config site pageDocument getErrorPage
     liquidContext parseWebPage pagesDir notFoundDocument).
Local Abbreviation handleRequest :=
  (handleRequest regexTest regexCount Data mockData spread parseAndRender
     emptyData Yaml yamlParse emptyYaml config site pageDocument getErrorPage
     liquidContext parseWebPage pagesDir defaultLanguage notFoundDocument).

Lemma handleNotFound_status snippetsCache :
  status (handleNotFound snippetsCache).1 = 404.
Proof.
  unfold Pages.handleNotFound.
  destruct (findPageConfig parseWebPage pagesDir "/page-not-found")
    as [notFoundPage|]; [|done].
  destruct (getPageContent site (toPageConfig notFoundPage) "en-US")
    as [[pageContent|]|]; [|done..].
  destruct (Handlers.processPage _ _ _ _ _ _ _ _ _ _ _ _ _ _ _ _ _ _ _)
    as [[html|error] cache']; done.
Qed.

Lemma handleRequest_cases snippetsCache req :
  match findPageConfig parseWebPage pagesDir (path req) with
  | None => handleRequest snippetsCache req = handleNotFound snippetsCache
  | Some pageConfig =>
      match getPageContent site (toPageConfig pageConfig)
              (detectLanguage defaultLanguage req) with
      | Ret (Some pageContent) =>
          ∃ html,
            processPage snippetsCache pageContent (toPageConfig pageConfig)
              (detectLanguage defaultLanguage req)
            = (Ret html, (processPage snippetsCache pageContent
                            (toPageConfig pageConfig)
                            (detectLanguage defaultLanguage req)).2)
            ∧ handleRequest snippetsCache req
              = ({| status := 200; body := html |},
                 (processPage snippetsCache pageContent
                    (toPageConfig pageConfig)
                    (detectLanguage defaultLanguage req)).2)
      | _ => handleRequest snippetsCache req = handleNotFound snippetsCache
      end
  end.
Proof.
  unfold Pages.handleRequest.
  destruct (findPageConfig parseWebPage pagesDir (path req))
    as [pageConfig|]; [|done].
  destruct (getPageContent_returns (toPageConfig pageConfig)
              (detectLanguage defaultLanguage req)) as [pageContent ->].
  destruct pageContent as [pageContent|]; [|done].
  destruct (processPage_returns snippetsCache pageContent
              (toPageConfig pageConfig) (detectLanguage defaultLanguage req))
    as [html Hhtml].
  destruct (processPage snippetsCache pageContent (toPageConfig pageConfig)
              (detectLanguage defaultLanguage req)) as [result cache'].
  simpl in Hhtml. subst result. by exists html.
Qed.

End Answers.



(** * Properties of the reference processors *)

Section Tokens.
Import LiquidEngine Processors.

Lemma includes_plain s pat c :
  allChars notOpenBrace s = true ->
  includes s (String "{" (String c pat)) = false.
Proof.
  induction s as [|x s IH]; [done|]. simpl.
  intros [Hx Hs]%andb_true_iff. unfold includes.
  rewrite splitFirst_cons, stripPrefix_cons.
  unfold notOpenBrace in Hx. apply negb_true_iff in Hx.
  rewrite Ascii.eqb_sym, Hx. specialize (IH Hs). unfold includes in IH.
  by destruct (splitFirst _ s).
Qed.

Lemma includes_append_plain a b pat c :
  allChars notOpenBrace a = true ->
  includes b (String "{" (String c pat)) = false ->
  includes (a +:+ b) (String "{" (String c pat)) = false.
Proof.
  intros Ha Hb. induction a as [|x a IH]; [done|]. rewrite append_cons.
  simpl in Ha. apply andb_true_iff in Ha as [Hx Ha]. unfold includes.
  rewrite splitFirst_cons, stripPrefix_cons.
  unfold notOpenBrace in Hx. apply negb_true_iff in Hx.
  rewrite Ascii.eqb_sym, Hx. specialize (IH Ha). unfold includes in IH.
  by destruct (splitFirst _ (a +:+ b)).
Qed.

(** A token that opens with a brace and goes on with a character other than
    [c], followed by plain text, holds no [{c]. *)
Lemma includes_other_token d rest pat c :
  Ascii.eqb c d = false ->
  allChars notOpenBrace (String d rest) = true ->
  includes (String "{" (String d rest)) (String "{" (String c pat)) = false.
Proof.
  intros Hcd Hrest. unfold includes.
  rewrite splitFirst_cons, !stripPrefix_cons, Hcd. simpl (Ascii.eqb "{" "{").
  pose proof (includes_plain (String d rest) pat c Hrest) as Hplain.
  unfold includes in Hplain.
  by destruct (splitFirst _ (String d rest)).
Qed.

Lemma includes_skip x s pat :
  stripPrefix pat (String x s) = None ->
  includes s pat = false -> includes (String x s) pat = false.
Proof.
  unfold includes. rewrite splitFirst_cons. intros ->.
  by destruct (splitFirst pat s) as [[]|].
Qed.

Lemma editableTagAt_opens s m g :
  editableTagAt s = Some (m, g) -> is_Some (stripPrefix "{%" s).
Proof. unfold editableTagAt. by destruct (stripPrefix "{%" s); [eauto|]. Qed.

Lemma snippetsRefAt_opens s m g :
  snippetsRefAt s = Some (m, g) -> is_Some (stripPrefix "{{" s).
Proof. unfold snippetsRefAt. by destruct (stripPrefix "{{" s); [eauto|]. Qed.

Lemma editableTagAt_plain c s :
  notOpenBrace c = true -> editableTagAt (String c s) = None.
Proof.
  unfold notOpenBrace, editableTagAt. intros Hc%negb_true_iff.
  rewrite stripPrefix_cons, Ascii.eqb_sym. by rewrite Hc.
Qed.

Lemma snippetsRefAt_plain c s :
  notOpenBrace c = true -> snippetsRefAt (String c s) = None.
Proof.
  unfold notOpenBrace, snippetsRefAt. intros Hc%negb_true_iff.
  rewrite stripPrefix_cons, Ascii.eqb_sym. by rewrite Hc.
Qed.

Lemma editableTag_append snippetName after :
  editableTag snippetName +:+ after
  = "{% editable snippets '" +:+ snippetName
    +:+ String "'" (" " +:+ String "%" (String "}" after)).
Proof. unfold editableTag. by rewrite !append_assoc. Qed.

Lemma editableTagAt_tag snippetName after :
  allChars notQuote snippetName = true -> truthy snippetName = true ->
  editableTagAt (editableTag snippetName +:+ after)
  = Some (editableTag snippetName, snippetName).
Proof.
  intros Hname Hnonempty.
  assert (consumed (editableTag snippetName +:+ after) after
          = editableTag snippetName) as Hconsumed
    by apply consumed_append.
  rewrite editableTag_append in *.
  unfold editableTagAt. rewrite !append_cons, append_nil. simpl.
  rewrite span_append by done.
  rewrite Hnonempty. simpl.
  rewrite !append_cons, append_nil in Hconsumed.
  change ("" +:+ after) with after in *. by rewrite Hconsumed.
Qed.

Lemma snippetsReference_append snippetName after :
  snippetsReference snippetName +:+ after
  = "{{ snippets['" +:+ snippetName +:+ String "'" ("] }}" +:+ after).
Proof. unfold snippetsReference. by rewrite !append_assoc. Qed.

Lemma snippetsRefAt_reference snippetName after :
  allChars notQuote snippetName = true -> truthy snippetName = true ->
  snippetsRefAt (snippetsReference snippetName +:+ after)
  = Some (snippetsReference snippetName, snippetName).
Proof.
  intros Hname Hnonempty.
  assert (consumed (snippetsReference snippetName +:+ after) after
          = snippetsReference snippetName) as Hconsumed
    by apply consumed_append.
  rewrite snippetsReference_append in *.
  unfold snippetsRefAt. rewrite !append_cons, append_nil. simpl.
  rewrite span_append by done.
  rewrite Hnonempty. simpl.
  rewrite !append_cons, append_nil in Hconsumed.
  change ("" +:+ after) with after in *. by rewrite Hconsumed.
Qed.

(** One token between plain texts is the only match. *)
Lemma matchAll_one_token tokenAt before c token after name :
  (∀ c s, notOpenBrace c = true -> tokenAt (String c s) = None) ->
  allChars notOpenBrace before = true ->
  allChars notOpenBrace after = true ->
  tokenAt (String c token +:+ after) = Some (String c token, name) ->
  matchAll tokenAt (before +:+ String c token +:+ after)
  = [(String c token, name)].
Proof.
  intros Hplain Hbefore Hafter Hhit. unfold matchAll.
  rewrite matchAll_from_plain by done.
  erewrite matchAll_from_hit by exact Hhit. f_equal.
  by apply matchAll_from_all_plain.
Qed.

End Tokens.

Section Processing.
Import LiquidEngine Handlers Processors.
Variable regexTest : string -> string -> bool.
Variable regexCount : string -> string -> nat.
Variable Data : Type.
Variable mockData : Data.
Variable spread : Data -> Data -> Data.
Variable parseAndRender : string -> Data -> Outcome string.
Variable Yaml : Type.
Variable yamlParse : string -> Outcome Yaml.
Variable emptyYaml : Yaml.
Variable config : Config.
Variable site : Site.

Local Abbreviation renderTemplate :=
  (renderTemplate regexTest regexCount Data mockData spread parseAndRender
     Yaml yamlParse emptyYaml config site).
Local Abbreviation renderSnippet :=
  (renderSnippet regexTest regexCount Data mockData spread parseAndRender
     Yaml yamlParse emptyYaml config site).
Local Abbreviation processTemplateIncludes :=
  (processTemplateIncludes regexTest regexCount Data mockData spread
     parseAndRender Yaml yamlParse emptyYaml config site).
Local Abbreviation processSnippetReferences :=
  (processSnippetReferences regexTest regexCount Data mockData spread
     parseAndRender Yaml yamlParse emptyYaml config site).

Lemma processTemplateIncludes_directive templatesCache before templateName
    after data text cache' :
  allChars notOpenBrace before = true ->
  allChars notOpenBrace after = true ->
  allChars plainNameChar templateName = true ->
  truthy templateName = true ->
  renderTemplate templatesCache templateName data = (Ret text, cache') ->
  processTemplateIncludes templatesCache
    (before +:+ includeDirective templateName +:+ after) data
  = (before
     +:+ getSubstitution (includeDirective templateName) before after text
     +:+ after, cache').
Proof.
  intros Hbefore Hafter Hname Hnonempty Hrender.
  assert (allChars notQuote templateName = true) as Hname2
    by (eapply allChars_weaken, Hname; intros c; apply plainNameChar_spec).
  unfold Processors.processTemplateIncludes.
  rewrite matchAll_directive by done. simpl. rewrite Hrender.
  unfold replace. by rewrite splitFirst_plain by done.
Qed.

Lemma renderTemplate_missing templatesCache templateName data :
  templatesCache !! templateName = None ->
  templatesPath site !! toLowerCase templateName = None ->
  renderTemplate templatesCache templateName data
  = (Ret (templateNotFound templateName), templatesCache).
Proof.
  intros Hmiss Hdir.
  unfold Handlers.renderTemplate, getTemplate, loadTemplate.
  by rewrite Hmiss, Hdir.
Qed.

Lemma renderSnippet_missing snippetsCache snippetName data :
  snippetsCache !! snippetName = None ->
  snippetUnresolved site snippetName ->
  renderSnippet snippetsCache snippetName data
  = (Ret (snippetNotFound snippetName), snippetsCache).
Proof.
  intros Hmiss Hunresolved. unfold Handlers.renderSnippet, getSnippet.
  by rewrite Hmiss, loadSnippet_unresolved.
Qed.

Lemma processSnippetReferences_reference snippetsCache before snippetName
    after data text cache' :
  allChars notOpenBrace before = true ->
  allChars notOpenBrace after = true ->
  allChars plainNameChar snippetName = true ->
  truthy snippetName = true ->
  renderSnippet snippetsCache snippetName data = (Ret text, cache') ->
  processSnippetReferences snippetsCache
    (before +:+ snippetsReference snippetName +:+ after) data
  = (before
     +:+ getSubstitution (snippetsReference snippetName) before after text
     +:+ after, cache').
Proof.
  intros Hbefore Hafter Hname Hnonempty Hrender.
  assert (allChars notQuote snippetName = true) as Hname2
    by (eapply allChars_weaken, Hname; intros c; apply plainNameChar_spec).
  assert (allChars notOpenBrace snippetName = true) as Hname1
    by (eapply allChars_weaken, Hname; intros c; apply plainNameChar_spec).
  unfold Processors.processSnippetReferences.
  assert (matchAll editableTagAt
            (before +:+ snippetsReference snippetName +:+ after) = [])
    as ->.
  { apply (matchAll_from_absent editableTagAt "{%");
      [apply editableTagAt_opens|].
    apply includes_append_plain; [done|].
    unfold snippetsReference. rewrite !append_cons.
    apply includes_skip; [done|].
    apply includes_other_token; [done|].
    rewrite <- !append_cons, !allChars_append, Hname1, Hafter. done. }
  simpl.
  pose proof (snippetsRefAt_reference snippetName after Hname2 Hnonempty)
    as Hhit.
  unfold snippetsReference in *. rewrite append_cons in *.
  rewrite (matchAll_one_token snippetsRefAt before _ _ after snippetName)
    by (done || apply snippetsRefAt_plain).
  simpl. rewrite Hrender.
  unfold replace. by rewrite <- append_cons, splitFirst_plain by done.
Qed.

Lemma processSnippetReferences_editable snippetsCache before snippetName
    after data text cache' :
  allChars notOpenBrace before = true ->
  allChars notOpenBrace after = true ->
  allChars plainNameChar snippetName = true ->
  truthy snippetName = true ->
  renderSnippet snippetsCache snippetName data = (Ret text, cache') ->
  processSnippetReferences snippetsCache
    (before +:+ editableTag snippetName +:+ after) data
  = (before
     +:+ getSubstitution (editableTag snippetName) before after text
     +:+ after, cache').
Proof.
  intros Hbefore Hafter Hname Hnonempty Hrender.
  assert (allChars notQuote snippetName = true) as Hname2
    by (eapply allChars_weaken, Hname; intros c; apply plainNameChar_spec).
  assert (allChars notOpenBrace snippetName = true) as Hname1
    by (eapply allChars_weaken, Hname; intros c; apply plainNameChar_spec).
  unfold Processors.processSnippetReferences.
  assert (matchAll snippetsRefAt
            (before +:+ editableTag snippetName +:+ after) = [])
    as Hnone.
  { apply (matchAll_from_absent snippetsRefAt "{{");
      [apply snippetsRefAt_opens|].
    apply includes_append_plain; [done|].
    unfold editableTag. rewrite !append_cons.
    apply includes_other_token; [done|].
    rewrite <- !append_cons, !allChars_append, Hname1, Hafter. done. }
  rewrite Hnone.
  pose proof (editableTagAt_tag snippetName after Hname2 Hnonempty) as Hhit.
  unfold editableTag in *. rewrite append_cons in *.
  rewrite (matchAll_one_token editableTagAt before _ _ after snippetName)
    by (done || apply editableTagAt_plain).
  simpl. rewrite Hrender.
  unfold replace. by rewrite <- append_cons, splitFirst_plain by done.
Qed.

End Processing.





(** * Properties of the escape filter *)

Section Escaping.
Import Filters.

Lemma escape_append a b : escape (a +:+ b) = escape a +:+ escape b.
Proof.
  induction a as [|c a IH]; [done|]. rewrite append_cons. simpl.
  by rewrite IH, append_assoc.
Qed.

Lemma escapeChar_plain c : special c = false -> escapeChar c = String c "".
Proof.
  unfold special, escapeChar.
  destruct (Ascii.eqb c "&"), (Ascii.eqb c "<"), (Ascii.eqb c ">"),
    (Ascii.eqb c "034"), (Ascii.eqb c "'"); done.
Qed.

Lemma escapeChar_special c :
  special c = true ->
  ∃ entity, escapeChar c = String "&" entity
            ∧ allChars (λ x, negb (markup x)) entity = true
            ∧ 2 ≤ String.length entity.
Proof.
  unfold special, escapeChar.
  destruct (Ascii.eqb c "&"), (Ascii.eqb c "<"), (Ascii.eqb c ">"),
    (Ascii.eqb c "034"), (Ascii.eqb c "'"); try done;
    intros _; eexists; (split_and!; [reflexivity|reflexivity|simpl; lia]).
Qed.

Lemma markup_special c : markup c = true -> special c = true.
Proof.
  unfold markup, special.
  destruct (Ascii.eqb c "&"), (Ascii.eqb c "<"), (Ascii.eqb c ">"),
    (Ascii.eqb c "034"), (Ascii.eqb c "'"); done.
Qed.

Lemma escape_no_markup input :
  allChars (λ c, negb (markup c)) (escape input) = true.
Proof.
  induction input as [|c input IH]; [done|]. simpl.
  rewrite allChars_append, IH, andb_true_r.
  destruct (special c) eqn:Hc.
  - destruct (escapeChar_special c Hc) as (entity & -> & Hentity & _).
    simpl. by rewrite Hentity.
  - rewrite (escapeChar_plain c Hc). simpl.
    destruct (markup c) eqn:Hm; [|done].
    apply markup_special in Hm. congruence.
Qed.

Lemma escape_length input :
  String.length input ≤ String.length (escape input).
Proof.
  induction input as [|c input IH]; [done|]. simpl.
  rewrite length_append.
  destruct (special c) eqn:Hc.
  - destruct (escapeChar_special c Hc) as (entity & -> & _ & Hlen).
    simpl. lia.
  - rewrite (escapeChar_plain c Hc). simpl. lia.
Qed.

Lemma escape_fixed input :
  escape input = input ↔ allChars (λ c, negb (special c)) input = true.
Proof.
  induction input as [|c input IH]; [done|]. simpl.
  destruct (special c) eqn:Hc; simpl.
  - split; [|done]. intros Heq.
    destruct (escapeChar_special c Hc) as (entity & Hentity & _ & Hlen).
    assert (String.length (escapeChar c +:+ escape input)
            = String.length (String c input)) as Hsame by (by rewrite Heq).
    rewrite length_append, Hentity in Hsame. simpl in Hsame.
    pose proof (escape_length input). lia.
  - rewrite (escapeChar_plain c Hc), <- IH. rewrite append_cons, append_nil.
    split; [by intros [= ->]|by intros ->].
Qed.

Lemma escapeChar_cases c :
  (c = "&"%char ∧ escapeChar c = "&amp;")
  ∨ (c = "<"%char ∧ escapeChar c = "&lt;")
  ∨ (c = ">"%char ∧ escapeChar c = "&gt;")
  ∨ (c = "034"%char ∧ escapeChar c = "&quot;")
  ∨ (c = "'"%char ∧ escapeChar c = "&#39;")
  ∨ (c ≠ "&"%char ∧ escapeChar c = String c "").
Proof.
  unfold escapeChar.
  destruct (Ascii.eqb_spec c "&") as [->|?]; [by left|].
  destruct (Ascii.eqb_spec c "<") as [->|?]; [by right; left|].
  destruct (Ascii.eqb_spec c ">") as [->|?]; [by right; right; left|].
  destruct (Ascii.eqb_spec c "034") as [->|?]; [by right; right; right; left|].
  destruct (Ascii.eqb_spec c "'") as [->|?];
    [by right; right; right; right; left|].
  by right; right; right; right; right.
Qed.

(** The table sends different characters to texts none of which begins
    another. *)
Lemma escapeChar_append_inj c1 c2 r1 r2 :
  escapeChar c1 +:+ r1 = escapeChar c2 +:+ r2 -> c1 = c2 ∧ r1 = r2.
Proof.
  destruct (escapeChar_cases c1)
    as [[? ->]|[[? ->]|[[? ->]|[[? ->]|[[? ->]|[? ->]]]]]];
    destruct (escapeChar_cases c2)
      as [[? ->]|[[? ->]|[[? ->]|[[? ->]|[[? ->]|[? ->]]]]]];
    rewrite ?append_cons, ?append_nil; intros Heq; by simplify_eq.
Qed.

Lemma escape_inj a b : escape a = escape b -> a = b.
Proof.
  revert b. induction a as [|c a IH]; intros [|d b]; simpl.
  - done.
  - intros Heq.
    assert (String.length (escapeChar d +:+ escape b) = 0) as Hlen
      by (by rewrite <- Heq).
    rewrite length_append in Hlen.
    unfold escapeChar in Hlen.
    by destruct (Ascii.eqb d "&"), (Ascii.eqb d "<"), (Ascii.eqb d ">"),
      (Ascii.eqb d "034"), (Ascii.eqb d "'").
  - intros Heq.
    assert (String.length (escapeChar c +:+ escape a) = 0) as Hlen
      by (by rewrite Heq).
    rewrite length_append in Hlen.
    unfold escapeChar in Hlen.
    by destruct (Ascii.eqb c "&"), (Ascii.eqb c "<"), (Ascii.eqb c ">"),
      (Ascii.eqb c "034"), (Ascii.eqb c "'").
  - intros [-> Hrest]%escapeChar_append_inj. by rewrite (IH b Hrest).
Qed.

End Escaping.

(** The escape filter neutralises markup and loses nothing.  On every
    string the output of [escape] holds no angle bracket and no quote;
    escaping distributes over concatenation; the output equals the input
    exactly when the input holds none of the five characters of the class;
    and different inputs give different outputs. *)
Theorem escape_filter_neutralises_markup :
  (∀ input, allChars (λ c, negb (Filters.markup c)) (Filters.escape input)
            = true)
  ∧ (∀ a b, Filters.escape (a +:+ b) = Filters.escape a +:+ Filters.escape b)
  ∧ (∀ input, Filters.escape input = input ↔
              allChars (λ c, negb (Filters.special c)) input = true)
  ∧ (∀ a b, Filters.escape a = Filters.escape b -> a = b).
Proof.
  split_and!.
  - apply escape_no_markup.
  - apply escape_append.
  - apply escape_fixed.
  - apply escape_inj.
Qed.

Lemma escape_filter_neutralises_markup_witness :
  Filters.escape "<a href='x'>Q&A</a>"
  = "&lt;a href=&#39;x&#39;&gt;Q&amp;A&lt;/a&gt;"
  ∧ (Filters.escape "Q&A" = Filters.escape "Q&A" -> "Q&A" = "Q&A").
Proof.
  split; [reflexivity|].
  apply (proj2 (proj2 (proj2 escape_filter_neutralises_markup)) "Q&A" "Q&A").
Defined.

(** * Properties of the skip decision *)

Section LiquidSyntax.
Import LiquidEngine.

Lemma closesOnLine_cons close c s :
  closesOnLine close (String c s)
  = match stripPrefix close (String c s) with
    | Some _ => true
    | None => if isLineTerminator c then false else closesOnLine close s
    end.
Proof. reflexivity. Qed.

Lemma delimited_cons open close c s :
  delimited open close (String c s)
  = match stripPrefix open (String c s) with
    | Some rest => closesOnLine close rest
    | None => false
    end || delimited open close s.
Proof. reflexivity. Qed.

(** What closes after a hyphen closes without it. *)
Lemma closesOnLine_dash close s :
  closesOnLine (String "-" close) s = true -> closesOnLine close s = true.
Proof.
  induction s as [|c s IH]; [done|].
  rewrite !closesOnLine_cons, stripPrefix_cons.
  destruct (stripPrefix close (String c s)); [done|].
  destruct (Ascii.eqb_spec "-" c) as [<-|_].
  - change (isLineTerminator "-") with false. cbv iota.
    destruct (stripPrefix close s) as [rest|] eqn:Hstrip; [|exact IH].
    intros _. destruct s as [|d s]; simpl; by rewrite Hstrip.
  - destruct (isLineTerminator c); [done|]. exact IH.
Qed.

Lemma closesOnLine_after_dash close s :
  closesOnLine close s = true -> closesOnLine close (String "-" s) = true.
Proof.
  intros Hs. rewrite closesOnLine_cons.
  by destruct (stripPrefix close (String "-" s)).
Qed.

Lemma stripPrefix_shorter a p s rest :
  stripPrefix (p +:+ String a "") s = Some rest ->
  stripPrefix p s = Some (String a rest).
Proof.
  revert s. induction p as [|x p IH]; intros s.
  - rewrite append_nil. destruct s as [|c s]; [done|].
    rewrite stripPrefix_cons.
    destruct (Ascii.eqb_spec a c) as [->|]; [|done]. by intros [= ->].
  - rewrite append_cons. destruct s as [|c s]; [done|].
    rewrite !stripPrefix_cons. destruct (Ascii.eqb x c); [|done]. apply IH.
Qed.

(** The white-space-control form of a delimiter pair is caught by the plain
    pair already. *)
Lemma delimited_dash open close s :
  delimited (open +:+ "-") (String "-" close) s = true ->
  delimited open close s = true.
Proof.
  induction s as [|c s IH].
  - simpl. destruct (stripPrefix (open +:+ "-") "") as [rest|] eqn:Hstrip;
      [|done].
    apply stripPrefix_shorter in Hstrip. rewrite Hstrip, !orb_false_r.
    intros Hclose. by apply closesOnLine_after_dash, closesOnLine_dash.
  - rewrite !delimited_cons.
    intros [Hhere|Hlater]%orb_true_iff; apply orb_true_iff.
    + left.
      destruct (stripPrefix (open +:+ "-") (String c s)) as [rest|] eqn:Hstrip;
        [|done].
      apply stripPrefix_shorter in Hstrip. rewrite Hstrip.
      by apply closesOnLine_after_dash, closesOnLine_dash.
    + right. by apply IH.
Qed.

Lemma delimited_here open close rest :
  closesOnLine close rest = true ->
  delimited open close (open +:+ rest) = true.
Proof.
  intros Hclose.
  assert (∀ s, delimited open close s
               = match stripPrefix open s with
                 | Some rest => closesOnLine close rest
                 | None => false
                 end
                 || match s with
                    | EmptyString => false
                    | String _ s' => delimited open close s'
                    end) as Hunfold by (by intros []).
  by rewrite Hunfold, stripPrefix_append, Hclose.
Qed.

Lemma delimited_absent open close s :
  includes s open = false -> delimited open close s = false.
Proof.
  induction s as [|c s IH].
  - unfold includes. simpl. by destruct (stripPrefix open "").
  - intros [Hstrip Hs]%includes_cons_false.
    by rewrite delimited_cons, Hstrip, IH.
Qed.

Lemma delimited_append_r open close a b :
  delimited open close b = true -> delimited open close (a +:+ b) = true.
Proof.
  intros Hb. induction a as [|c a IH]; [done|].
  rewrite append_cons, delimited_cons, IH. apply orb_true_r.
Qed.

Lemma closesOnLine_append close a rest :
  allChars notLineTerminator a = true ->
  closesOnLine close (a +:+ close +:+ rest) = true.
Proof.
  induction a as [|c a IH]; intros Ha.
  - rewrite append_nil. destruct (close +:+ rest) as [|c s] eqn:Heq.
    + destruct close; [done|]. by rewrite append_cons in Heq.
    + rewrite closesOnLine_cons, <- Heq. by rewrite stripPrefix_append.
  - rewrite append_cons, closesOnLine_cons.
    destruct (stripPrefix close _); [done|].
    simpl in Ha. apply andb_true_iff in Ha as [Hc Ha].
    unfold notLineTerminator in Hc. apply negb_true_iff in Hc.
    rewrite Hc. by apply IH.
Qed.

Lemma containsLiquidSyntax_two content :
  containsLiquidSyntax content
  = delimited "{{" "}}" content || delimited "{%" "%}" content.
Proof.
  unfold containsLiquidSyntax.
  destruct (delimited "{{" "}}" content) eqn:H1; [done|].
  destruct (delimited "{%" "%}" content) eqn:H2; [done|].
  destruct (delimited "{{-" "-}}" content) eqn:H3.
  { apply (delimited_dash "{{" "}}") in H3. congruence. }
  destruct (delimited "{%-" "-%}" content) eqn:H4; [|done].
  apply (delimited_dash "{%" "%}") in H4. congruence.
Qed.

End LiquidSyntax.

(** The Liquid-syntax check has two effective patterns.  The two
    white-space-control patterns of [containsLiquidSyntax] never decide: the
    check is true exactly when the content holds a [{{ }}] or a [{% %}] pair
    on one line.  So it is false for a content without [{{] and [{%], and an
    include with a script-like name and such a content is skipped; and it is
    true for a content that holds an include directive whose name has no
    line break, so that such an include is processed unless its name is
    listed in [liquidExcludes]. *)
Theorem liquid_syntax_check_has_two_patterns :
  (∀ content,
     LiquidEngine.containsLiquidSyntax content
     = LiquidEngine.delimited "{{" "}}" content
       || LiquidEngine.delimited "{%" "%}" content)
  ∧ (∀ config fileName content,
       includes content "{{" = false -> includes content "{%" = false ->
       LiquidEngine.containsLiquidSyntax content = false
       ∧ LiquidEngine.shouldSkipLiquidProcessing config fileName content
         = match liquidExcludes config with
           | Some excludes =>
               bool_decide (fileName ∈ excludes)
               || LiquidEngine.isJavaScriptFile fileName
           | None => LiquidEngine.isJavaScriptFile fileName
           end)
  ∧ (∀ config fileName before includeName after,
       allChars notLineTerminator includeName = true ->
       LiquidEngine.containsLiquidSyntax
         (before +:+ includeDirective includeName +:+ after) = true
       ∧ LiquidEngine.shouldSkipLiquidProcessing config fileName
           (before +:+ includeDirective includeName +:+ after)
         = match liquidExcludes config with
           | Some excludes => bool_decide (fileName ∈ excludes)
           | None => false
           end).
Proof.
  split_and!.
  - apply containsLiquidSyntax_two.
  - intros config fileName content Hrefs Htags.
    assert (LiquidEngine.containsLiquidSyntax content = false) as Hnone.
    { rewrite containsLiquidSyntax_two.
      by rewrite !delimited_absent. }
    split; [done|]. unfold LiquidEngine.shouldSkipLiquidProcessing.
    rewrite Hnone, andb_false_r.
    destruct (liquidExcludes config) as [excludes|].
    + destruct (bool_decide (fileName ∈ excludes)); [done|].
      by destruct (LiquidEngine.isJavaScriptFile fileName).
    + by destruct (LiquidEngine.isJavaScriptFile fileName).
  - intros config fileName before includeName after Hname.
    assert (LiquidEngine.containsLiquidSyntax
              (before +:+ includeDirective includeName +:+ after) = true)
      as Hsyntax.
    { rewrite containsLiquidSyntax_two. apply orb_true_iff. right.
      apply delimited_append_r.
      assert (includeDirective includeName +:+ after
              = "{%" +:+ (" include '" +:+ includeName +:+ "' ") +:+ "%}"
                  +:+ after) as ->
        by (unfold includeDirective; by rewrite !append_assoc).
      apply delimited_here, closesOnLine_append.
      by rewrite !allChars_append, Hname. }
    split; [done|]. unfold LiquidEngine.shouldSkipLiquidProcessing.
    rewrite Hsyntax.
    destruct (liquidExcludes config) as [excludes|].
    + destruct (bool_decide (fileName ∈ excludes)); [done|].
      destruct (LiquidEngine.isJavaScriptFile fileName); [|done].
      unfold includeDirective.
      by destruct before.
    + destruct (LiquidEngine.isJavaScriptFile fileName); [|done].
      by destruct before.
Qed.

Lemma liquid_syntax_check_has_two_patterns_witness :
  LiquidEngine.shouldSkipLiquidProcessing Samples.plainConfig "jquery-init"
    "window.ready = function () { return 1; };"
  = true
  ∧ LiquidEngine.shouldSkipLiquidProcessing Samples.plainConfig "jquery-init"
      ("var t = [" +:+ includeDirective "Notice" +:+ "];")
    = false.
Proof.
  split.
  - apply (proj2 (proj1 (proj2 liquid_syntax_check_has_two_patterns)
                    Samples.plainConfig "jquery-init"
                    "window.ready = function () { return 1; };"
                    eq_refl eq_refl)).
  - apply (proj2 (proj2 (proj2 liquid_syntax_check_has_two_patterns)
                    Samples.plainConfig "jquery-init" "var t = [" "Notice" "];"
                    eq_refl)).
Defined.

(** * Properties of the web-file mappings *)

Section WebFileMappings.
Import Pages WebFiles.
Variable parseWebFile : string -> Outcome WebFile.
Variable targetExists : string -> bool.
Local Abbreviation mappedTarget := (mappedTarget parseWebFile targetExists).
Local Abbreviation firstMapping := (firstMapping parseWebFile targetExists).

Lemma firstMapping_app yamlFiles1 yamlFiles2 requestedFileName :
  firstMapping (yamlFiles1 ++ yamlFiles2) requestedFileName
  = match firstMapping yamlFiles1 requestedFileName with
    | Some actualFileName => Some actualFileName
    | None => firstMapping yamlFiles2 requestedFileName
    end.
Proof.
  induction yamlFiles1 as [|[name yamlFile] yamlFiles1 IH]; [done|]. simpl.
  by destruct (mappedTarget yamlFile requestedFileName).
Qed.

Lemma mappedTarget_Some yamlFile requestedFileName actualFileName :
  mappedTarget yamlFile requestedFileName = Some actualFileName ↔
  ∃ config,
    (yamlContent ← readFile yamlFile; parseWebFile yamlContent) = Ret config
    ∧ wf_partialurl config = VString requestedFileName
    ∧ wf_name config = VString actualFileName
    ∧ targetExists actualFileName = true.
Proof.
  unfold WebFiles.mappedTarget.
  destruct (readFile yamlFile ≫= _) as [config|error].
  2:{ split; [done|]. by intros (? & ? & _). }
  split.
  - destruct (wf_partialurl config) as [partial| |] eqn:Hurl; simpl;
      [|done..].
    case_bool_decide as Hpartial; [|done]. subst partial.
    destruct (wf_name config) as [name| |] eqn:Hname; [|done..].
    destruct (targetExists name) eqn:Hexists; [|done].
    intros [= <-]. by exists config.
  - intros (? & [= <-] & -> & -> & ->). simpl.
    by rewrite bool_decide_eq_true_2.
Qed.

Lemma firstMapping_Some yamlFiles requestedFileName actualFileName :
  firstMapping yamlFiles requestedFileName = Some actualFileName ->
  ∃ name yamlFile,
    (name, yamlFile) ∈ yamlFiles
    ∧ mappedTarget yamlFile requestedFileName = Some actualFileName.
Proof.
  induction yamlFiles as [|[name yamlFile] yamlFiles IH]; [done|]. simpl.
  destruct (mappedTarget yamlFile requestedFileName) as [target|] eqn:Htarget.
  - intros [= <-]. exists name, yamlFile. split; [by left|done].
  - intros (name' & yamlFile' & Hin & Hmapped)%IH.
    exists name', yamlFile'. split; [by right|done].
Qed.

Lemma firstMapping_is_Some yamlFiles requestedFileName name yamlFile :
  (name, yamlFile) ∈ yamlFiles ->
  is_Some (mappedTarget yamlFile requestedFileName) ->
  is_Some (firstMapping yamlFiles requestedFileName).
Proof.
  intros Hin Hmapped.
  induction yamlFiles as [|[name' yamlFile'] yamlFiles IH];
    [by apply elem_of_nil in Hin|].
  simpl. apply elem_of_cons in Hin as [[= <- <-]|Hin].
  - destruct Hmapped as [target ->]. by eexists.
  - destruct (mappedTarget yamlFile' requestedFileName); [by eexists|].
    by apply IH.
Qed.

End WebFileMappings.

(** A mapping document that cannot be read is passed over.  The file
    [findFileByYamlMapping] returns is the existing target of a listed
    [.webfile.yml] document whose partial URL is the requested name; every
    listed document of that kind guarantees that some file is returned; and
    a document that cannot be read or parsed changes nothing: the answer is
    the one for the folder without it. *)
Theorem unreadable_mapping_is_passed_over :
  ∀ (parseWebFile : string -> Outcome WebFiles.WebFile)
    (targetExists : string -> bool) requestedFileName,
    (∀ files actualFileName,
       WebFiles.findFileByYamlMapping parseWebFile targetExists (Ret files)
         requestedFileName = Some actualFileName ->
       ∃ name yamlFile config,
         (name, yamlFile) ∈ files ∧ endsWith name ".webfile.yml" = true
         ∧ (yamlContent ← readFile yamlFile; parseWebFile yamlContent)
           = Ret config
         ∧ WebFiles.wf_partialurl config = Pages.VString requestedFileName
         ∧ WebFiles.wf_name config = Pages.VString actualFileName
         ∧ targetExists actualFileName = true)
    ∧ (∀ files name yamlFile config actualFileName,
         (name, yamlFile) ∈ files -> endsWith name ".webfile.yml" = true ->
         (yamlContent ← readFile yamlFile; parseWebFile yamlContent)
         = Ret config ->
         WebFiles.wf_partialurl config = Pages.VString requestedFileName ->
         WebFiles.wf_name config = Pages.VString actualFileName ->
         targetExists actualFileName = true ->
         is_Some (WebFiles.findFileByYamlMapping parseWebFile targetExists
                    (Ret files) requestedFileName))
    ∧ (∀ files1 name yamlFile files2 error,
         (yamlContent ← readFile yamlFile; parseWebFile yamlContent)
         = Throw error ->
         WebFiles.findFileByYamlMapping parseWebFile targetExists
           (Ret (files1 ++ (name, yamlFile) :: files2)) requestedFileName
         = WebFiles.findFileByYamlMapping parseWebFile targetExists
             (Ret (files1 ++ files2)) requestedFileName).
Proof.
  intros parseWebFile targetExists requestedFileName. split_and!.
  - intros files actualFileName. unfold WebFiles.findFileByYamlMapping.
    intros (name & yamlFile & Hin & Hmapped)%firstMapping_Some.
    apply list_elem_of_filter in Hin as [Hyml Hin].
    apply mappedTarget_Some in Hmapped as (config & ? & ? & ? & ?).
    by exists name, yamlFile, config.
  - intros files name yamlFile config actualFileName Hin Hyml Hparse Hpartial
      Hname Hexists.
    unfold WebFiles.findFileByYamlMapping.
    apply (firstMapping_is_Some _ _ _ _ name yamlFile).
    + by apply list_elem_of_filter.
    + exists actualFileName. apply mappedTarget_Some. by exists config.
  - intros files1 name yamlFile files2 error Hthrow.
    unfold WebFiles.findFileByYamlMapping.
    rewrite !filter_app, filter_cons, !firstMapping_app.
    destruct (WebFiles.firstMapping _ _ (filter _ files1) _); [done|].
    case_decide; [|done]. simpl.
    unfold WebFiles.mappedTarget. by rewrite Hthrow.
Qed.

Lemma unreadable_mapping_is_passed_over_witness :
  WebFiles.findFileByYamlMapping MoreSamples.parseMapping MoreSamples.listed
    (Ret MoreSamples.webFilesListing) "theme.css"
  = Some "Theme.css"
  ∧ WebFiles.findFileByYamlMapping MoreSamples.parseMapping MoreSamples.listed
      (Ret ([] ++ ("Broken.webfile.yml", File "a: b: c")
               :: [("Theme.css", File "body { margin: 0 }");
                   ("Theme.css.webfile.yml", File "theme")])) "theme.css"
    = WebFiles.findFileByYamlMapping MoreSamples.parseMapping
        MoreSamples.listed
        (Ret ([] ++ [("Theme.css", File "body { margin: 0 }");
                     ("Theme.css.webfile.yml", File "theme")])) "theme.css".
Proof.
  split; [by vm_compute|].
  apply (proj2 (proj2 (unreadable_mapping_is_passed_over
                         MoreSamples.parseMapping MoreSamples.listed
                         "theme.css"))
               [] "Broken.webfile.yml" (File "a: b: c")
               [("Theme.css", File "body { margin: 0 }");
                ("Theme.css.webfile.yml", File "theme")]
               (EngineError "YAMLParseError")).
  reflexivity.
Defined.

(** * Tokens replaced where they stand *)

Section Patterns.

Lemma getSubstitution_literal matched before after c r :
  Ascii.eqb c "$" && startsPattern r = false ->
  getSubstitution matched before after (String c r)
  = String c (getSubstitution matched before after r).
Proof.
  destruct (Ascii.eqb_spec c "$") as [->|Hc].
  - destruct r as [|d r]; [done|]. simpl.
    destruct d as [[] [] [] [] [] [] [] []]; by try discriminate.
  - intros _.
    destruct c as [[] [] [] [] [] [] [] []]; try reflexivity.
    by destruct Hc.
Qed.

Lemma getSubstitution_patternFree matched before after repl :
  patternFree repl = true ->
  getSubstitution matched before after repl = repl.
Proof.
  induction repl as [|c r IH]; [done|].
  change (patternFree (String c r))
    with (negb (Ascii.eqb c "$" && startsPattern r) && patternFree r).
  intros [Hc Hr]%andb_true_iff. apply negb_true_iff in Hc.
  by rewrite getSubstitution_literal, IH.
Qed.

Lemma startsPattern_append a b :
  startsPattern (a +:+ b)
  = match a with EmptyString => startsPattern b | _ => startsPattern a end.
Proof. by destruct a. Qed.

(** A text put before a replacement text adds no pattern when it holds no
    dollar sign. *)
Lemma patternFree_append_plain a b :
  allChars notDollar a = true -> patternFree (a +:+ b) = patternFree b.
Proof.
  induction a as [|c a IH]; [done|]. rewrite append_cons.
  change (allChars notDollar (String c a))
    with (notDollar c && allChars notDollar a).
  intros [Hc Ha]%andb_true_iff.
  change (patternFree (String c (a +:+ b)))
    with (negb (Ascii.eqb c "$" && startsPattern (a +:+ b))
          && patternFree (a +:+ b)).
  unfold notDollar in Hc. apply negb_true_iff in Hc. by rewrite Hc, IH.
Qed.

(** Nor does a text put after it, when that text holds no pattern and does
    not begin with a pattern character. *)
Lemma patternFree_append_suffix a b :
  startsPattern b = false -> patternFree b = true ->
  patternFree (a +:+ b) = patternFree a.
Proof.
  intros Hstart Hb. induction a as [|c a IH]; [done|]. rewrite append_cons.
  change (patternFree (String c ?r))
    with (negb (Ascii.eqb c "$" && startsPattern r) && patternFree r).
  rewrite IH, startsPattern_append.
  destruct a; [|done]. simpl startsPattern. rewrite Hstart.
  by rewrite andb_false_r.
Qed.

Lemma patternFree_marker (label includeName : string) :
  allChars notDollar label = true ->
  patternFree (label +:+ includeName +:+ " -->") = patternFree includeName.
Proof.
  intros Hlabel. rewrite patternFree_append_plain by done.
  by apply patternFree_append_suffix.
Qed.

End Patterns.

Section InPlace.
Import LiquidEngine.

Lemma append_inv_head a b c : a +:+ b = a +:+ c -> b = c.
Proof.
  induction a as [|x a IH]; [done|]. rewrite !append_cons.
  intros [= ?]. auto.
Qed.

Lemma dropChars_append a b : dropChars (String.length a) (a +:+ b) = b.
Proof. induction a as [|c a IH]; [by destruct b|]. by rewrite append_cons. Qed.

Lemma dropChars_nil n : dropChars n EmptyString = EmptyString.
Proof. by destruct n. Qed.

(** Where [replace] acts when the token first occurs right after [done]. *)
Lemma replace_in_place done token rest text :
  fst <$> splitFirst token (done +:+ token +:+ rest) = Some done ->
  patternFree text = true ->
  replace (done +:+ token +:+ rest) token text = done +:+ text +:+ rest.
Proof.
  intros Hfirst Hfree. unfold replace.
  destruct (splitFirst token (done +:+ token +:+ rest))
    as [[before after]|] eqn:Hsplit; [|done].
  injection Hfirst as ->.
  apply splitFirst_sound in Hsplit.
  apply append_inv_head, append_inv_head in Hsplit as <-.
  by rewrite getSubstitution_patternFree.
Qed.

Variable tokenAt : string -> option (string * string).
Variable inserted : string -> string.

(** A recogniser returns as the token a non-empty prefix of its argument. *)
Hypothesis tokenAt_prefix :
  ∀ s token name, tokenAt s = Some (token, name) ->
    ∃ c token' rest, token = String c token' ∧ s = token +:+ rest.

Lemma expandedInPlace_from_skip a b :
  expandedInPlace_from tokenAt inserted (String.length a) (a +:+ b)
  = expandedInPlace_from tokenAt inserted 0 b.
Proof.
  induction a as [|c a IH]; [by destruct b|]. by rewrite append_cons.
Qed.

(** With the tokens apart, the loop of replacements gives the text with
    every token replaced where it stands. *)
Lemma substituteAll_in_place s :
  ∀ done skip,
    tokensApart_from tokenAt inserted done skip s = true ->
    substituteAll (λ name, Some (inserted name))
      (done +:+ dropChars skip s) (matchAll_from tokenAt skip s)
    = Some (done +:+ expandedInPlace_from tokenAt inserted skip s).
Proof.
  induction s as [|c s IH]; intros done skip Hapart.
  - by rewrite dropChars_nil.
  - destruct skip as [|k]; [|by apply IH].
    change (dropChars 0 (String c s)) with (String c s).
    simpl in Hapart |- *.
    destruct (tokenAt (String c s)) as [[token name]|] eqn:Hhit.
    + apply andb_true_iff in Hapart as [[Hfirst Hfree]%andb_true_iff Hrest].
      apply bool_decide_eq_true in Hfirst.
      destruct (tokenAt_prefix _ _ _ Hhit) as (c' & token' & rest & -> & Hs).
      rewrite append_cons in Hs. injection Hs as <- ->.
      simpl in Hrest |- *. rewrite Nat.sub_0_r in *.
      rewrite <- append_cons in Hfirst |- *.
      rewrite replace_in_place by done.
      specialize (IH (done +:+ inserted name) (String.length token') Hrest).
      rewrite dropChars_append, append_assoc in IH.
      by rewrite IH, append_assoc.
    + specialize (IH (done +:+ String c EmptyString) 0 Hapart).
      change (dropChars 0 s) with s in IH.
      by rewrite !append_assoc, !append_cons, !append_nil in IH.
Qed.

Lemma substituteAll_apart (expand : string -> option string) s :
  (∀ name, expand name = Some (inserted name)) ->
  tokensApart tokenAt inserted s = true ->
  substituteAll expand s (matchAll tokenAt s)
  = Some (expandedInPlace tokenAt inserted s).
Proof.
  intros Hexpand Hapart.
  rewrite (substituteAll_ext expand (λ name, Some (inserted name)))
    by done.
  apply (substituteAll_in_place s EmptyString 0 Hapart).
Qed.

(** The first token of a text is replaced where it stands, and the text
    after it is treated alike. *)
Lemma expandedInPlace_first before token name after :
  tokenAt (token +:+ after) = Some (token, name) ->
  startsNoToken tokenAt before (token +:+ after) = true ->
  expandedInPlace tokenAt inserted (before +:+ token +:+ after)
  = before +:+ inserted name +:+ expandedInPlace tokenAt inserted after.
Proof.
  intros Hhit. unfold expandedInPlace.
  induction before as [|c before IH].
  - intros _. rewrite !append_nil.
    destruct (tokenAt_prefix _ _ _ Hhit) as (c & token' & rest & -> & _).
    rewrite append_cons in *. simpl. rewrite Hhit. simpl.
    by rewrite Nat.sub_0_r, expandedInPlace_from_skip.
  - intros Hbefore. simpl in Hbefore. rewrite !append_cons in *.
    destruct (tokenAt (String c (before +:+ token +:+ after))) eqn:Hnone;
      [done|].
    simpl. rewrite Hnone. by rewrite IH.
Qed.

End InPlace.

Section Recognisers.
Import LiquidEngine Processors.

Lemma suffix_trans s r t :
  (∃ x, s = x +:+ r) -> (∃ y, r = y +:+ t) -> ∃ z, s = z +:+ t.
Proof.
  intros [x ->] [y ->]. exists (x +:+ y). by rewrite append_assoc.
Qed.

Lemma suffix_cons c r : ∃ x, String c r = x +:+ r.
Proof. by exists (String c EmptyString). Qed.

Lemma stripPrefix_suffix p s r : stripPrefix p s = Some r -> ∃ x, s = x +:+ r.
Proof. intros ->%stripPrefix_sound. by exists p. Qed.

Lemma dropSpaces_suffix s : ∃ x, s = x +:+ dropSpaces s.
Proof.
  induction s as [|c s [x IH]]; [by exists EmptyString|]. simpl.
  destruct (isSpace c); [|by exists EmptyString].
  exists (String c x). by rewrite append_cons, <- IH.
Qed.

Lemma span_suffix p s taken rest :
  span p s = (taken, rest) -> ∃ x, s = x +:+ rest.
Proof.
  revert taken. induction s as [|c s IH]; intros taken; simpl.
  - intros [= <- <-]. by exists EmptyString.
  - destruct (p c); [|intros [= <- <-]; by exists EmptyString].
    destruct (span p s) as [taken' rest'] eqn:Hspan.
    intros [= <- <-]. destruct (IH _ eq_refl) as [x ->].
    by exists (String c x).
Qed.

(** What a recogniser consumed is a non-empty prefix of the text when the
    text opens with two characters and [rest] remains of what follows. *)
Lemma consumed_prefix a b r1 s rest :
  stripPrefix (String a (String b EmptyString)) s = Some r1 ->
  (∃ y, r1 = y +:+ rest) ->
  ∃ c token' rest',
    consumed s rest = String c token' ∧ s = consumed s rest +:+ rest'.
Proof.
  intros ->%stripPrefix_sound [y ->].
  exists a, (String b y), rest.
  rewrite <- append_assoc, consumed_append. split; reflexivity.
Qed.

Lemma includeTagAt_prefix s token name :
  includeTagAt s = Some (token, name) ->
  ∃ c token' rest, token = String c token' ∧ s = token +:+ rest.
Proof.
  unfold includeTagAt, mbind, option_bind.
  destruct (stripPrefix "{%" s) as [r1|] eqn:H1; [|done].
  destruct (stripPrefix "include" (dropSpaces r1)) as [r2|] eqn:H2; [|done].
  destruct r2 as [|c r2]; [done|]. destruct (isSpace c); [|done].
  destruct (dropSpaces (String c r2)) as [|q r3] eqn:H3; [done|].
  destruct (isQuote q); [|done].
  destruct (span notQuote r3) as [taken r4] eqn:H4.
  destruct r4 as [|q' r5]; [done|].
  destruct (isQuote q' && truthy taken); [|done].
  destruct (stripPrefix "%}" (dropSpaces r5)) as [r6|] eqn:H6; [|done].
  intros [= <- <-].
  apply (consumed_prefix _ _ _ _ _ H1).
  pose proof (dropSpaces_suffix (String c r2)) as H3'. rewrite H3 in H3'.
  eapply suffix_trans; [apply dropSpaces_suffix|].
  eapply suffix_trans; [by eapply stripPrefix_suffix|].
  eapply suffix_trans; [exact H3'|].
  eapply suffix_trans; [apply suffix_cons|].
  eapply suffix_trans; [by eapply span_suffix|].
  eapply suffix_trans; [apply suffix_cons|].
  eapply suffix_trans; [apply dropSpaces_suffix|].
  by eapply stripPrefix_suffix.
Qed.

Lemma snippetRefAt_prefix s token name :
  snippetRefAt s = Some (token, name) ->
  ∃ c token' rest, token = String c token' ∧ s = token +:+ rest.
Proof.
  unfold snippetRefAt, mbind, option_bind.
  destruct (stripPrefix "{{" s) as [r1|] eqn:H1; [|done].
  destruct (stripPrefix "Snippets." (dropSpaces r1)) as [r2|] eqn:H2; [|done].
  destruct (span notBrace r2) as [taken r3] eqn:H3.
  destruct (truthy taken); [|done].
  destruct (stripPrefix "}}" r3) as [r4|] eqn:H4; [|done].
  intros [= <- <-].
  apply (consumed_prefix _ _ _ _ _ H1).
  eapply suffix_trans; [apply dropSpaces_suffix|].
  eapply suffix_trans; [by eapply stripPrefix_suffix|].
  eapply suffix_trans; [by eapply span_suffix|].
  by eapply stripPrefix_suffix.
Qed.

Lemma editableTagAt_prefix s token name :
  editableTagAt s = Some (token, name) ->
  ∃ c token' rest, token = String c token' ∧ s = token +:+ rest.
Proof.
  unfold editableTagAt, mbind, option_bind.
  destruct (stripPrefix "{%" s) as [r1|] eqn:H1; [|done].
  destruct (stripPrefix "editable" (dropSpaces r1)) as [r2|] eqn:H2; [|done].
  destruct r2 as [|c r2]; [done|]. destruct (isSpace c); [|done].
  destruct (stripPrefix "snippets" (dropSpaces (String c r2))) as [r3|] eqn:H3;
    [|done].
  destruct r3 as [|c' r3]; [done|]. destruct (isSpace c'); [|done].
  destruct (dropSpaces (String c' r3)) as [|q r4] eqn:H4; [done|].
  destruct (isQuote q); [|done].
  destruct (span notQuote r4) as [taken r5] eqn:H5.
  destruct r5 as [|q' r6]; [done|].
  destruct (isQuote q' && truthy taken); [|done].
  destruct (span notPercent r6) as [options r7] eqn:H7.
  destruct (stripPrefix "%}" r7) as [r8|] eqn:H8; [|done].
  intros [= <- <-].
  apply (consumed_prefix _ _ _ _ _ H1).
  pose proof (dropSpaces_suffix (String c' r3)) as H4'. rewrite H4 in H4'.
  eapply suffix_trans; [apply dropSpaces_suffix|].
  eapply suffix_trans; [by eapply stripPrefix_suffix|].
  eapply suffix_trans; [apply dropSpaces_suffix|].
  eapply suffix_trans; [by eapply stripPrefix_suffix|].
  eapply suffix_trans; [exact H4'|].
  eapply suffix_trans; [apply suffix_cons|].
  eapply suffix_trans; [by eapply span_suffix|].
  eapply suffix_trans; [apply suffix_cons|].
  eapply suffix_trans; [by eapply span_suffix|].
  by eapply stripPrefix_suffix.
Qed.

Lemma snippetsRefAt_prefix s token name :
  snippetsRefAt s = Some (token, name) ->
  ∃ c token' rest, token = String c token' ∧ s = token +:+ rest.
Proof.
  unfold snippetsRefAt, mbind, option_bind.
  destruct (stripPrefix "{{" s) as [r1|] eqn:H1; [|done].
  destruct (stripPrefix "snippets[" (dropSpaces r1)) as [r2|] eqn:H2; [|done].
  destruct r2 as [|q r3]; [done|]. destruct (isQuote q); [|done].
  destruct (span notQuote r3) as [taken r4] eqn:H4.
  destruct r4 as [|q' r5]; [done|].
  destruct (isQuote q' && truthy taken); [|done].
  destruct (stripPrefix "]" r5) as [r6|] eqn:H6; [|done].
  destruct (stripPrefix "}}" (dropSpaces r6)) as [r7|] eqn:H7; [|done].
  intros [= <- <-].
  apply (consumed_prefix _ _ _ _ _ H1).
  eapply suffix_trans; [apply dropSpaces_suffix|].
  eapply suffix_trans; [by eapply stripPrefix_suffix|].
  eapply suffix_trans; [apply suffix_cons|].
  eapply suffix_trans; [by eapply span_suffix|].
  eapply suffix_trans; [apply suffix_cons|].
  eapply suffix_trans; [by eapply stripPrefix_suffix|].
  eapply suffix_trans; [apply dropSpaces_suffix|].
  by eapply stripPrefix_suffix.
Qed.

End Recognisers.

Section ExpandedText.
Import LiquidEngine.
Variable config : Config.
Variable site : Site.

Lemma loadSnippetContent_text fuel snippetName depth :
  enoughFuel depth ≤ fuel ->
  loadSnippetContent fuel config site snippetName depth
  = Some (snippetText config site snippetName depth).
Proof.
  intros Hfuel. unfold snippetText, loadSnippetContent, loadSnippetContent_with.
  destruct (findSnippetContent site snippetName) as [[content|]|]; [|done..].
  by rewrite !preprocessIncludes_enough by (done || lia).
Qed.

Lemma processInclude_text fuel includeName depth :
  enoughFuel depth ≤ fuel ->
  processInclude fuel config site includeName depth
  = Some (includeText config site includeName depth).
Proof.
  intros Hfuel. unfold includeText, processInclude, processInclude_with.
  destruct (findIncludeContent site includeName) as [content|]; [|done].
  destruct (truthy content); [|done].
  destruct (shouldSkipLiquidProcessing config includeName content); [done|].
  by rewrite !preprocessIncludes_enough by (done || lia).
Qed.



(** With its snippet references apart, the first loop leaves the text with
    every reference replaced where it stands. *)
Lemma afterSnippets_in_place templateContent depth :
  snippetsApart config site depth templateContent = true ->
  afterSnippets config site depth templateContent
  = snippetsInPlace config site depth templateContent.
Proof.
  intros Hsnippets. unfold afterSnippets.
  rewrite (substituteAll_apart snippetRefAt
             (λ snippetName, snippetText config site (trim snippetName) (depth + 1))
             snippetRefAt_prefix); [done|intros name|exact Hsnippets].
  by apply loadSnippetContent_text.
Qed.

(** Below the depth limit the preprocessor runs its second loop on the text
    the first loop left: with the include directives of that text apart, it
    returns it with every directive replaced where it stands. *)
Lemma preprocess_after_snippets templateContent depth :
  depth ≤ 10 ->
  includesApart config site depth
    (afterSnippets config site depth templateContent) = true ->
  preprocess config site templateContent depth
  = includesInPlace config site depth
      (afterSnippets config site depth templateContent).
Proof.
  intros Hdepth Hincludes.
  pose proof (preprocess_unfold config site templateContent depth Hdepth)
    as Hrun.
  change (preprocessIncludes (S ?f) config site ?c depth)
    with (preprocessIncludes_body config site
            (preprocessIncludes f config site) c depth) in Hrun.
  unfold preprocessIncludes_body in Hrun.
  replace (10 <? depth) with false in Hrun
    by (symmetry; apply Nat.ltb_ge; lia).
  rewrite (substituteAll_ext _
             (λ snippetName,
                loadSnippetContent (enoughFuel (depth + 1)) config site
                  (trim snippetName) (depth + 1))) in Hrun.
  2:{ intros name.
      rewrite (loadSnippetContent_text (enoughFuel (depth + 1))) by done.
      apply (loadSnippetContent_text (S (10 - depth))).
      unfold enoughFuel. lia. }
  unfold afterSnippets in *.
  destruct (substituteAll _ templateContent _) as [processedContent|];
    [|done].
  simpl in Hrun, Hincludes |- *.
  rewrite (substituteAll_apart includeTagAt
             (λ includeName, includeText config site includeName (depth + 1))
             includeTagAt_prefix) in Hrun; [|intros name|exact Hincludes].
  2:{ apply (processInclude_text (S (10 - depth))).
      unfold enoughFuel. lia. }
  by injection Hrun as <-.
Qed.

(** Below the depth limit, with the tokens of both loops apart, the
    preprocessor returns the text with every snippet reference and then
    every include directive replaced where it stands. *)
Lemma preprocess_in_place templateContent depth :
  depth ≤ 10 ->
  snippetsApart config site depth templateContent = true ->
  includesApart config site depth
    (snippetsInPlace config site depth templateContent) = true ->
  preprocess config site templateContent depth
  = includesInPlace config site depth
      (snippetsInPlace config site depth templateContent).
Proof.
  intros Hdepth Hsnippets Hincludes.
  rewrite <- (afterSnippets_in_place _ _ Hsnippets) in *.
  by apply preprocess_after_snippets.
Qed.

Lemma processInclude_unresolved fuel includeName depth :
  includeUnresolved site includeName ->
  processInclude fuel config site includeName depth
  = Some (if listsPlainFile site includeName then includeError includeName
          else includeNotFound includeName).
Proof.
  intros Hunresolved. unfold processInclude, processInclude_with.
  rewrite findIncludeContent_unresolved by done.
  by destruct (listsPlainFile site includeName).
Qed.

Lemma includeText_unresolved includeName depth :
  includeUnresolved site includeName ->
  includeText config site includeName depth
  = if listsPlainFile site includeName then includeError includeName
    else includeNotFound includeName.
Proof.
  intros Hunresolved. unfold includeText.
  by rewrite processInclude_unresolved.
Qed.

Lemma findSnippetContent_missing snippetName :
  snippetMissing site snippetName ->
  findSnippetContent site snippetName
  = if snippetSlugIsFile site snippetName then Throw ENOTDIR else Ret None.
Proof.
  unfold snippetMissing, nothingListed, snippetSlugIsFile, findSnippetContent.
  destruct (snippetsPath site !! normalize snippetName) as [[|files]|];
    [done| |done].
  intros Hnone. simpl.
  rewrite (findFile_None_weaken _ (λ f, endsWith f ".contentsnippet.value.html")
             files Hnone) by (intros f ->; done).
  rewrite (findFile_None_weaken _ (λ f, endsWith f ".contentsnippet.html")
             files Hnone); [done|].
  intros f ->. apply orb_true_r.
Qed.

Lemma loadSnippetContent_missing fuel snippetName depth :
  snippetMissing site snippetName ->
  loadSnippetContent fuel config site snippetName depth
  = Some (if snippetSlugIsFile site snippetName then snippetError snippetName
          else snippetNotFound snippetName).
Proof.
  intros Hmissing. unfold loadSnippetContent, loadSnippetContent_with.
  rewrite findSnippetContent_missing by done.
  by destruct (snippetSlugIsFile site snippetName).
Qed.

Lemma snippetText_missing snippetName depth :
  snippetMissing site snippetName ->
  snippetText config site snippetName depth
  = if snippetSlugIsFile site snippetName then snippetError snippetName
    else snippetNotFound snippetName.
Proof.
  intros Hmissing. unfold snippetText.
  by rewrite loadSnippetContent_missing.
Qed.

End ExpandedText.

Section Grep.
Import LiquidEngine.

(** A text holds a pattern of its own length only when it is the pattern. *)
Lemma includes_same_length s pat :
  String.length s = String.length pat -> includes s pat = true -> s = pat.
Proof.
  intros Hlength. unfold includes.
  destruct (splitFirst pat s) as [[before after]|] eqn:Hsplit; [|done].
  intros _. apply splitFirst_sound in Hsplit. subst s.
  rewrite !length_append in Hlength.
  destruct before; [|simpl in Hlength; lia].
  destruct after; [|simpl in Hlength; lia].
  by rewrite append_nil, append_nil_r.
Qed.

Lemma snippetNotFound_not_includeNotFound snippetName :
  includes (snippetNotFound snippetName) (includeNotFound snippetName) = false.
Proof.
  apply not_true_is_false. intros Hin.
  apply includes_same_length in Hin.
  - unfold snippetNotFound, includeNotFound in Hin.
    rewrite !append_cons in Hin. discriminate.
  - unfold snippetNotFound, includeNotFound. by rewrite !length_append.
Qed.

Lemma includes_absent_first (p : ascii -> bool) c pat s :
  p c = false -> allChars p s = true -> includes s (String c pat) = false.
Proof.
  intros Hc. induction s as [|x s IH]; [done|]. simpl.
  intros [Hx Hs]%andb_true_iff.
  apply includes_skip; [|by apply IH].
  rewrite stripPrefix_cons.
  destruct (Ascii.eqb_spec c x) as [->|]; [congruence|done].
Qed.

(** The prefix of the include marker does not occur in the snippet marker of
    a name without [<]. *)
Lemma snippetNotFound_holds_no_include_marker snippetName :
  allChars notLessThan snippetName = true ->
  includes (snippetNotFound snippetName) "<!-- Include not found:" = false.
Proof.
  intros Hname. unfold snippetNotFound.
  rewrite append_cons. apply includes_skip; [reflexivity|].
  apply (includes_absent_first notLessThan); [done|].
  by rewrite !allChars_append, Hname.
Qed.

End Grep.

Section HandlerCache.
Import LiquidEngine Handlers Processors.
Variable regexTest : string -> string -> bool.
Variable regexCount : string -> string -> nat.
Variable Data : Type.
Variable mockData : Data.
Variable spread : Data -> Data -> Data.
Variable parseAndRender : string -> Data -> Outcome string.
Variable Yaml : Type.
Variable yamlParse : string -> Outcome Yaml.
Variable emptyYaml : Yaml.
Variable config : Config.
Variable site : Site.

Local Abbreviation getSnippet := (getSnippet Yaml yamlParse emptyYaml site).
Local Abbreviation renderSnippet :=
  (renderSnippet regexTest regexCount Data mockData spread parseAndRender
     Yaml yamlParse emptyYaml config site).
Local Abbreviation processSnippetReferences :=
  (processSnippetReferences regexTest regexCount Data mockData spread
     parseAndRender Yaml yamlParse emptyYaml config site).
Local Abbreviation renderedSnippet :=
  (renderedSnippet regexTest regexCount Data mockData spread parseAndRender
     Yaml yamlParse emptyYaml config site).
Local Abbreviation cacheGrown := (cacheGrown Yaml yamlParse emptyYaml site).

Lemma renderSnippet_absent snippetsCache snippetName data :
  snippetsCache !! snippetName = None ->
  snippetMissing site snippetName ->
  renderSnippet snippetsCache snippetName data
  = (Ret (snippetNotFound snippetName), snippetsCache).
Proof.
  intros Hmiss Hmissing.
  destruct (snippetsPath site !! normalize snippetName) as [[|files]|] eqn:Hdir.
  - unfold Handlers.renderSnippet, Handlers.getSnippet, loadSnippet.
    by rewrite Hmiss, Hdir.
  - apply renderSnippet_missing; [done|].
    unfold snippetMissing, nothingListed in Hmissing.
    unfold snippetUnresolved, holdsNoFile. by rewrite Hdir in *.
  - apply renderSnippet_missing; [done|].
    unfold snippetUnresolved, holdsNoFile. by rewrite Hdir.
Qed.

Lemma cacheGrown_refl snippetsCache : cacheGrown snippetsCache snippetsCache.
Proof. intros name. by left. Qed.

(** A lookup in a grown cache finds what a lookup in the cache it grew from
    finds, and leaves a grown cache. *)
Lemma getSnippet_grown earlier later snippetName :
  cacheGrown earlier later ->
  (getSnippet later snippetName).1 = (getSnippet earlier snippetName).1
  ∧ cacheGrown earlier (getSnippet later snippetName).2.
Proof.
  intros Hgrown. unfold Handlers.getSnippet.
  destruct (Hgrown snippetName) as [Hsame|(Hnone & snippet & Hload & Hfound)].
  - rewrite Hsame.
    destruct (earlier !! snippetName) as [snippet|] eqn:Hearlier; [done|].
    destruct (loadSnippet Yaml yamlParse emptyYaml site snippetName)
      as [[snippet|]|] eqn:Hload; [|done..].
    split; [done|]. simpl. intros name.
    destruct (decide (name = snippetName)) as [->|Hne].
    + right. split; [done|]. exists snippet. by rewrite lookup_insert_eq.
    + rewrite lookup_insert_ne by done. apply Hgrown.
  - by rewrite Hfound, Hnone, Hload.
Qed.

Lemma renderSnippet_grown earlier later snippetName data :
  cacheGrown earlier later ->
  (renderSnippet later snippetName data).1
  = (renderSnippet earlier snippetName data).1
  ∧ cacheGrown earlier (renderSnippet later snippetName data).2.
Proof.
  intros Hgrown. unfold Handlers.renderSnippet.
  destruct (getSnippet_grown earlier later snippetName Hgrown) as [Hfound Hcache].
  destruct (getSnippet later snippetName) as [found1 cache1].
  destruct (getSnippet earlier snippetName) as [found2 cache2].
  simpl in *. by subst found1.
Qed.

Lemma renderSnippet_returns snippetsCache snippetName data :
  (renderSnippet snippetsCache snippetName data).1
  = Ret (renderedSnippet snippetsCache data snippetName).
Proof.
  unfold renderedSnippet, Handlers.renderSnippet.
  destruct (getSnippet snippetsCache snippetName) as [[snippet|] cache']; simpl;
    [|done].
  by destruct (render _ _ _ _ _ _ _ _ _ _).
Qed.

(** The loop of replacements of the snippet handler, started from a grown
    cache: every name is rendered as from the cache it grew from. *)
Lemma replaceEach_grown earlier data matches :
  ∀ later processedContent result,
    cacheGrown earlier later ->
    substituteAll (λ name, Some (renderedSnippet earlier data name))
      processedContent matches = Some result ->
    ∃ latest,
      replaceEach Data renderSnippet later processedContent matches data
      = (Ret result, latest)
      ∧ cacheGrown earlier latest.
Proof.
  induction matches as [|[token name] matches IH];
    intros later processedContent result Hgrown; simpl.
  - intros [= ->]. by exists later.
  - intros Hrest.
    destruct (renderSnippet_grown earlier later name data Hgrown)
      as [Htext Hcache].
    rewrite (renderSnippet_returns earlier) in Htext.
    destruct (renderSnippet later name data) as [rendered cache'].
    simpl in *. subst rendered. by apply IH.
Qed.

(** With the tokens apart, the snippet handler returns the text with every
    tag and then every reference replaced where it stands by what
    [renderSnippet] returns for its name, and leaves a grown cache. *)
Lemma processSnippetReferences_in_place snippetsCache content data :
  tokensApart editableTagAt (renderedSnippet snippetsCache data) content = true ->
  matchAll snippetsRefAt
    (expandedInPlace editableTagAt (renderedSnippet snippetsCache data) content)
  = matchAll snippetsRefAt content ->
  tokensApart snippetsRefAt (renderedSnippet snippetsCache data)
    (expandedInPlace editableTagAt (renderedSnippet snippetsCache data) content)
  = true ->
  ∃ latest,
    processSnippetReferences snippetsCache content data
    = (expandedInPlace snippetsRefAt (renderedSnippet snippetsCache data)
         (expandedInPlace editableTagAt (renderedSnippet snippetsCache data)
            content),
       latest)
    ∧ cacheGrown snippetsCache latest.
Proof.
  intros Htags Hsame Hrefs.
  unfold Processors.processSnippetReferences.
  destruct (replaceEach_grown snippetsCache data
              (matchAll editableTagAt content) snippetsCache content
              (expandedInPlace editableTagAt (renderedSnippet snippetsCache data)
                 content) (cacheGrown_refl _))
    as (cache1 & -> & Hgrown1);
    [by apply substituteAll_apart; [apply editableTagAt_prefix|..]|].
  destruct (replaceEach_grown snippetsCache data
              (matchAll snippetsRefAt content) cache1
              (expandedInPlace editableTagAt (renderedSnippet snippetsCache data)
                 content)
              (expandedInPlace snippetsRefAt (renderedSnippet snippetsCache data)
                 (expandedInPlace editableTagAt
                    (renderedSnippet snippetsCache data) content)) Hgrown1)
    as (cache2 & -> & Hgrown2); [|by exists cache2].
  rewrite <- Hsame.
  by apply substituteAll_apart; [apply snippetsRefAt_prefix|..].
Qed.

Lemma renderedSnippet_absent snippetsCache snippetName data :
  snippetsCache !! snippetName = None ->
  snippetMissing site snippetName ->
  renderedSnippet snippetsCache data snippetName = snippetNotFound snippetName.
Proof.
  intros Hmiss Hmissing.
  pose proof (renderSnippet_returns snippetsCache snippetName data) as Htext.
  rewrite renderSnippet_absent in Htext by done.
  simpl in Htext. by injection Htext.
Qed.

End HandlerCache.

(** * The markers for names that do not resolve *)

(** C3 (amended). For every include name that resolves to no snippet and to
    no template, [processInclude] returns exactly the marker
    [<!-- Include not found: NAME -->] with the name as written, at every
    depth, unless the slug it lists names a plain file: then the lookup
    throws and it returns [<!-- Include error: NAME -->].  Preprocessing at a
    depth of at most 10 puts what [processInclude] returns in the place of
    every include directive of the text left by the loop over the snippet
    references (the text itself when it holds none), whatever else the text
    holds, provided the directives stand apart: no directive's text occurs
    earlier in the text produced so far ([replace] acts on the first
    occurrence) and no inserted text holds a replacement pattern, which the
    marker does exactly when the name does.  Past depth 10 the text comes
    back unchanged and no marker is rendered. *)
Theorem include_not_found_marker :
  ∀ (config : Config) (site : Site),
    (∀ includeName,
       includeUnresolved site includeName ->
       ∀ fuel depth,
         LiquidEngine.processInclude fuel config site includeName depth
         = Some (if listsPlainFile site includeName
                 then "<!-- Include error: " +:+ includeName +:+ " -->"
                 else "<!-- Include not found: " +:+ includeName +:+ " -->"))
    ∧ (∀ templateContent depth,
         depth ≤ 10 ->
         includesApart config site depth
           (afterSnippets config site depth templateContent) = true ->
         LiquidEngine.preprocess config site templateContent depth
         = includesInPlace config site depth
             (afterSnippets config site depth templateContent))
    ∧ (∀ templateContent depth,
         LiquidEngine.matchAll LiquidEngine.snippetRefAt templateContent = [] ->
         afterSnippets config site depth templateContent = templateContent)
    ∧ (∀ depth before token includeName after,
         LiquidEngine.includeTagAt (token +:+ after) = Some (token, includeName) ->
         startsNoToken LiquidEngine.includeTagAt before (token +:+ after) = true ->
         includeUnresolved site includeName ->
         includesInPlace config site depth (before +:+ token +:+ after)
         = before
           +:+ (if listsPlainFile site includeName
                then "<!-- Include error: " +:+ includeName +:+ " -->"
                else "<!-- Include not found: " +:+ includeName +:+ " -->")
           +:+ includesInPlace config site depth after)
    ∧ (∀ includeName,
         patternFree ("<!-- Include not found: " +:+ includeName +:+ " -->")
         = patternFree includeName)
    ∧ (∀ templateContent depth,
         10 < depth ->
         LiquidEngine.preprocess config site templateContent depth
         = templateContent).
Proof.
  intros config site. split; [|split; [|split; [|split; [|split]]]].
  - intros includeName Hunresolved fuel depth.
    by apply processInclude_unresolved.
  - intros templateContent depth. apply preprocess_after_snippets.
  - intros templateContent depth Hnone. unfold afterSnippets.
    by rewrite Hnone.
  - intros depth before token includeName after Hhit Hbefore Hunresolved.
    unfold includesInPlace.
    rewrite (expandedInPlace_first _ _ includeTagAt_prefix
               before token includeName after Hhit Hbefore).
    by rewrite includeText_unresolved.
  - intros includeName. by apply patternFree_marker.
  - intros templateContent depth Hdepth.
    unfold LiquidEngine.preprocess, LiquidEngine.enoughFuel.
    by rewrite preprocessIncludes_past_limit.
Qed.

Lemma include_not_found_marker_witness :
  LiquidEngine.preprocess Samples.plainConfig Samples.emptySite
    MarkerSamples.ghostPage 0
  = MarkerSamples.ghostPageExpanded.
Proof.
  rewrite (proj1 (proj2 (include_not_found_marker Samples.plainConfig
                           Samples.emptySite))
             MarkerSamples.ghostPage 0 (Nat.le_0_l 10));
    by vm_compute.
Defined.

(** C3 as stated fails past the depth limit: in a chain of eleven nested
    templates the directive of the last one names nothing that resolves, and
    the output holds the directive itself and no marker. *)
Lemma include_marker_absent_past_depth_limit :
  includeUnresolved Samples.chainSite "Ghost Widget"
  ∧ ∃ output,
      LiquidEngine.preprocessIncludes (LiquidEngine.enoughFuel 0)
        Samples.plainConfig Samples.chainSite
        "<main>{% include 'T1' %}</main>" 0
      = Some output
      ∧ includes output (includeDirective "Ghost Widget") = true
      ∧ includes output (LiquidEngine.includeNotFound "Ghost Widget") = false.
Proof.
  split; [by vm_compute|].
  eexists. split; [vm_compute; reflexivity|]. by vm_compute.
Qed.

(** It fails for a name that holds a replacement pattern: [$&] in the
    marker is replaced by the text of the directive. *)
Lemma include_marker_altered_by_pattern :
  includeUnresolved Samples.emptySite "Cash $& Carry"
  ∧ LiquidEngine.preprocess Samples.plainConfig Samples.emptySite
      "{% include 'Cash $& Carry' %}" 0
    = "<!-- Include not found: Cash {% include 'Cash $& Carry' %} Carry -->"
  ∧ includes
      (LiquidEngine.preprocess Samples.plainConfig Samples.emptySite
         "{% include 'Cash $& Carry' %}" 0)
      "<!-- Include not found: Cash $& Carry -->" = false.
Proof. by vm_compute. Qed.

(** It fails for a name whose slug is a plain file: the marker is the
    include-error marker. *)
Lemma include_of_plain_file_gives_error_marker :
  includeUnresolved MarkerSamples.plainFileSite "Ghost Widget"
  ∧ includeUnresolved MarkerSamples.plainFileSite "Ghost Banner"
  ∧ LiquidEngine.preprocess Samples.plainConfig MarkerSamples.plainFileSite
      "<p>{% include 'Ghost Widget' %}{% include 'Ghost Banner' %}</p>" 0
    = "<p><!-- Include error: Ghost Widget --><!-- Include error: Ghost Banner --></p>".
Proof. by vm_compute. Qed.

(** And the marker is put where the text of the directive first occurs:
    after an included text that holds the same directive and is not
    processed, the marker stands inside that text and the directive of the
    page is left as it was. *)
Lemma include_marker_lands_on_earlier_copy :
  includeUnresolved MarkerSamples.copySite "Ghost Widget"
  ∧ includesApart MarkerSamples.copyConfig MarkerSamples.copySite 0
      MarkerSamples.copyPage = false
  ∧ LiquidEngine.preprocess MarkerSamples.copyConfig MarkerSamples.copySite
      MarkerSamples.copyPage 0
    = "render(<!-- Include not found: Ghost Widget -->);<hr>{% include 'Ghost Widget' %}"
  ∧ includesInPlace MarkerSamples.copyConfig MarkerSamples.copySite 0
      MarkerSamples.copyPage
    = "render({% include 'Ghost Widget' %});<hr><!-- Include not found: Ghost Widget -->".
Proof. by vm_compute. Qed.

(** C10 (amended). For a snippet-object reference whose snippet does not
    resolve, the text to substitute is the marker
    [<!-- Snippet not found: NAME -->]: [loadSnippetContent] returns it for a
    reference [{{ Snippets.NAME }}] (the marker [<!-- Snippet error: NAME -->]
    when the slug names a plain file, where the lookup throws) and
    [renderSnippet] returns it for a reference [snippets[NAME]] the cache
    does not hold.  The first loop of the preprocessor and the snippet
    handler put what these functions return in the place of every reference,
    resolved or not and whatever else the text holds, provided the tokens
    stand apart: no token's text occurs earlier in the text produced so far
    ([replace] acts on the first occurrence), no inserted text holds a
    replacement pattern, which the marker does exactly when the name does,
    and in the handler the tags leave the references of the text as they
    are.  The include directives of the preprocessor are replaced after
    that.  The snippet marker never holds the include marker of the same
    name, and for a name without [<] it does not hold the text
    [<!-- Include not found:] at all. *)
Theorem snippet_reference_not_found_marker :
  ∀ (config : Config) (site : Site),
    (∀ snippetName,
       snippetMissing site snippetName ->
       (∀ fuel depth,
          LiquidEngine.loadSnippetContent fuel config site snippetName depth
          = Some (if snippetSlugIsFile site snippetName
                  then "<!-- Snippet error: " +:+ snippetName +:+ " -->"
                  else "<!-- Snippet not found: " +:+ snippetName +:+ " -->"))
       ∧ (∀ regexTest regexCount (Data : Type) mockData spread parseAndRender
            (Yaml : Type) yamlParse emptyYaml
            (snippetsCache : gmap string (Handlers.Snippet Yaml)) data,
            snippetsCache !! snippetName = None ->
            Handlers.renderSnippet regexTest regexCount Data mockData spread
              parseAndRender Yaml yamlParse emptyYaml config site
              snippetsCache snippetName data
            = (Ret ("<!-- Snippet not found: " +:+ snippetName +:+ " -->"),
               snippetsCache)
            ∧ renderedSnippet regexTest regexCount Data mockData spread
                parseAndRender Yaml yamlParse emptyYaml config site
                snippetsCache data snippetName
              = "<!-- Snippet not found: " +:+ snippetName +:+ " -->"))
    ∧ (∀ templateContent depth,
         snippetsApart config site depth templateContent = true ->
         afterSnippets config site depth templateContent
         = snippetsInPlace config site depth templateContent)
    ∧ (∀ templateContent depth,
         depth ≤ 10 ->
         includesApart config site depth
           (afterSnippets config site depth templateContent) = true ->
         LiquidEngine.preprocess config site templateContent depth
         = includesInPlace config site depth
             (afterSnippets config site depth templateContent))
    ∧ (∀ depth before token snippetName after,
         LiquidEngine.snippetRefAt (token +:+ after) = Some (token, snippetName) ->
         startsNoToken LiquidEngine.snippetRefAt before (token +:+ after) = true ->
         snippetMissing site (trim snippetName) ->
         snippetsInPlace config site depth (before +:+ token +:+ after)
         = before
           +:+ (if snippetSlugIsFile site (trim snippetName)
                then "<!-- Snippet error: " +:+ trim snippetName +:+ " -->"
                else "<!-- Snippet not found: " +:+ trim snippetName +:+ " -->")
           +:+ snippetsInPlace config site depth after)
    ∧ (∀ regexTest regexCount (Data : Type) mockData spread parseAndRender
         (Yaml : Type) yamlParse emptyYaml
         (snippetsCache : gmap string (Handlers.Snippet Yaml)) content data,
         let inserted :=
           renderedSnippet regexTest regexCount Data mockData spread
             parseAndRender Yaml yamlParse emptyYaml config site snippetsCache
             data in
         tokensApart Processors.editableTagAt inserted content = true ->
         LiquidEngine.matchAll Processors.snippetsRefAt
           (expandedInPlace Processors.editableTagAt inserted content)
         = LiquidEngine.matchAll Processors.snippetsRefAt content ->
         tokensApart Processors.snippetsRefAt inserted
           (expandedInPlace Processors.editableTagAt inserted content)
         = true ->
         ∃ latest,
           Processors.processSnippetReferences regexTest regexCount Data
             mockData spread parseAndRender Yaml yamlParse emptyYaml config
             site snippetsCache content data
           = (expandedInPlace Processors.snippetsRefAt inserted
                (expandedInPlace Processors.editableTagAt inserted content),
              latest)
           ∧ cacheGrown Yaml yamlParse emptyYaml site snippetsCache latest)
    ∧ (∀ inserted before token snippetName after,
         Processors.snippetsRefAt (token +:+ after) = Some (token, snippetName) ->
         startsNoToken Processors.snippetsRefAt before (token +:+ after) = true ->
         expandedInPlace Processors.snippetsRefAt inserted
           (before +:+ token +:+ after)
         = before +:+ inserted snippetName
           +:+ expandedInPlace Processors.snippetsRefAt inserted after)
    ∧ (∀ snippetName,
         includes ("<!-- Snippet not found: " +:+ snippetName +:+ " -->")
           ("<!-- Include not found: " +:+ snippetName +:+ " -->") = false
         ∧ (allChars notLessThan snippetName = true ->
            includes ("<!-- Snippet not found: " +:+ snippetName +:+ " -->")
              "<!-- Include not found:" = false)
         ∧ patternFree ("<!-- Snippet not found: " +:+ snippetName +:+ " -->")
           = patternFree snippetName).
Proof.
  intros config site. split; [|split; [|split; [|split; [|split; [|split]]]]].
  - intros snippetName Hmissing. split.
    + intros fuel depth. by apply loadSnippetContent_missing.
    + intros regexTest regexCount Data mockData spread parseAndRender Yaml
        yamlParse emptyYaml snippetsCache data Hmiss.
      split; [by apply renderSnippet_absent|by apply renderedSnippet_absent].
  - intros templateContent depth. apply afterSnippets_in_place.
  - intros templateContent depth. apply preprocess_after_snippets.
  - intros depth before token snippetName after Hhit Hbefore Hmissing.
    unfold snippetsInPlace.
    rewrite (expandedInPlace_first _ _ snippetRefAt_prefix
               before token snippetName after Hhit Hbefore).
    by rewrite snippetText_missing.
  - intros regexTest regexCount Data mockData spread parseAndRender Yaml
      yamlParse emptyYaml snippetsCache content data inserted.
    apply processSnippetReferences_in_place.
  - intros inserted before token snippetName after.
    apply (expandedInPlace_first _ _ snippetsRefAt_prefix).
  - intros snippetName. split; [|split].
    + apply snippetNotFound_not_includeNotFound.
    + apply snippetNotFound_holds_no_include_marker.
    + by apply patternFree_marker.
Qed.

Lemma snippet_reference_not_found_marker_witness :
  LiquidEngine.preprocess Samples.plainConfig Samples.emptySite
    MarkerSamples.orphanPage 0
  = MarkerSamples.orphanPageExpanded
  ∧ ∃ latest,
      Processors.processSnippetReferences Samples.neverMatches
        Samples.noMatches unit tt Samples.keepRight Samples.echoEngine unit
        (λ _, Ret tt) tt Samples.plainConfig Samples.emptySite ∅
        MarkerSamples.orphanHandlerPage tt
      = (MarkerSamples.orphanHandlerPageExpanded, latest).
Proof.
  pose proof (snippet_reference_not_found_marker Samples.plainConfig
                Samples.emptySite)
    as (_ & Hsnippets & Hincludes & _ & Hhandler & _).
  split.
  - rewrite (Hincludes MarkerSamples.orphanPage 0 (Nat.le_0_l 10));
      rewrite (Hsnippets MarkerSamples.orphanPage 0); by vm_compute.
  - destruct (Hhandler Samples.neverMatches Samples.noMatches unit tt
                Samples.keepRight Samples.echoEngine unit (λ _, Ret tt) tt ∅
                MarkerSamples.orphanHandlerPage tt)
      as (latest & Hrun & _); [by vm_compute..|].
    exists latest. rewrite Hrun. by vm_compute.
Defined.

(** C10 as stated fails for a name that holds a replacement pattern: the
    text substituted is not the marker, since [replace] puts the text of the
    reference in the place of [$&]; on both paths. *)
Lemma snippet_marker_altered_by_pattern :
  snippetMissing Samples.emptySite "Cash $& Carry"
  ∧ LiquidEngine.preprocess Samples.plainConfig Samples.emptySite
      "{{ Snippets.Cash $& Carry }}" 0
    = "<!-- Snippet not found: Cash {{ Snippets.Cash $& Carry }} Carry -->"
  ∧ includes
      (LiquidEngine.preprocess Samples.plainConfig Samples.emptySite
         "{{ Snippets.Cash $& Carry }}" 0)
      "<!-- Snippet not found: Cash $& Carry -->" = false
  ∧ Processors.processSnippetReferences Samples.neverMatches Samples.noMatches
      unit tt Samples.keepRight Samples.echoEngine unit (λ _, Ret tt) tt
      Samples.plainConfig Samples.emptySite ∅
      "{{ snippets['Cash $& Carry'] }}" tt
    = ("<!-- Snippet not found: Cash {{ snippets['Cash $& Carry'] }} Carry -->",
       ∅).
Proof. by vm_compute. Qed.

(** A snippet slug that names a plain file gives the snippet-error marker on
    the preprocessor's path. *)
Lemma snippet_of_plain_file_gives_error_marker :
  snippetMissing MarkerSamples.plainFileSite "Ghost Widget"
  ∧ LiquidEngine.preprocess Samples.plainConfig MarkerSamples.plainFileSite
      "<p>{{ Snippets.Ghost Widget }}</p>" 0
    = "<p><!-- Snippet error: Ghost Widget --></p>".
Proof. by vm_compute. Qed.

(** And the marker is put where the text of the reference first occurs: when
    a snippet inserted before holds that text, the marker stands inside the
    snippet and the reference of the page is left as it was; in the handler,
    with an engine that returns its text, the reference that a tag brought
    in takes the marker. *)
Lemma snippet_marker_lands_on_earlier_copy :
  snippetMissing MarkerSamples.nestedSite "Ghost"
  ∧ snippetsApart Samples.plainConfig MarkerSamples.nestedSite 0
      MarkerSamples.nestedPage = false
  ∧ LiquidEngine.preprocess Samples.plainConfig MarkerSamples.nestedSite
      MarkerSamples.nestedPage 0
    = "[<!-- Snippet not found: Ghost -->]<hr>{{ Snippets.Ghost }}"
  ∧ snippetsInPlace Samples.plainConfig MarkerSamples.nestedSite 0
      MarkerSamples.nestedPage
    = "[{{ Snippets.Ghost }}]<hr><!-- Snippet not found: Ghost -->"
  ∧ (Processors.processSnippetReferences Samples.neverMatches
       Samples.noMatches unit tt Samples.keepRight Samples.echoEngine unit
       (λ _, Ret tt) tt Samples.plainConfig MarkerSamples.nestedSite ∅
       MarkerSamples.nestedHandlerPage tt).1
    = "[<!-- Snippet not found: Ghost -->]<hr>{{ snippets['Ghost'] }}".
Proof. by vm_compute. Qed.
